(** * Peer-to-peer games: signalling codec, message protocol, phase
      controller and host-authoritative simulation

    A shallow embedding of [src/PongGame.tsx] (the paddle game, component
    [PongGame]) and of the grid-chase game (component [MultiSnake]), with
    the properties of their session protocol stated and proved.

    Conventions of the embedding.
    - A JavaScript number is an exact rational ([Q]); every constant of the
      two games and every value they compute from them is a dyadic rational
      of small magnitude, which IEEE doubles represent exactly.  The
      infinities are not modelled; [NaN] is a value of its own, which the
      chase game computes for a head moved by a member of
      [Object.prototype].
    - A value that comes out of [JSON.parse] is a [JSValue]; stores that the
      program assigns from such a value without a check keep that type.
    - A handler is a function from the session to an [Outcome]: the session
      it leaves behind, and the exception that escaped it, if any.
    - Timers are data: a pending timeout is an entry of a finite map from
      the handle to the argument of its callback.
    - Rendering (Pixi sprites, React markup), the webcam dialog, status
      texts and the clipboard are left out: no claim reads them. *)

From Stdlib Require Import ZArith NArith QArith Qround List String Ascii Bool Lia Lqa ZifyNat ZifyN.
From Stdlib.Strings Require Import Byte.
From stdpp Require Import gmap strings.
Import ListNotations.


(** ** JavaScript values, exceptions and outcomes *)

Module JS.

Inductive JSError : Type :=
| SyntaxError            (* JSON.parse on text that is not JSON *)
| TypeError              (* property access on undefined or null *)
| InvalidCharacterError  (* atob on text outside base64 *)
| InflateError           (* pako.ungzip on bytes that are not gzip *)
| InvalidStateError.     (* RTCDataChannel.send on a channel that is not open *)

(** A computation that returns or throws. *)
Inductive Result (A : Type) : Type :=
| Ret (a : A)
| Throw (e : JSError).
Arguments Ret {A} a.
Arguments Throw {A} e.

Definition bind {A B : Type} (r : Result A) (k : A -> Result B) : Result B :=
  match r with
  | Ret a => k a
  | Throw e => Throw e
  end.

(** What [JSON.parse] produces, plus [undefined], which a property read
    of an absent key produces, and [NaN], which arithmetic on [undefined]
    produces.  [JSON.parse] gives neither of the two, and
    [JSON.stringify] writes [NaN] as [null]. *)
#[warnings="-register-all"]
Inductive JSValue : Type :=
| VUndefined
| VNull
| VBool (b : bool)
| VNum (q : Q)
| VNaN
| VStr (s : string)
| VArr (items : list JSValue)
| VObj (fields : list (string * JSValue)).

Fixpoint lookup_field (k : string) (fields : list (string * JSValue)) : JSValue :=
  match fields with
  | [] => VUndefined
  | (k', v) :: rest => if String.eqb k k' then v else lookup_field k rest
  end.

(** [v.k] for the keys this program reads ([type], [state], [direction],
    [phase], [countdown], [data], [ballSpeed], [score1], [score2], ...):
    none of them is a property of a primitive or of an array, so those
    give [undefined]; reading from [undefined] or [null] throws. *)
Definition get_prop (v : JSValue) (k : string) : Result JSValue :=
  match v with
  | VUndefined | VNull => Throw TypeError
  | VObj fields => Ret (lookup_field k fields)
  | _ => Ret VUndefined
  end.

Fixpoint update_field (k : string) (x : JSValue) (fields : list (string * JSValue))
  : list (string * JSValue) :=
  match fields with
  | [] => [(k, x)]
  | (k', v) :: rest =>
      if String.eqb k k' then (k, x) :: rest else (k', v) :: update_field k x rest
  end.

(** [v.k = x] in strict mode (ES modules), for a key that is not an
    index: an object takes the write, and so does an array, whose items
    stay as they are (the property it gains is not part of [VArr]; this
    program never reads a named property from an array it wrote to, and
    [JSON.stringify] leaves it out); a primitive throws. *)
Definition set_prop (v : JSValue) (k : string) (x : JSValue) : Result JSValue :=
  match v with
  | VObj fields => Ret (VObj (update_field k x fields))
  | VArr items => Ret (VArr items)
  | _ => Throw TypeError
  end.

(** Truthiness, as [if (v)] and [v && ...] test it. *)
Definition truthy (v : JSValue) : bool :=
  match v with
  | VUndefined | VNull | VNaN => false
  | VBool b => b
  | VNum q => negb (Qeq_bool q 0)
  | VStr s => negb (String.eqb s EmptyString)
  | VArr _ | VObj _ => true
  end.

(** [a === b].  Primitives compare by value, and [NaN] equals nothing.
    Objects and arrays compare by identity, and two values that come from
    different [JSON.parse] calls, or one parsed and one literal, are never
    the same object. *)
Definition strict_eq (a b : JSValue) : bool :=
  match a, b with
  | VUndefined, VUndefined => true
  | VNull, VNull => true
  | VBool x, VBool y => Bool.eqb x y
  | VNum x, VNum y => Qeq_bool x y
  | VStr x, VStr y => String.eqb x y
  | _, _ => false
  end.

Definition is_str (v : JSValue) (s : string) : bool := strict_eq v (VStr s).

(** [typeof v === "number"] *)
Definition is_number (v : JSValue) : bool :=
  match v with VNum _ | VNaN => true | _ => false end.

(** [v ?? d] *)
Definition nullish_or (v d : JSValue) : JSValue :=
  match v with
  | VUndefined | VNull => d
  | _ => v
  end.

Definition num (z : Z) : JSValue := VNum (inject_Z z).

End JS.

(** ** Signalling codec: [encodeForURL] and [decodeFromURL]

    The two functions are the same text in [PongGame] and in [MultiSnake].
    [JSON.stringify], [JSON.parse], [pako.gzip] and [pako.ungzip] belong to
    the platform and to a library: they are parameters.  [btoa] and [atob]
    are modelled after the platform's definition (RFC 4648 encoding, the
    forgiving base64 decode of the WHATWG Infra standard). *)

Module Codec.
Import JS.

(** A binary string and a base64 text: characters with codes below 256. *)
Definition Text := list ascii.

Definition alphabet : Text :=
  list_ascii_of_string
    "ABCDEFGHIJKLMNOPQRSTUVWXYZabcdefghijklmnopqrstuvwxyz0123456789+/".

Definition eq_char : ascii := "="%char.

Definition b64_char (n : N) : ascii := nth (N.to_nat n) alphabet eq_char.

Fixpoint index_of (c : ascii) (l : Text) : option N :=
  match l with
  | [] => None
  | d :: rest =>
      if Ascii.eqb c d then Some 0%N else option_map N.succ (index_of c rest)
  end.

Definition b64_index (c : ascii) : option N := index_of c alphabet.

Definition code (c : ascii) : N := N_of_ascii c.

(** The base64 characters of a binary string, without padding: 24 bits
    become four characters, a rest of 8 bits two, a rest of 16 bits
    three (the missing low bits are zero). *)
Fixpoint b64_body (s : Text) : Text :=
  match s with
  | [] => []
  | [a] =>
      let n := (code a * 16)%N in
      [b64_char (n / 64); b64_char (n mod 64)]
  | [a; b] =>
      let n := ((code a * 256 + code b) * 4)%N in
      [b64_char (n / 4096); b64_char ((n / 64) mod 64); b64_char (n mod 64)]
  | a :: b :: c :: rest =>
      let n := (code a * 65536 + code b * 256 + code c)%N in
      b64_char (n / 262144) :: b64_char ((n / 4096) mod 64)
        :: b64_char ((n / 64) mod 64) :: b64_char (n mod 64) :: b64_body rest
  end.

(** [while (base64.length % 4) base64 += "="], at most [fuel] rounds. *)
Fixpoint pad_loop (fuel : nat) (base64 : Text) : Text :=
  match fuel with
  | O => base64
  | S fuel' =>
      if (length base64 mod 4 =? 0)%nat then base64
      else pad_loop fuel' (base64 ++ [eq_char])
  end.

(** Three rounds always finish the loop (lemma [pad_done]). *)
Definition pad (base64 : Text) : Text := pad_loop 3 base64.

(** [btoa]: the body, padded with [=] to a multiple of four. *)
Definition btoa (binary : Text) : Text := pad (b64_body binary).

Definition is_whitespace (c : ascii) : bool :=
  let n := code c in
  ((n =? 9) || (n =? 10) || (n =? 12) || (n =? 13) || (n =? 32))%N.

(** Forgiving decode, step 2: when the length is a multiple of four, one
    or two [=] at the end go. *)
Definition strip_padding (data : Text) : Text :=
  if (length data mod 4 =? 0)%nat then
    match rev data with
    | e1 :: e2 :: rest =>
        if Ascii.eqb e1 eq_char then
          if Ascii.eqb e2 eq_char then rev rest else rev (e2 :: rest)
        else data
    | _ => data
    end
  else data.

Fixpoint sextets (data : Text) : option (list N) :=
  match data with
  | [] => Some []
  | c :: rest =>
      match b64_index c, sextets rest with
      | Some n, Some ns => Some (n :: ns)
      | _, _ => None
      end
  end.

(** 24 bits give three bytes; 12 bits at the end give one and 18 bits
    two, the low bits being dropped. *)
Fixpoint bytes_of_sextets (ns : list N) : Text :=
  match ns with
  | [] => []
  | [_] => []
  | [s1; s2] =>
      let n := (s1 * 64 + s2)%N in
      [ascii_of_N (n / 16)]
  | [s1; s2; s3] =>
      let n := (((s1 * 64 + s2) * 64 + s3) / 4)%N in
      [ascii_of_N (n / 256); ascii_of_N (n mod 256)]
  | s1 :: s2 :: s3 :: s4 :: rest =>
      let n := (((s1 * 64 + s2) * 64 + s3) * 64 + s4)%N in
      ascii_of_N (n / 65536) :: ascii_of_N ((n / 256) mod 256)
        :: ascii_of_N (n mod 256) :: bytes_of_sextets rest
  end.

Definition atob (data : Text) : Result Text :=
  let data := List.filter (fun c => negb (is_whitespace c)) data in
  let data := strip_padding data in
  if (length data mod 4 =? 1)%nat then Throw InvalidCharacterError
  else
    match sextets data with
    | None => Throw InvalidCharacterError
    | Some ns => Ret (bytes_of_sextets ns)
    end.

(** [s.replace(/x/g, y)] for single characters [x] and [y]. *)
Definition replace_all (x y : ascii) (s : Text) : Text :=
  map (fun c => if Ascii.eqb c x then y else c) s.

Fixpoint drop_leading (x : ascii) (s : Text) : Text :=
  match s with
  | [] => []
  | c :: rest => if Ascii.eqb c x then drop_leading x rest else s
  end.

(** [s.replace(/=+$/, "")]: the run of [=] that ends the text goes. *)
Definition strip_trailing_eq (s : Text) : Text :=
  rev (drop_leading eq_char (rev s)).

(** [String.fromCharCode(...compressed)] *)
Definition fromCharCode (compressed : list byte) : Text :=
  map ascii_of_byte compressed.

(** [bytes[i] = binary.charCodeAt(i)] for every [i] *)
Definition charCodes (binary : Text) : list byte :=
  map byte_of_ascii binary.

Section WithPlatform.
Variables Json Str : Type.
Variable JSON_stringify : Json -> Str.
Variable JSON_parse : Str -> Result Json.
Variable gzip : Str -> list byte.
Variable ungzip : list byte -> Result Str.

Definition encodeForURL (data : Json) : Text :=
  let jsonStr := JSON_stringify data in
  let compressed := gzip jsonStr in
  let base64 := btoa (fromCharCode compressed) in
  strip_trailing_eq
    (replace_all "/"%char "_"%char (replace_all "+"%char "-"%char base64)).

Definition decodeFromURL (encoded : Text) : Result Json :=
  let base64 :=
    replace_all "_"%char "/"%char (replace_all "-"%char "+"%char encoded) in
  let base64 := pad base64 in
  bind (atob base64) (fun binary =>
  let bytes := charCodes binary in
  bind (ungzip bytes) (fun decompressed =>
  JSON_parse decompressed)).
End WithPlatform.
Arguments encodeForURL {Json Str} JSON_stringify gzip data.
Arguments decodeFromURL {Json Str} JSON_parse ungzip encoded.

(** *** Notions used to state the properties *)

(** A character that stands for six bits. *)
Definition sextet_char (c : ascii) : Prop :=
  exists n, (n < 64)%N /\ c = b64_char n.

(** What is checked of every entry of the table. *)
Definition table_ok (n : N) : bool :=
  let c := b64_char n in
  match b64_index c with
  | Some m => N.eqb m n
  | None => false
  end
  && negb (Ascii.eqb c eq_char) && negb (Ascii.eqb c "-"%char)
  && negb (Ascii.eqb c "_"%char) && negb (is_whitespace c).

(** A text without [=]. *)
Definition no_eq (l : Text) : Prop :=
  Forall (fun c => Ascii.eqb c eq_char = false) l.

(** The two substitutions of the encoder, and the two of the decoder. *)
Definition to_url (c : ascii) : ascii :=
  let c1 := if Ascii.eqb c "+"%char then "-"%char else c in
  if Ascii.eqb c1 "/"%char then "_"%char else c1.

Definition from_url (c : ascii) : ascii :=
  let c1 := if Ascii.eqb c "-"%char then "+"%char else c in
  if Ascii.eqb c1 "_"%char then "/"%char else c1.

(** A character of the URL alphabet of base64: a letter, a digit, [-] or
    [_]. *)
Definition is_url_char (c : ascii) : bool :=
  let n := code c in
  (((65 <=? n) && (n <=? 90)) || ((97 <=? n) && (n <=? 122))
   || ((48 <=? n) && (n <=? 57)) || (n =? 45) || (n =? 95))%N.

(** A character that the decoder neither skips nor reads: no white space,
    no [=], and no digit of base64 in either alphabet. *)
Definition foreign (c : ascii) : bool :=
  negb (is_whitespace c) && negb (Ascii.eqb c eq_char)
  && match b64_index (from_url c) with
     | None => true
     | Some _ => false
     end.

(** A stand-in for the platform, used to run the codec on an example:
    compression stores the text behind the two gzip magic bytes, and the
    text of a session description is its [type], a line feed, and its
    [sdp]. *)
Definition store_gzip (s : string) : list byte :=
  x1f :: x8b :: list_byte_of_string s.

Definition store_ungzip (bytes : list byte) : Result string :=
  match bytes with
  | x1f :: x8b :: rest => Ret (string_of_list_byte rest)
  | _ => Throw InflateError
  end.

Definition line_feed : ascii := ascii_of_nat 10.

Definition print_description (d : JSValue) : string :=
  match get_prop d "type", get_prop d "sdp" with
  | Ret (VStr t), Ret (VStr sdp) => String.append t (String line_feed sdp)
  | _, _ => EmptyString
  end.

Fixpoint split_line (s : string) : string * string :=
  match s with
  | EmptyString => (EmptyString, EmptyString)
  | String c rest =>
      if Ascii.eqb c line_feed then (EmptyString, rest)
      else let (t, sdp) := split_line rest in (String c t, sdp)
  end.

Definition read_description (s : string) : Result JSValue :=
  let (t, sdp) := split_line s in
  Ret (VObj [("sdp"%string, VStr sdp); ("type"%string, VStr t)]).

Definition offer_example : JSValue :=
  VObj [("sdp"%string, VStr "v=0 o=- 4611731400430051336 2 IN IP4 127.0.0.1");
        ("type"%string, VStr "offer")].

End Codec.

(** ** The paddle game: component [PongGame] *)

Module Pong.
Import JS.
#[local] Open Scope Q_scope.

Definition CANVAS_WIDTH : Q := 800.
Definition CANVAS_HEIGHT : Q := 560.
Definition PADDLE_WIDTH : Q := 60.
Definition PADDLE_HEIGHT : Q := 88.
Definition BALL_SIZE : Q := 16.
Definition DEFAULT_BALL_SPEED : Q := 5.
Definition PADDLE_SPEED : Q := 8.

Inductive GamePhase : Type := Idle | Lobby | Countdown | Playing.

Inductive Role : Type := NoRole | Host | Guest.

Inductive ReadyState : Type := Connecting | Open | Closing | Closed.

Record Ball : Type := mkBall { x : Q; y : Q; vx : Q; vy : Q }.

Record GameState : Type := mkGameState {
  ball : Ball;
  paddle1Y : Q;
  paddle2Y : Q;
  score1 : Q;
  score2 : Q
}.

Definition phase_eqb (a b : GamePhase) : bool :=
  match a, b with
  | Idle, Idle | Lobby, Lobby | Countdown, Countdown | Playing, Playing => true
  | _, _ => false
  end.

Definition role_eqb (a b : Role) : bool :=
  match a, b with
  | NoRole, NoRole | Host, Host | Guest, Guest => true
  | _, _ => false
  end.

(** [a < b] *)
Definition Qlt_bool (a b : Q) : bool := negb (Qle_bool b a).

Definition Math_max (a b : Q) : Q := if Qle_bool a b then b else a.
Definition Math_min (a b : Q) : Q := if Qle_bool a b then a else b.
Definition Math_abs (a : Q) : Q := if Qlt_bool a 0 then - a else a.
Definition Math_sign (a : Q) : Q :=
  if Qlt_bool 0 a then 1 else if Qlt_bool a 0 then -1 else 0.

(** *** The wire form of the state *)

Definition ball_to_js (b : Ball) : JSValue :=
  VObj [("x"%string, VNum (x b)); ("y"%string, VNum (y b));
        ("vx"%string, VNum (vx b)); ("vy"%string, VNum (vy b))].

Definition to_js (g : GameState) : JSValue :=
  VObj [("ball"%string, ball_to_js (ball g));
        ("paddle1Y"%string, VNum (paddle1Y g));
        ("paddle2Y"%string, VNum (paddle2Y g));
        ("score1"%string, VNum (score1 g));
        ("score2"%string, VNum (score2 g))].

Definition num_of_js (v : JSValue) : option Q :=
  match v with
  | VNum q => Some q
  | _ => None
  end.

Definition ball_of_js (v : JSValue) : option Ball :=
  match v with
  | VObj f =>
      match num_of_js (lookup_field "x" f), num_of_js (lookup_field "y" f),
            num_of_js (lookup_field "vx" f), num_of_js (lookup_field "vy" f) with
      | Some bx, Some by_, Some bvx, Some bvy => Some (mkBall bx by_ bvx bvy)
      | _, _, _, _ => None
      end
  | _ => None
  end.

(** The typed view of a store; [None] when the value is not a
    [GameState]. *)
Definition of_js (v : JSValue) : option GameState :=
  match v with
  | VObj f =>
      match ball_of_js (lookup_field "ball" f),
            num_of_js (lookup_field "paddle1Y" f), num_of_js (lookup_field "paddle2Y" f),
            num_of_js (lookup_field "score1" f), num_of_js (lookup_field "score2" f) with
      | Some b, Some p1, Some p2, Some s1, Some s2 => Some (mkGameState b p1 p2 s1 s2)
      | _, _, _, _, _ => None
      end
  | _ => None
  end.

(** The state [gameStateRef] is created with, and [resetState] rebuilds,
    for a ball speed. *)
Definition fresh_state (speed : Q) : GameState :=
  mkGameState
    (mkBall (CANVAS_WIDTH / 2) (CANVAS_HEIGHT / 2) speed (speed / 2))
    (CANVAS_HEIGHT / 2 - PADDLE_HEIGHT / 2)
    (CANVAS_HEIGHT / 2 - PADDLE_HEIGHT / 2)
    0 0.

(** *** The session: refs, React state, and the platform's timers and
    channel *)

Record Session : Type := mkSession {
  roleRef : Role  (* [role] mirrors it at every write *);
  connected : bool;
  scoresRef : JSValue * JSValue  (* [scores] mirrors it at every write *);
  gamePhaseRef : GamePhase  (* [gamePhase] mirrors it at every write *);
  countdown : JSValue;
  countdownTimerRef : option positive;
  ballSpeed : Q  (* React state; the effect below copies it to the ref *);
  ballSpeedRef : Q;
  keysRef : gset string;
  gameLoopRef : option positive;
  hostFaceImageRef : JSValue;
  guestFaceImageRef : JSValue;
  gameStateRef : JSValue;
  dataChannelRef : option ReadyState;
  peerConnectionRef : option ReadyState;
  spritesRef : bool  (* [paddle1Ref], [paddle2Ref] and [ballRef] are set *);
  timeouts : gmap positive Z  (* pending [setTimeout(() => tick(v))] *);
  frames : gset positive  (* pending [requestAnimationFrame(updateGame)] *);
  nextHandle : positive  (* the handle the next timer gets *);
  outbox : list JSValue  (* what [channel.send] was given, oldest first *)
}.

Definition set_roleRef (v : Role) (s : Session) : Session :=
  mkSession v (connected s) (scoresRef s) (gamePhaseRef s) (countdown s)
    (countdownTimerRef s) (ballSpeed s) (ballSpeedRef s) (keysRef s) (gameLoopRef s)
    (hostFaceImageRef s) (guestFaceImageRef s) (gameStateRef s) (dataChannelRef s)
    (peerConnectionRef s) (spritesRef s) (timeouts s) (frames s) (nextHandle s)
    (outbox s).

Definition set_connected (v : bool) (s : Session) : Session :=
  mkSession (roleRef s) v (scoresRef s) (gamePhaseRef s) (countdown s)
    (countdownTimerRef s) (ballSpeed s) (ballSpeedRef s) (keysRef s) (gameLoopRef s)
    (hostFaceImageRef s) (guestFaceImageRef s) (gameStateRef s) (dataChannelRef s)
    (peerConnectionRef s) (spritesRef s) (timeouts s) (frames s) (nextHandle s)
    (outbox s).

Definition set_scoresRef (v : JSValue * JSValue) (s : Session) : Session :=
  mkSession (roleRef s) (connected s) v (gamePhaseRef s) (countdown s)
    (countdownTimerRef s) (ballSpeed s) (ballSpeedRef s) (keysRef s) (gameLoopRef s)
    (hostFaceImageRef s) (guestFaceImageRef s) (gameStateRef s) (dataChannelRef s)
    (peerConnectionRef s) (spritesRef s) (timeouts s) (frames s) (nextHandle s)
    (outbox s).

Definition set_gamePhaseRef (v : GamePhase) (s : Session) : Session :=
  mkSession (roleRef s) (connected s) (scoresRef s) v (countdown s)
    (countdownTimerRef s) (ballSpeed s) (ballSpeedRef s) (keysRef s) (gameLoopRef s)
    (hostFaceImageRef s) (guestFaceImageRef s) (gameStateRef s) (dataChannelRef s)
    (peerConnectionRef s) (spritesRef s) (timeouts s) (frames s) (nextHandle s)
    (outbox s).

Definition set_countdown (v : JSValue) (s : Session) : Session :=
  mkSession (roleRef s) (connected s) (scoresRef s) (gamePhaseRef s) v
    (countdownTimerRef s) (ballSpeed s) (ballSpeedRef s) (keysRef s) (gameLoopRef s)
    (hostFaceImageRef s) (guestFaceImageRef s) (gameStateRef s) (dataChannelRef s)
    (peerConnectionRef s) (spritesRef s) (timeouts s) (frames s) (nextHandle s)
    (outbox s).

Definition set_ballSpeed (v : Q) (s : Session) : Session :=
  mkSession (roleRef s) (connected s) (scoresRef s) (gamePhaseRef s) (countdown s)
    (countdownTimerRef s) v (ballSpeedRef s) (keysRef s) (gameLoopRef s)
    (hostFaceImageRef s) (guestFaceImageRef s) (gameStateRef s) (dataChannelRef s)
    (peerConnectionRef s) (spritesRef s) (timeouts s) (frames s) (nextHandle s)
    (outbox s).

Definition set_ballSpeedRef (v : Q) (s : Session) : Session :=
  mkSession (roleRef s) (connected s) (scoresRef s) (gamePhaseRef s) (countdown s)
    (countdownTimerRef s) (ballSpeed s) v (keysRef s) (gameLoopRef s)
    (hostFaceImageRef s) (guestFaceImageRef s) (gameStateRef s) (dataChannelRef s)
    (peerConnectionRef s) (spritesRef s) (timeouts s) (frames s) (nextHandle s)
    (outbox s).

Definition set_keysRef (v : gset string) (s : Session) : Session :=
  mkSession (roleRef s) (connected s) (scoresRef s) (gamePhaseRef s) (countdown s)
    (countdownTimerRef s) (ballSpeed s) (ballSpeedRef s) v (gameLoopRef s)
    (hostFaceImageRef s) (guestFaceImageRef s) (gameStateRef s) (dataChannelRef s)
    (peerConnectionRef s) (spritesRef s) (timeouts s) (frames s) (nextHandle s)
    (outbox s).

Definition set_hostFaceImageRef (v : JSValue) (s : Session) : Session :=
  mkSession (roleRef s) (connected s) (scoresRef s) (gamePhaseRef s) (countdown s)
    (countdownTimerRef s) (ballSpeed s) (ballSpeedRef s) (keysRef s) (gameLoopRef s) v
    (guestFaceImageRef s) (gameStateRef s) (dataChannelRef s) (peerConnectionRef s)
    (spritesRef s) (timeouts s) (frames s) (nextHandle s) (outbox s).

Definition set_guestFaceImageRef (v : JSValue) (s : Session) : Session :=
  mkSession (roleRef s) (connected s) (scoresRef s) (gamePhaseRef s) (countdown s)
    (countdownTimerRef s) (ballSpeed s) (ballSpeedRef s) (keysRef s) (gameLoopRef s)
    (hostFaceImageRef s) v (gameStateRef s) (dataChannelRef s) (peerConnectionRef s)
    (spritesRef s) (timeouts s) (frames s) (nextHandle s) (outbox s).

Definition set_gameStateRef (v : JSValue) (s : Session) : Session :=
  mkSession (roleRef s) (connected s) (scoresRef s) (gamePhaseRef s) (countdown s)
    (countdownTimerRef s) (ballSpeed s) (ballSpeedRef s) (keysRef s) (gameLoopRef s)
    (hostFaceImageRef s) (guestFaceImageRef s) v (dataChannelRef s)
    (peerConnectionRef s) (spritesRef s) (timeouts s) (frames s) (nextHandle s)
    (outbox s).

Definition set_dataChannelRef (v : option ReadyState) (s : Session) : Session :=
  mkSession (roleRef s) (connected s) (scoresRef s) (gamePhaseRef s) (countdown s)
    (countdownTimerRef s) (ballSpeed s) (ballSpeedRef s) (keysRef s) (gameLoopRef s)
    (hostFaceImageRef s) (guestFaceImageRef s) (gameStateRef s) v
    (peerConnectionRef s) (spritesRef s) (timeouts s) (frames s) (nextHandle s)
    (outbox s).

Definition set_peerConnectionRef (v : option ReadyState) (s : Session) : Session :=
  mkSession (roleRef s) (connected s) (scoresRef s) (gamePhaseRef s) (countdown s)
    (countdownTimerRef s) (ballSpeed s) (ballSpeedRef s) (keysRef s) (gameLoopRef s)
    (hostFaceImageRef s) (guestFaceImageRef s) (gameStateRef s) (dataChannelRef s) v
    (spritesRef s) (timeouts s) (frames s) (nextHandle s) (outbox s).

Definition set_spritesRef (v : bool) (s : Session) : Session :=
  mkSession (roleRef s) (connected s) (scoresRef s) (gamePhaseRef s) (countdown s)
    (countdownTimerRef s) (ballSpeed s) (ballSpeedRef s) (keysRef s) (gameLoopRef s)
    (hostFaceImageRef s) (guestFaceImageRef s) (gameStateRef s) (dataChannelRef s)
    (peerConnectionRef s) v (timeouts s) (frames s) (nextHandle s) (outbox s).

Definition set_outbox (v : list JSValue) (s : Session) : Session :=
  mkSession (roleRef s) (connected s) (scoresRef s) (gamePhaseRef s) (countdown s)
    (countdownTimerRef s) (ballSpeed s) (ballSpeedRef s) (keysRef s) (gameLoopRef s)
    (hostFaceImageRef s) (guestFaceImageRef s) (gameStateRef s) (dataChannelRef s)
    (peerConnectionRef s) (spritesRef s) (timeouts s) (frames s) (nextHandle s) v.

(** [countdownTimerRef.current = window.setTimeout(() => tick(v), 1000)] *)
Definition setTimeout_tick (v : Z) (s : Session) : Session :=
  let h := nextHandle s in
  mkSession (roleRef s) (connected s) (scoresRef s) (gamePhaseRef s) (countdown s)
    (Some h) (ballSpeed s) (ballSpeedRef s) (keysRef s) (gameLoopRef s)
    (hostFaceImageRef s) (guestFaceImageRef s) (gameStateRef s) (dataChannelRef s)
    (peerConnectionRef s) (spritesRef s) (<[h := v]> (timeouts s)) (frames s)
    (Pos.succ h) (outbox s).

(** [clearTimeout(h)] *)
Definition clearTimeout (h : positive) (s : Session) : Session :=
  mkSession (roleRef s) (connected s) (scoresRef s) (gamePhaseRef s) (countdown s)
    (countdownTimerRef s) (ballSpeed s) (ballSpeedRef s) (keysRef s) (gameLoopRef s)
    (hostFaceImageRef s) (guestFaceImageRef s) (gameStateRef s) (dataChannelRef s)
    (peerConnectionRef s) (spritesRef s) (delete h (timeouts s)) (frames s)
    (nextHandle s) (outbox s).

(** [gameLoopRef.current = requestAnimationFrame(updateGame)] *)
Definition requestAnimationFrame_updateGame (s : Session) : Session :=
  let h := nextHandle s in
  mkSession (roleRef s) (connected s) (scoresRef s) (gamePhaseRef s) (countdown s)
    (countdownTimerRef s) (ballSpeed s) (ballSpeedRef s) (keysRef s) (Some h)
    (hostFaceImageRef s) (guestFaceImageRef s) (gameStateRef s) (dataChannelRef s)
    (peerConnectionRef s) (spritesRef s) (timeouts s) ({[h]} ∪ frames s) (Pos.succ h)
    (outbox s).

(** [cancelAnimationFrame(h)], and a frame that fires is no longer pending *)
Definition cancelAnimationFrame (h : positive) (s : Session) : Session :=
  mkSession (roleRef s) (connected s) (scoresRef s) (gamePhaseRef s) (countdown s)
    (countdownTimerRef s) (ballSpeed s) (ballSpeedRef s) (keysRef s) (gameLoopRef s)
    (hostFaceImageRef s) (guestFaceImageRef s) (gameStateRef s) (dataChannelRef s)
    (peerConnectionRef s) (spritesRef s) (timeouts s) (frames s ∖ {[h]})
    (nextHandle s) (outbox s).


(** The component as it is mounted. *)
Definition initial_session : Session :=
  mkSession NoRole false (num 0, num 0) Idle (num 3) None DEFAULT_BALL_SPEED
    DEFAULT_BALL_SPEED ∅ None VNull VNull (to_js (fresh_state DEFAULT_BALL_SPEED))
    None None true ∅ ∅ 1%positive [].

(** What a handler leaves behind. *)
Inductive Outcome : Type :=
| Done (s : Session)
| Threw (e : JSError) (s : Session).  (* the session when the exception escapes *)

Definition and_then (o : Outcome) (k : Session -> Outcome) : Outcome :=
  match o with
  | Done s => k s
  | other => other
  end.

(** The session a handler leaves behind, whether it returned or threw. *)
Definition session_after (o : Outcome) : Session :=
  match o with
  | Done s => s
  | Threw _ s => s
  end.

(** *** Helpers of the component *)

Definition nullish (v : JSValue) : bool :=
  match v with
  | VUndefined | VNull => true
  | _ => false
  end.

Definition field (v : JSValue) (k : string) : JSValue :=
  match v with
  | VObj f => lookup_field k f
  | _ => VUndefined
  end.

Definition with_ball (b : Ball) (g : GameState) : GameState :=
  mkGameState b (paddle1Y g) (paddle2Y g) (score1 g) (score2 g).

Definition with_paddle1Y (v : Q) (g : GameState) : GameState :=
  mkGameState (ball g) v (paddle2Y g) (score1 g) (score2 g).

Definition with_paddle2Y (v : Q) (g : GameState) : GameState :=
  mkGameState (ball g) (paddle1Y g) v (score1 g) (score2 g).

Definition with_score1 (v : Q) (g : GameState) : GameState :=
  mkGameState (ball g) (paddle1Y g) (paddle2Y g) v (score2 g).

Definition with_score2 (v : Q) (g : GameState) : GameState :=
  mkGameState (ball g) (paddle1Y g) (paddle2Y g) (score1 g) v.

(** [resetBall(direction)], [r] being what [Math.random()] gives. *)
Definition resetBall (direction : Q) (r : Q) (speed : Q) (g : GameState) : GameState :=
  with_ball
    (mkBall (CANVAS_WIDTH / 2) (CANVAS_HEIGHT / 2) (direction * speed)
            ((speed / 2) * (if Qlt_bool (1 # 2) r then 1 else -1)))
    g.

Definition resetState (s : Session) : Session :=
  let s := set_gameStateRef (to_js (fresh_state (ballSpeedRef s))) s in
  let s := set_scoresRef (num 0, num 0) s in
  set_countdown (num 3) s.

(** [if (dataChannelRef.current?.readyState === "open") ... send(...)] *)
Definition send_if_open (msg : JSValue) (s : Session) : Session :=
  match dataChannelRef s with
  | Some Open => set_outbox (outbox s ++ [msg]) s
  | _ => s
  end.

Definition msg_gameState (state : JSValue) : JSValue :=
  VObj [("type"%string, VStr "gameState"); ("state"%string, state)].

Definition msg_input (direction : string) : JSValue :=
  VObj [("type"%string, VStr "input"); ("direction"%string, VStr direction)].

Definition msg_countdown (value : Z) : JSValue :=
  VObj [("type"%string, VStr "phase"); ("phase"%string, VStr "countdown");
        ("countdown"%string, num value)].

Definition msg_playing : JSValue :=
  VObj [("type"%string, VStr "phase"); ("phase"%string, VStr "playing")].

Definition msg_settings (speed : Q) : JSValue :=
  VObj [("type"%string, VStr "settings"); ("ballSpeed"%string, VNum speed)].

Definition msg_face (type : string) (data : JSValue) : JSValue :=
  VObj [("type"%string, VStr type); ("data"%string, data)].

Definition broadcastSettings (speed : Q) (s : Session) : Session :=
  send_if_open (msg_settings speed) s.

(** *** The countdown *)

(** [tick] inside [startCountdown] *)
Definition tick (value : Z) (s : Session) : Session :=
  let s := set_countdown (num value) s in
  let s := if role_eqb (roleRef s) Host then send_if_open (msg_countdown value) s else s in
  if (value <=? 0)%Z then
    let s := set_gamePhaseRef Playing s in
    if role_eqb (roleRef s) Host then send_if_open msg_playing s else s
  else setTimeout_tick (value - 1) s.

Definition startCountdown (startFrom : Z) (s : Session) : Session :=
  let s := match countdownTimerRef s with
           | Some h => clearTimeout h s
           | None => s
           end in
  let s := set_countdown (num startFrom) s in
  let s := set_gamePhaseRef Countdown s in
  tick startFrom s.

(** *** The channel *)

(** [channel.send(...)] inside [onopen], where the channel is open. *)
Definition send (msg : JSValue) (s : Session) : Session :=
  set_outbox (outbox s ++ [msg]) s.

Definition onopen (s : Session) : Session :=
  let s := set_connected true s in
  let s := set_gamePhaseRef Lobby s in
  if role_eqb (roleRef s) Host then
    let s := if truthy (hostFaceImageRef s)
             then send (msg_face "hostFace" (hostFaceImageRef s)) s else s in
    let s := send (msg_settings (ballSpeedRef s)) s in
    startCountdown 3 s
  else if truthy (guestFaceImageRef s)
  then send (msg_face "guestFace" (guestFaceImageRef s)) s
  else s.

Definition onclose (s : Session) : Session :=
  set_gamePhaseRef Idle (set_connected false s).

(** [channel.onmessage] after [JSON.parse].  In the input branch the
    store is read through its typed view: the host's store is written by
    [resetState] and by the typed code only.  (On a store without a view
    JavaScript would go on with [undefined]; the model stops there.) *)
Definition onmessage_parsed (message : JSValue) (s : Session) : Outcome :=
  match get_prop message "type" with
  | Throw e => Threw e s
  | Ret type =>
      if is_str type "gameState" && role_eqb (roleRef s) Guest then
        let state := field message "state" in
        let s := set_gameStateRef state s in
        match get_prop state "score1", get_prop state "score2" with
        | Ret score1, Ret score2 =>
            if negb (strict_eq score1 (fst (scoresRef s)))
               || negb (strict_eq score2 (snd (scoresRef s)))
            then Done (set_scoresRef (score1, score2) s)
            else Done s
        | Throw e, _ => Threw e s
        | _, Throw e => Threw e s
        end
      else if is_str type "input" && role_eqb (roleRef s) Host then
        match of_js (gameStateRef s) with
        | None => Threw TypeError s
        | Some state =>
            let paddleY := paddle2Y state in
            if is_str (field message "direction") "up" then
              Done (set_gameStateRef
                      (to_js (with_paddle2Y (Math_max 0 (paddleY - PADDLE_SPEED)) state)) s)
            else if is_str (field message "direction") "down" then
              Done (set_gameStateRef
                      (to_js (with_paddle2Y
                                (Math_min (CANVAS_HEIGHT - PADDLE_HEIGHT)
                                          (paddleY + PADDLE_SPEED)) state)) s)
            else Done s
        end
      else if is_str type "hostFace" then
        Done (set_hostFaceImageRef (field message "data") s)
      else if is_str type "guestFace" then
        Done (set_guestFaceImageRef (field message "data") s)
      else if is_str type "phase" then
        if is_str (field message "phase") "countdown" then
          let s := set_gamePhaseRef Countdown s in
          Done (set_countdown (nullish_or (field message "countdown") (num 3)) s)
        else if is_str (field message "phase") "playing" then
          Done (set_gamePhaseRef Playing s)
        else Done s
      else if is_str type "settings" && is_number (field message "ballSpeed") then
        match field message "ballSpeed" with
        | VNum v => Done (set_ballSpeedRef v (set_ballSpeed v s))
        | _ => Done s   (* [NaN], which [JSON.parse] never gives *)
        end
      else Done s
  end.

(** [channel.onmessage]: [JSON.parse(event.data)], then the above. *)
Definition onmessage (Str : Type) (JSON_parse : Str -> Result JSValue)
           (data : Str) (s : Session) : Outcome :=
  match JSON_parse data with
  | Throw e => Threw e s
  | Ret message => onmessage_parsed message s
  end.
Arguments onmessage {Str} JSON_parse data s.

(** [setupDataChannel(channel)]: the handlers above are installed. *)
Definition setupDataChannel (readyState : ReadyState) (s : Session) : Session :=
  set_dataChannelRef (Some readyState) s.

(** [createGame] up to its first [await]. *)
Definition createGame (s : Session) : Session :=
  let s := set_roleRef Host s in
  let s := set_gamePhaseRef Lobby s in
  let s := set_peerConnectionRef (Some Connecting) s in
  setupDataChannel Connecting s.

(** [handleIncomingOffer] up to its first [await]. *)
Definition handleIncomingOffer (s : Session) : Session :=
  let s := set_roleRef Guest s in
  let s := set_gamePhaseRef Lobby s in
  set_peerConnectionRef (Some Connecting) s.

(** *** The frame loop *)

Definition pressed (keys : gset string) (k : string) : bool := bool_decide (k ∈ keys).

Definition up_pressed (keys : gset string) : bool :=
  pressed keys "ArrowUp" || pressed keys "w".

Definition down_pressed (keys : gset string) : bool :=
  pressed keys "ArrowDown" || pressed keys "s".

Definition move_paddle1 (keys : gset string) (state : GameState) : GameState :=
  let state :=
    if up_pressed keys
    then with_paddle1Y (Math_max 0 (paddle1Y state - PADDLE_SPEED)) state
    else state in
  if down_pressed keys
  then with_paddle1Y
         (Math_min (CANVAS_HEIGHT - PADDLE_HEIGHT) (paddle1Y state + PADDLE_SPEED)) state
  else state.

Definition move_ball (b : Ball) : Ball :=
  mkBall (x b + vx b) (y b + vy b) (vx b) (vy b).

Definition bounce_walls (b : Ball) : Ball :=
  if Qle_bool (y b) (BALL_SIZE / 2) || Qle_bool (CANVAS_HEIGHT - BALL_SIZE / 2) (y b)
  then mkBall (x b) (y b) (vx b) (vy b * -1)
  else b.

Definition hit_paddle1 (p1 : Q) (b : Ball) : Ball :=
  if Qle_bool (x b - BALL_SIZE / 2) (20 + PADDLE_WIDTH)
     && Qle_bool 20 (x b - BALL_SIZE / 2)
     && Qle_bool p1 (y b)
     && Qle_bool (y b) (p1 + PADDLE_HEIGHT)
     && Qlt_bool (vx b) 0
  then mkBall (20 + PADDLE_WIDTH + BALL_SIZE / 2) (y b) (Math_abs (vx b)) (vy b)
  else b.

Definition hit_paddle2 (p2 : Q) (b : Ball) : Ball :=
  if Qle_bool (CANVAS_WIDTH - 20 - PADDLE_WIDTH) (x b + BALL_SIZE / 2)
     && Qle_bool (x b + BALL_SIZE / 2) (CANVAS_WIDTH - 20)
     && Qle_bool p2 (y b)
     && Qle_bool (y b) (p2 + PADDLE_HEIGHT)
     && Qlt_bool 0 (vx b)
  then mkBall (CANVAS_WIDTH - 20 - PADDLE_WIDTH - BALL_SIZE / 2) (y b)
              (- Math_abs (vx b)) (vy b)
  else b.

(** The block under [if (gamePhaseRef.current === "playing")], up to the
    scores; [r1] and [r2] are what the first and the second call of
    [Math.random()] give. *)
Definition physics (speed r1 r2 : Q) (state : GameState) : GameState :=
  let b := move_ball (ball state) in
  let b := bounce_walls b in
  let b := hit_paddle1 (paddle1Y state) b in
  let b := hit_paddle2 (paddle2Y state) b in
  let state := with_ball b state in
  let out_left := Qlt_bool (x (ball state)) 0 in
  let state :=
    if out_left
    then resetBall 1 r1 speed (with_score2 (score2 state + 1) state)
    else state in
  if Qlt_bool CANVAS_WIDTH (x (ball state))
  then resetBall (-1) (if out_left then r2 else r1) speed
                 (with_score1 (score1 state + 1) state)
  else state.

Definition sync_scores (state : GameState) (s : Session) : Session :=
  if negb (strict_eq (VNum (score1 state)) (fst (scoresRef s)))
     || negb (strict_eq (VNum (score2 state)) (snd (scoresRef s)))
  then set_scoresRef (VNum (score1 state), VNum (score2 state)) s
  else s.

(** The host's half of [updateGame], on the typed view of the store. *)
Definition host_frame (r1 r2 : Q) (state : GameState) (s : Session)
  : GameState * Session :=
  let state := move_paddle1 (keysRef s) state in
  if phase_eqb (gamePhaseRef s) Playing then
    let state := physics (ballSpeedRef s) r1 r2 state in
    (state, sync_scores state s)
  else (state, s).

Definition guest_frame (s : Session) : Session :=
  match dataChannelRef s with
  | Some Open =>
      let s := if up_pressed (keysRef s)
               then set_outbox (outbox s ++ [msg_input "up"]) s else s in
      if down_pressed (keysRef s)
      then set_outbox (outbox s ++ [msg_input "down"]) s else s
  | _ => s
  end.

(** [updateGame], first half: the branch for the role. *)
Definition simulate (r1 r2 : Q) (s : Session) : Outcome :=
  match roleRef s with
  | Host =>
      match of_js (gameStateRef s) with
      | None => Threw TypeError s
      | Some state =>
          let (state, s) := host_frame r1 r2 state s in
          let s := set_gameStateRef (to_js state) s in
          Done (send_if_open (msg_gameState (to_js state)) s)
      end
  | Guest => Done (guest_frame s)
  | NoRole => Done s
  end.

(** [updateGame], second half.  The sprites are not modelled, but the
    reads of [state.paddle1Y] and [state.ball.x] for them are: the first
    throws on a store that is [undefined] or [null], the second on a store
    without a [ball], before the next frame is requested.  The three sprite
    refs, which [initPixi] sets one after the other, are one flag. *)
Definition render_and_request (s : Session) : Outcome :=
  if spritesRef s
     && (nullish (gameStateRef s) || nullish (field (gameStateRef s) "ball"))
  then Threw TypeError s
  else Done (requestAnimationFrame_updateGame s).

Definition updateGame (r1 r2 : Q) (s : Session) : Outcome :=
  and_then (simulate r1 r2 s) render_and_request.

Definition stopGameLoop (s : Session) : Session :=
  match gameLoopRef s with
  | Some h => cancelAnimationFrame h s
  | None => s
  end.

(** [endSession].  The Pixi stage is destroyed and [initPixi] is started
    again; the sprite refs keep the sprites they had until it sets new
    ones ([PixiReady]). *)
Definition endSession (s : Session) : Session :=
  let s := stopGameLoop s in
  let s := set_connected false s in
  let s := set_roleRef NoRole s in
  let s := set_gamePhaseRef Idle s in
  let s := resetState s in
  let s := set_dataChannelRef None s in
  set_peerConnectionRef None s.

(** *** The keyboard and the slider *)

Definition paddle_key (key : string) : bool :=
  String.eqb key "ArrowUp" || String.eqb key "ArrowDown"
  || String.eqb key "w" || String.eqb key "s".

Definition handleKeyDown (key : string) (s : Session) : Session :=
  let s := if paddle_key key then set_keysRef ({[key]} ∪ keysRef s) s else s in
  if String.eqb key "Escape" then endSession s else s.

Definition handleKeyUp (key : string) (s : Session) : Session :=
  set_keysRef (keysRef s ∖ {[key]}) s.

(** *** Effects *)

(** The effect on [connected]: the cleanup of the last run, then the
    body. *)
Definition connectedEffect (s : Session) : Session :=
  let s := stopGameLoop s in
  if connected s then requestAnimationFrame_updateGame s else s.

(** The effect on [ballSpeed]. *)
Definition ballSpeedEffect (s : Session) : Session :=
  let s := set_ballSpeedRef (ballSpeed s) s in
  if role_eqb (roleRef s) Host then
    match of_js (gameStateRef s) with
    | None => s
    | Some state =>
        let b := ball state in
        let direction :=
          if Qeq_bool (Math_sign (vx b)) 0 then 1 else Math_sign (vx b) in
        let sign_vy := Math_sign (if Qeq_bool (vy b) 0 then 1 else vy b) in
        let b := mkBall (x b) (y b) (direction * ballSpeed s)
                        ((ballSpeed s / 2) * sign_vy) in
        let s := set_gameStateRef (to_js (with_ball b state)) s in
        broadcastSettings (ballSpeed s) s
    end
  else s.

(** The effects that React runs after an event, for the state that
    changed. *)
Definition effects (before after : Session) : Session :=
  let s := after in
  let s := if Bool.eqb (connected before) (connected after) then s
           else connectedEffect s in
  if Qeq_bool (ballSpeed before) (ballSpeed after) then s else ballSpeedEffect s.

(** *** Notions used to state the properties *)

(** A state whose paddles are on the playfield, whose ball is on the
    canvas and whose scores are not negative. *)
Definition legal (g : GameState) : Prop :=
  0 <= paddle1Y g <= CANVAS_HEIGHT - PADDLE_HEIGHT /\
  0 <= paddle2Y g <= CANVAS_HEIGHT - PADDLE_HEIGHT /\
  0 <= x (ball g) <= CANVAS_WIDTH /\
  0 <= y (ball g) <= CANVAS_HEIGHT /\
  0 <= score1 g /\ 0 <= score2 g.

(** The ball is between the two lines at which it bounces, and moves at
    most half its size per frame. *)
Definition in_band (b : Ball) : Prop :=
  BALL_SIZE / 2 <= y b <= CANVAS_HEIGHT - BALL_SIZE / 2 /\
  - (BALL_SIZE / 2) <= vy b <= BALL_SIZE / 2.

(** Every pending frame is the one [gameLoopRef] names. *)
Definition tracked (s : Session) : Prop :=
  forall h, h ∈ frames s -> gameLoopRef s = Some h.

(** The handler, once for each message in the order of arrival. *)
Definition receive_all (messages : list JSValue) (s : Session) : Session :=
  fold_left (fun s message => session_after (onmessage_parsed message s)) messages s.

(** Two sessions that differ at most in the countdown value, its timer,
    the timeouts, the next handle and the outbox. *)
Definition same_core (a b : Session) : Prop :=
  roleRef a = roleRef b /\ connected a = connected b /\
  gamePhaseRef a = gamePhaseRef b /\ scoresRef a = scoresRef b /\
  gameLoopRef a = gameLoopRef b /\ frames a = frames b /\
  gameStateRef a = gameStateRef b /\ dataChannelRef a = dataChannelRef b /\
  peerConnectionRef a = peerConnectionRef b /\ ballSpeed a = ballSpeed b.

(** *** The event loop *)

Inductive Event : Type :=
| CreateGame                           (* the button, shown while role is none *)
| IncomingOffer                        (* the effect that finds [?d=] in the URL *)
| DataChannel (readyState : ReadyState) (* guest: [pc.ondatachannel] *)
| ChannelOpen
| ChannelClose
| Message (parsed : Result JSValue)    (* the outcome of [JSON.parse(event.data)] *)
| TimeoutFires (h : positive)
| FrameFires (h : positive) (r1 r2 : Q)
| KeyDown (key : string)
| KeyUp (key : string)
| Slider (value : Q)
| PixiReady
| EndSession.

Definition dispatch (ev : Event) (s : Session) : Outcome :=
  match ev with
  | CreateGame =>
      if role_eqb (roleRef s) NoRole then Done (createGame s) else Done s
  | IncomingOffer =>
      if role_eqb (roleRef s) NoRole then Done (handleIncomingOffer s) else Done s
  | DataChannel readyState =>
      match roleRef s, peerConnectionRef s with
      | Guest, Some _ => Done (setupDataChannel readyState s)
      | _, _ => Done s
      end
  | ChannelOpen =>
      match dataChannelRef s with
      | Some _ => Done (onopen (set_dataChannelRef (Some Open) s))
      | None => Done s
      end
  | ChannelClose =>
      match dataChannelRef s with
      | Some _ => Done (onclose (set_dataChannelRef (Some Closed) s))
      | None => Done s
      end
  | Message parsed =>
      match dataChannelRef s with
      | Some Open =>
          match parsed with
          | Throw e => Threw e s
          | Ret message => onmessage_parsed message s
          end
      | _ => Done s
      end
  | TimeoutFires h =>
      match timeouts s !! h with
      | Some value => Done (tick value (clearTimeout h s))
      | None => Done s
      end
  | FrameFires h r1 r2 =>
      if bool_decide (h ∈ frames s)
      then updateGame r1 r2 (cancelAnimationFrame h s)
      else Done s
  | KeyDown key => Done (handleKeyDown key s)
  | KeyUp key => Done (handleKeyUp key s)
  | Slider value => Done (set_ballSpeed value s)
  | PixiReady => Done (set_spritesRef true s)
  | EndSession => Done (endSession s)
  end.

(** One turn of the loop: the handler, then the effects. *)
Definition step (ev : Event) (s : Session) : Session :=
  effects s (session_after (dispatch ev s)).

Fixpoint run (evs : list Event) (s : Session) : Session :=
  match evs with
  | [] => s
  | ev :: rest => run rest (step ev s)
  end.

(** The frame that [gameLoopRef] names runs. *)
Definition fire_frame (r1 r2 : Q) (s : Session) : Session :=
  match gameLoopRef s with
  | Some h => step (FrameFires h r1 r2) s
  | None => s
  end.

(** The countdown timer fires: the timeout that [countdownTimerRef] names
    runs its callback. *)
Definition fire_countdown (s : Session) : Session :=
  match countdownTimerRef s with
  | Some h => step (TimeoutFires h) s
  | None => s
  end.

(** *** Example sessions *)

(** A host whose channel has just opened: the countdown shows 3 and the
    frame loop runs. *)
Definition host_countdown_example : Session :=
  run [CreateGame; ChannelOpen] initial_session.

(** The same host after the three timeouts of the countdown. *)
Definition host_playing_example : Session :=
  Nat.iter 3 fire_countdown host_countdown_example.

(** A guest whose channel is open. *)
Definition guest_example : Session :=
  run [IncomingOffer; DataChannel Connecting; ChannelOpen] initial_session.

(** A snapshot with the two scores given. *)
Definition snapshot_with_scores (a b : Q) : JSValue :=
  to_js (with_score2 b (with_score1 a (fresh_state DEFAULT_BALL_SPEED))).

(** The ball is one pixel from the right edge and moves right. *)
Definition ball_leaving_state : GameState :=
  mkGameState (mkBall 799 100 5 (5 # 2)) 236 236 0 0.

Definition ball_leaving_example : Session :=
  set_gameStateRef (to_js ball_leaving_state) host_playing_example.



End Pong.

(** ** The grid-chase game: component [MultiSnake] *)

Module MultiSnake.
Import JS.

Definition COLS : Z := 24.
Definition ROWS : Z := 16.
Definition INITIAL_INTERVAL : Z := 150.

Inductive Direction : Type := Up | Down | Left | Right.

(** Grid coordinates: the host only ever computes integers. *)
Record Cell : Type := mkCell { x : Z; y : Z }.

Inductive GamePhase : Type := Idle | Lobby | Countdown | Playing | Over.

Inductive Role : Type := NoRole | Host | Guest.

Inductive ReadyState : Type := Connecting | Open | Closing | Closed.

(** [dir2] is whatever the guest sent last: the handler casts
    [message.direction] to [Direction] without a check. *)
Record GameState : Type := mkGameState {
  snake1 : list Cell;
  snake2 : list Cell;
  dir1 : Direction;
  dir2 : JSValue;
  food : Cell;
  score1 : Z;
  score2 : Z;
  phase : GamePhase
}.

Definition opposite (d : Direction) : Direction :=
  match d with
  | Up => Down
  | Down => Up
  | Left => Right
  | Right => Left
  end.

Definition cell_eqb (a b : Cell) : bool :=
  ((x a =? x b) && (y a =? y b))%Z.

Definition dir_eqb (a b : Direction) : bool :=
  match a, b with
  | Up, Up | Down, Down | Left, Left | Right, Right => true
  | _, _ => false
  end.

Definition phase_eqb (a b : GamePhase) : bool :=
  match a, b with
  | Idle, Idle | Lobby, Lobby | Countdown, Countdown
  | Playing, Playing | Over, Over => true
  | _, _ => false
  end.

Definition role_eqb (a b : Role) : bool :=
  match a, b with
  | NoRole, NoRole | Host, Host | Guest, Guest => true
  | _, _ => false
  end.

(** *** The wire form of the state *)

Definition dir_to_js (d : Direction) : JSValue :=
  VStr (match d with
        | Up => "up" | Down => "down" | Left => "left" | Right => "right"
        end).

Definition dir_of_js (v : JSValue) : option Direction :=
  match v with
  | VStr s =>
      if String.eqb s "up" then Some Up
      else if String.eqb s "down" then Some Down
      else if String.eqb s "left" then Some Left
      else if String.eqb s "right" then Some Right
      else None
  | _ => None
  end.

(** *** Reading a table at a value that came over the wire *)

(** [opposite] and [delta] are object literals with the four directions
    as keys, and they are read at [dir2Ref.current], which is whatever the
    guest sent.  The read turns the value into a property key and looks it
    up in the literal and then in [Object.prototype]. *)

(** The names [Object.prototype] has. *)
Definition prototype_names : list string :=
  ["constructor"; "toString"; "toLocaleString"; "valueOf"; "hasOwnProperty";
   "isPrototypeOf"; "propertyIsEnumerable"; "__proto__"; "__defineGetter__";
   "__defineSetter__"; "__lookupGetter__"; "__lookupSetter__"]%string.

Definition dir_of_key (k : string) : option Direction :=
  if String.eqb k "up" then Some Up
  else if String.eqb k "down" then Some Down
  else if String.eqb k "left" then Some Left
  else if String.eqb k "right" then Some Right
  else None.

(** The property key of a value.  A string is its own key.  An array is
    joined with commas, [null] and [undefined] items giving the empty
    string, so an array of one string has that string as its key.  An
    object gives ["[object Object]"], unless it has a [toString] of its
    own, which in a parsed value is not a function: then the conversion
    throws.  [Ret None] stands for a key that is neither a direction nor a
    name of [Object.prototype]: ["undefined"], ["null"], ["true"], a
    numeral, ["NaN"], ["[object Object]"], or a text with a comma. *)
Fixpoint property_key (v : JSValue) : Result (option string) :=
  match v with
  | VStr s => Ret (Some s)
  | VArr items =>
      match items with
      | [] => Ret (Some EmptyString)
      | [VUndefined] | [VNull] => Ret (Some EmptyString)
      | [item] => property_key item
      | _ =>
          (fix joined (l : list JSValue) : Result (option string) :=
             match l with
             | [] => Ret None
             | item :: rest =>
                 match property_key item with
                 | Throw e => Throw e
                 | Ret _ => joined rest
                 end
             end) items
      end
  | VObj fields =>
      if existsb (fun kv => String.eqb (fst kv) "toString") fields
      then Throw TypeError
      else Ret None
  | _ => Ret None
  end.

(** What [table[v]] gives. *)
Inductive Member (A : Type) : Type :=
| Own (a : A)   (* the entry of a direction *)
| Inherited     (* a member of [Object.prototype]: a function, or the prototype itself *)
| Absent        (* [undefined] *)
| KeyThrows.    (* TypeError: the value has no property key *)
Arguments Own {A} a.
Arguments Inherited {A}.
Arguments Absent {A}.
Arguments KeyThrows {A}.

Definition lookup_member {A : Type} (table : Direction -> A) (v : JSValue) : Member A :=
  match property_key v with
  | Throw _ => KeyThrows
  | Ret None => Absent
  | Ret (Some k) =>
      match dir_of_key k with
      | Some d => Own (table d)
      | None => if existsb (String.eqb k) prototype_names then Inherited else Absent
      end
  end.

(** [next && next !== opposite[current]]: a member of [Object.prototype]
    and [undefined] are not [===] to a truthy value that came over the
    wire or names a direction. *)
Definition may_turn (next current : JSValue) : Result bool :=
  if truthy next then
    match lookup_member opposite current with
    | Own o => Ret (negb (strict_eq next (dir_to_js o)))
    | Inherited | Absent => Ret true
    | KeyThrows => Throw TypeError
    end
  else Ret false.

Definition phase_to_js (p : GamePhase) : JSValue :=
  VStr (match p with
        | Idle => "idle" | Lobby => "lobby" | Countdown => "countdown"
        | Playing => "playing" | Over => "over"
        end).

Definition phase_of_js (v : JSValue) : option GamePhase :=
  match v with
  | VStr s =>
      if String.eqb s "idle" then Some Idle
      else if String.eqb s "lobby" then Some Lobby
      else if String.eqb s "countdown" then Some Countdown
      else if String.eqb s "playing" then Some Playing
      else if String.eqb s "over" then Some Over
      else None
  | _ => None
  end.

Definition int_of_js (v : JSValue) : option Z :=
  match v with
  | VNum q =>
      if (Qnum q mod Zpos (Qden q) =? 0)%Z then Some (Qnum q / Zpos (Qden q))%Z
      else None
  | _ => None
  end.

Definition cell_to_js (c : Cell) : JSValue :=
  VObj [("x"%string, num (x c)); ("y"%string, num (y c))].

Definition cell_of_js (v : JSValue) : option Cell :=
  match v with
  | VObj fields =>
      match int_of_js (lookup_field "x" fields), int_of_js (lookup_field "y" fields) with
      | Some cx, Some cy => Some (mkCell cx cy)
      | _, _ => None
      end
  | _ => None
  end.

Fixpoint cells_of_js (items : list JSValue) : option (list Cell) :=
  match items with
  | [] => Some []
  | v :: rest =>
      match cell_of_js v, cells_of_js rest with
      | Some c, Some cs => Some (c :: cs)
      | _, _ => None
      end
  end.

Definition snake_of_js (v : JSValue) : option (list Cell) :=
  match v with
  | VArr items => cells_of_js items
  | _ => None
  end.

Definition to_js (g : GameState) : JSValue :=
  VObj [("snake1"%string, VArr (map cell_to_js (snake1 g)));
        ("snake2"%string, VArr (map cell_to_js (snake2 g)));
        ("dir1"%string, dir_to_js (dir1 g));
        ("dir2"%string, dir2 g);
        ("food"%string, cell_to_js (food g));
        ("score1"%string, num (score1 g));
        ("score2"%string, num (score2 g));
        ("phase"%string, phase_to_js (phase g))].

(** The typed view of a store; [None] when the value is not a
    [GameState]. *)
Definition of_js (v : JSValue) : option GameState :=
  match v with
  | VObj f =>
      match snake_of_js (lookup_field "snake1" f), snake_of_js (lookup_field "snake2" f),
            dir_of_js (lookup_field "dir1" f), cell_of_js (lookup_field "food" f),
            int_of_js (lookup_field "score1" f), int_of_js (lookup_field "score2" f),
            phase_of_js (lookup_field "phase" f) with
      | Some s1, Some s2, Some d1, Some fd, Some sc1, Some sc2, Some ph =>
          Some (mkGameState s1 s2 d1 (lookup_field "dir2" f) fd sc1 sc2 ph)
      | _, _, _, _, _, _, _ => None
      end
  | _ => None
  end.

Definition initial_snake1 : list Cell := [mkCell 4 8; mkCell 3 8; mkCell 2 8].

Definition initial_snake2 : list Cell :=
  [mkCell (COLS - 5) 8; mkCell (COLS - 4) 8; mkCell (COLS - 3) 8].

(** The value [gameStateRef] is created with. *)
Definition initial_state : GameState :=
  mkGameState initial_snake1 initial_snake2 Right (dir_to_js Left)
              (mkCell 12 6) 0 0 Idle.

(** *** The session: refs, React state, and the platform's timers and
    channel *)

Record Session : Type := mkSession {
  roleRef : Role;                      (* [role] mirrors it at every write *)
  connected : bool;
  countdown : JSValue;
  countdownTimerRef : option positive;
  gamePhase : GamePhase;               (* React state *)
  gamePhaseRef : GamePhase;
  scores : JSValue * JSValue;
  intervalRef : option positive;
  speedRef : Z;
  dir1Ref : Direction;
  dir2Ref : JSValue;
  gameStateRef : JSValue;
  channelRef : option ReadyState;
  peerRef : option ReadyState;
  appRef : bool;                       (* the Pixi application exists *)
  timeouts : gmap positive Z;          (* pending [setTimeout(() => tick(v))] *)
  intervals : gset positive;           (* pending [setInterval(stepGame)] *)
  nextHandle : positive;               (* the handle the next timer gets *)
  outbox : list JSValue                (* what [channel.send] was given, oldest first *)
}.

Definition set_roleRef (v : Role) (s : Session) : Session :=
  mkSession v (connected s) (countdown s) (countdownTimerRef s) (gamePhase s)
    (gamePhaseRef s) (scores s) (intervalRef s) (speedRef s) (dir1Ref s) (dir2Ref s)
    (gameStateRef s) (channelRef s) (peerRef s) (appRef s) (timeouts s) (intervals s)
    (nextHandle s) (outbox s).

Definition set_connected (v : bool) (s : Session) : Session :=
  mkSession (roleRef s) v (countdown s) (countdownTimerRef s) (gamePhase s)
    (gamePhaseRef s) (scores s) (intervalRef s) (speedRef s) (dir1Ref s) (dir2Ref s)
    (gameStateRef s) (channelRef s) (peerRef s) (appRef s) (timeouts s) (intervals s)
    (nextHandle s) (outbox s).

Definition set_countdown (v : JSValue) (s : Session) : Session :=
  mkSession (roleRef s) (connected s) v (countdownTimerRef s) (gamePhase s)
    (gamePhaseRef s) (scores s) (intervalRef s) (speedRef s) (dir1Ref s) (dir2Ref s)
    (gameStateRef s) (channelRef s) (peerRef s) (appRef s) (timeouts s) (intervals s)
    (nextHandle s) (outbox s).

(** [setGamePhase(p); gamePhaseRef.current = p] *)
Definition set_phase (p : GamePhase) (s : Session) : Session :=
  mkSession (roleRef s) (connected s) (countdown s) (countdownTimerRef s) p
    p (scores s) (intervalRef s) (speedRef s) (dir1Ref s) (dir2Ref s)
    (gameStateRef s) (channelRef s) (peerRef s) (appRef s) (timeouts s) (intervals s)
    (nextHandle s) (outbox s).

(** [gamePhaseRef.current = p] alone *)
Definition set_gamePhaseRef (p : GamePhase) (s : Session) : Session :=
  mkSession (roleRef s) (connected s) (countdown s) (countdownTimerRef s) (gamePhase s)
    p (scores s) (intervalRef s) (speedRef s) (dir1Ref s) (dir2Ref s)
    (gameStateRef s) (channelRef s) (peerRef s) (appRef s) (timeouts s) (intervals s)
    (nextHandle s) (outbox s).

Definition set_scores (v : JSValue * JSValue) (s : Session) : Session :=
  mkSession (roleRef s) (connected s) (countdown s) (countdownTimerRef s) (gamePhase s)
    (gamePhaseRef s) v (intervalRef s) (speedRef s) (dir1Ref s) (dir2Ref s)
    (gameStateRef s) (channelRef s) (peerRef s) (appRef s) (timeouts s) (intervals s)
    (nextHandle s) (outbox s).

Definition set_speedRef (v : Z) (s : Session) : Session :=
  mkSession (roleRef s) (connected s) (countdown s) (countdownTimerRef s) (gamePhase s)
    (gamePhaseRef s) (scores s) (intervalRef s) v (dir1Ref s) (dir2Ref s)
    (gameStateRef s) (channelRef s) (peerRef s) (appRef s) (timeouts s) (intervals s)
    (nextHandle s) (outbox s).

Definition set_dir1Ref (v : Direction) (s : Session) : Session :=
  mkSession (roleRef s) (connected s) (countdown s) (countdownTimerRef s) (gamePhase s)
    (gamePhaseRef s) (scores s) (intervalRef s) (speedRef s) v (dir2Ref s)
    (gameStateRef s) (channelRef s) (peerRef s) (appRef s) (timeouts s) (intervals s)
    (nextHandle s) (outbox s).

Definition set_dir2Ref (v : JSValue) (s : Session) : Session :=
  mkSession (roleRef s) (connected s) (countdown s) (countdownTimerRef s) (gamePhase s)
    (gamePhaseRef s) (scores s) (intervalRef s) (speedRef s) (dir1Ref s) v
    (gameStateRef s) (channelRef s) (peerRef s) (appRef s) (timeouts s) (intervals s)
    (nextHandle s) (outbox s).

Definition set_gameStateRef (v : JSValue) (s : Session) : Session :=
  mkSession (roleRef s) (connected s) (countdown s) (countdownTimerRef s) (gamePhase s)
    (gamePhaseRef s) (scores s) (intervalRef s) (speedRef s) (dir1Ref s) (dir2Ref s)
    v (channelRef s) (peerRef s) (appRef s) (timeouts s) (intervals s)
    (nextHandle s) (outbox s).

Definition set_channelRef (v : option ReadyState) (s : Session) : Session :=
  mkSession (roleRef s) (connected s) (countdown s) (countdownTimerRef s) (gamePhase s)
    (gamePhaseRef s) (scores s) (intervalRef s) (speedRef s) (dir1Ref s) (dir2Ref s)
    (gameStateRef s) v (peerRef s) (appRef s) (timeouts s) (intervals s)
    (nextHandle s) (outbox s).

Definition set_peerRef (v : option ReadyState) (s : Session) : Session :=
  mkSession (roleRef s) (connected s) (countdown s) (countdownTimerRef s) (gamePhase s)
    (gamePhaseRef s) (scores s) (intervalRef s) (speedRef s) (dir1Ref s) (dir2Ref s)
    (gameStateRef s) (channelRef s) v (appRef s) (timeouts s) (intervals s)
    (nextHandle s) (outbox s).

Definition set_outbox (v : list JSValue) (s : Session) : Session :=
  mkSession (roleRef s) (connected s) (countdown s) (countdownTimerRef s) (gamePhase s)
    (gamePhaseRef s) (scores s) (intervalRef s) (speedRef s) (dir1Ref s) (dir2Ref s)
    (gameStateRef s) (channelRef s) (peerRef s) (appRef s) (timeouts s) (intervals s)
    (nextHandle s) v.

(** [countdownTimerRef.current = window.setTimeout(() => tick(v), 1000)] *)
Definition setTimeout_tick (v : Z) (s : Session) : Session :=
  let h := nextHandle s in
  mkSession (roleRef s) (connected s) (countdown s) (Some h) (gamePhase s)
    (gamePhaseRef s) (scores s) (intervalRef s) (speedRef s) (dir1Ref s) (dir2Ref s)
    (gameStateRef s) (channelRef s) (peerRef s) (appRef s) (<[h := v]> (timeouts s))
    (intervals s) (Pos.succ h) (outbox s).

(** [clearTimeout(h)] *)
Definition clearTimeout (h : positive) (s : Session) : Session :=
  mkSession (roleRef s) (connected s) (countdown s) (countdownTimerRef s) (gamePhase s)
    (gamePhaseRef s) (scores s) (intervalRef s) (speedRef s) (dir1Ref s) (dir2Ref s)
    (gameStateRef s) (channelRef s) (peerRef s) (appRef s) (delete h (timeouts s))
    (intervals s) (nextHandle s) (outbox s).

(** [intervalRef.current = window.setInterval(stepGame, speedRef.current)] *)
Definition setInterval_stepGame (s : Session) : Session :=
  let h := nextHandle s in
  mkSession (roleRef s) (connected s) (countdown s) (countdownTimerRef s) (gamePhase s)
    (gamePhaseRef s) (scores s) (Some h) (speedRef s) (dir1Ref s) (dir2Ref s)
    (gameStateRef s) (channelRef s) (peerRef s) (appRef s) (timeouts s)
    ({[h]} ∪ intervals s) (Pos.succ h) (outbox s).

(** The component as it is mounted. *)
Definition initial_session : Session :=
  mkSession NoRole false (num 3) None Idle Idle (num 0, num 0) None
    INITIAL_INTERVAL Right (dir_to_js Left) (to_js initial_state) None None true
    ∅ ∅ 1%positive [].

(** What a handler leaves behind.  A handler that returns is [Done],
    but for the one return after which the store has no typed view: the
    step that commits a head [{x: NaN, y: NaN}] is [DoneNaN].
    [Unfinished]: the model gives no result, because [placeFood] is still
    looping when the draws ran out, or because the step runs on a store
    that has no typed view. *)
Inductive Outcome : Type :=
| Done (s : Session)
| DoneNaN (s : Session)
| Threw (e : JSError) (s : Session)   (* the session when the exception escapes *)
| Unfinished.

Definition and_then (o : Outcome) (k : Session -> Outcome) : Outcome :=
  match o with
  | Done s => k s
  | other => other
  end.

(** *** Placing the food *)

(** [Math.floor(Math.random() * n)] when [Math.random()] gives [r], with
    the product taken exactly.  JavaScript rounds the product to a double
    before the floor, so for some [r] it gives the next integer (for [r]
    the double nearest to 1/6 and [n = 24] the code gives 4 and this
    gives 3); in both the result is at least 0 and below [n], which is all
    that is proved of it. *)
Definition random_below (r : Q) (n : Z) : Z := Qfloor (r * inject_Z n).

(** [occupied.has(`${c.x}-${c.y}`)]: for a candidate with coordinates that
    are not negative, the key is in the set exactly when the cell is in
    the list. *)
Definition occupies (snake : list Cell) (c : Cell) : bool :=
  existsb (fun d => cell_eqb d c) snake.

(** [placeFood]: two draws for the first candidate, two more for every
    round of the loop.  [None]: the loop has not ended when the draws are
    used up. *)
Fixpoint placeFood (draws : list Q) (snakeA snakeB : list Cell) : option Cell :=
  match draws with
  | rx :: ry :: rest =>
      let c := mkCell (random_below rx COLS) (random_below ry ROWS) in
      if occupies (snakeA ++ snakeB) c then placeFood rest snakeA snakeB
      else Some c
  | _ => None
  end.

(** *** Helpers of the component *)

Definition nullish (v : JSValue) : bool :=
  match v with
  | VUndefined | VNull => true
  | _ => false
  end.

Definition field (v : JSValue) (k : string) : JSValue :=
  match v with
  | VObj f => lookup_field k f
  | _ => VUndefined
  end.

Definition drawable_snake (v : JSValue) : bool :=
  match v with
  | VArr items => forallb (fun c => negb (nullish c)) items
  | _ => false
  end.

(** [drawState] reads [state.snake1.forEach], [cell.x], [state.food.x];
    what it draws is not modelled, what it throws is. *)
Definition drawState (state : JSValue) (s : Session) : Outcome :=
  if appRef s
     && negb (drawable_snake (field state "snake1")
              && drawable_snake (field state "snake2")
              && negb (nullish (field state "food")))
  then Threw TypeError s
  else Done s.

Definition stopInterval (s : Session) : Session :=
  match intervalRef s with
  | Some h =>
      mkSession (roleRef s) (connected s) (countdown s) (countdownTimerRef s)
        (gamePhase s) (gamePhaseRef s) (scores s) None (speedRef s) (dir1Ref s)
        (dir2Ref s) (gameStateRef s) (channelRef s) (peerRef s) (appRef s)
        (timeouts s) (intervals s ∖ {[h]}) (nextHandle s) (outbox s)
  | None => s
  end.

Definition updateScores (state : JSValue) (s : Session) : Outcome :=
  match get_prop state "score1", get_prop state "score2" with
  | Ret a, Ret b => Done (set_scores (a, b) s)
  | Throw e, _ => Threw e s
  | _, Throw e => Threw e s
  end.

Definition applyStateFromHost (state : JSValue) (s : Session) : Outcome :=
  let s := set_gameStateRef state s in
  and_then (updateScores state s) (drawState state).

(** [if (channelRef.current?.readyState === "open") channelRef.current.send(...)] *)
Definition send_if_open (msg : JSValue) (s : Session) : Session :=
  match channelRef s with
  | Some Open => set_outbox (outbox s ++ [msg]) s
  | _ => s
  end.

Definition msg_gameState (state : JSValue) : JSValue :=
  VObj [("type"%string, VStr "gameState"); ("state"%string, state)].

Definition msg_input (direction : JSValue) : JSValue :=
  VObj [("type"%string, VStr "input"); ("direction"%string, direction)].

Definition msg_countdown (value : Z) : JSValue :=
  VObj [("type"%string, VStr "phase"); ("phase"%string, VStr "countdown");
        ("countdown"%string, num value)].

Definition msg_playing : JSValue :=
  VObj [("type"%string, VStr "phase"); ("phase"%string, VStr "playing")].

Definition resetGameState (draws : list Q) (s : Session) : Outcome :=
  match placeFood draws initial_snake1 initial_snake2 with
  | None => Unfinished
  | Some food =>
      let state :=
        mkGameState initial_snake1 initial_snake2 Right (dir_to_js Left) food 0 0 Lobby in
      let s := set_gameStateRef (to_js state) s in
      let s := set_dir1Ref Right s in
      let s := set_dir2Ref (dir_to_js Left) s in
      let s := set_scores (num 0, num 0) s in
      let s := set_speedRef INITIAL_INTERVAL s in
      Done (set_phase Lobby s)
  end.

(** *** The simulation step *)

Definition delta (d : Direction) : Cell :=
  match d with
  | Up => mkCell 0 (-1)
  | Down => mkCell 0 1
  | Left => mkCell (-1) 0
  | Right => mkCell 1 0
  end.

(** [advance]; [None] is the TypeError of [snake[0].x] on an empty
    snake. *)
Definition next_cell (head : Cell) (dir : Direction) : Cell :=
  mkCell (x head + x (delta dir)) (y head + y (delta dir)).

Definition hits_wall (next : Cell) : bool :=
  ((x next <? 0) || (x next >=? COLS) || (y next <? 0) || (y next >=? ROWS))%Z.

Definition advance (snake : list Cell) (dir : Direction) : option (Cell * bool) :=
  match snake with
  | [] => None
  | head :: _ =>
      let next := next_cell head dir in
      let hitsWall := hits_wall next in
      Some (next, hitsWall)
  end.

(** The same for a direction that came over the wire.  [head.x] throws on
    an empty snake.  [delta[dir].x] throws when [delta[dir]] is
    [undefined]; when [delta[dir]] is a member of [Object.prototype] its
    [x] and [y] are [undefined], both sums are [NaN] and all four
    comparisons of [hitsWall] are false. *)
Inductive Advance : Type :=
| Moved (next : Cell) (hitsWall : bool)
| MovedNaN         (* [next] is [{x: NaN, y: NaN}], [hitsWall] is false *)
| AdvanceThrows.   (* TypeError *)

Definition advance_js (snake : list Cell) (dir : JSValue) : Advance :=
  match snake with
  | [] => AdvanceThrows
  | head :: _ =>
      match lookup_member delta dir with
      | Own d =>
          let next := mkCell (x head + x d) (y head + y d) in
          Moved next (hits_wall next)
      | Inherited => MovedNaN
      | Absent | KeyThrows => AdvanceThrows
      end
  end.

(** A cell without coordinates, in the store and as [JSON.stringify]
    writes it. *)
Definition nan_cell : JSValue := VObj [("x"%string, VNaN); ("y"%string, VNaN)].

Definition null_cell : JSValue := VObj [("x"%string, VNull); ("y"%string, VNull)].

(** The store of [g] with one more cell, [head], in front of the second
    body. *)
Definition to_js_headed (head : JSValue) (g : GameState) : JSValue :=
  VObj [("snake1"%string, VArr (map cell_to_js (snake1 g)));
        ("snake2"%string, VArr (head :: map cell_to_js (snake2 g)));
        ("dir1"%string, dir_to_js (dir1 g));
        ("dir2"%string, dir2 g);
        ("food"%string, cell_to_js (food g));
        ("score1"%string, num (score1 g));
        ("score2"%string, num (score2 g));
        ("phase"%string, phase_to_js (phase g))].

Definition with_dirs (d1 : Direction) (d2 : JSValue) (g : GameState) : GameState :=
  mkGameState (snake1 g) (snake2 g) d1 d2 (food g) (score1 g) (score2 g) (phase g).

Definition with_phase (p : GamePhase) (g : GameState) : GameState :=
  mkGameState (snake1 g) (snake2 g) (dir1 g) (dir2 g) (food g) (score1 g) (score2 g) p.

(** [const next = [head, ...snake]; if (!ate) next.pop()] *)
Definition grow_or_move (ate : bool) (next : Cell) (snake : list Cell) : list Cell :=
  if ate then next :: snake else removelast (next :: snake).

(** [anyCrash], from the proposed heads and the bodies as they are. *)
Definition anyCrash (state : GameState) (next1 next2 : Cell) (wall1 wall2 : bool) : bool :=
  let snake1HitsSelf := occupies (snake1 state) next1 in
  let snake2HitsSelf := occupies (snake2 state) next2 in
  let headCollision := cell_eqb next1 next2 in
  let snake1HitsOther := occupies (snake2 state) next1 in
  let snake2HitsOther := occupies (snake1 state) next2 in
  wall1 || wall2 || snake1HitsSelf || snake2HitsSelf || headCollision
  || snake1HitsOther || snake2HitsOther.

(** The crash branch of [stepGame]. *)
Definition crash (state : GameState) (s : Session) : Outcome :=
  let state := with_phase Over state in
  let s := set_gameStateRef (to_js state) s in
  let s := set_gamePhaseRef Over s in
  let s := stopInterval s in
  let s := send_if_open (msg_gameState (to_js state)) s in
  drawState (to_js state) s.

(** [stepGame].  The store is read through its typed view; the host's
    store is written by [resetGameState] and by this function only, so the
    view exists until a step commits a head without coordinates.  [dir1]
    and [dir2] are written to the store before the heads are computed.
    With a second head [{x: NaN, y: NaN}] every comparison with it is
    false: the second snake hits nothing and eats nothing, and the key
    ["NaN-NaN"] which the head gives to [placeFood] is the key of no
    candidate. *)
Definition stepGame (draws : list Q) (s : Session) : Outcome :=
  if negb (phase_eqb (gamePhaseRef s) Playing) then Done s
  else
    match of_js (gameStateRef s) with
    | None => Unfinished
    | Some state =>
        let dir1 := dir1Ref s in
        let dir2 := dir2Ref s in
        let state := with_dirs dir1 dir2 state in
        match advance (snake1 state) dir1 with
        | None => Threw TypeError (set_gameStateRef (to_js state) s)
        | Some (next1, wall1) =>
            match advance_js (snake2 state) dir2 with
            | AdvanceThrows => Threw TypeError (set_gameStateRef (to_js state) s)
            | Moved next2 wall2 =>
                if anyCrash state next1 next2 wall1 wall2 then crash state s
                else
                  let ate1 := cell_eqb next1 (food state) in
                  let ate2 := cell_eqb next2 (food state) in
                  let nextSnake1 := grow_or_move ate1 next1 (snake1 state) in
                  let nextSnake2 := grow_or_move ate2 next2 (snake2 state) in
                  let commit (food' : Cell) (s : Session) : Outcome :=
                    let state :=
                      mkGameState nextSnake1 nextSnake2 dir1 dir2 food'
                        (if ate1 then score1 state + 1 else score1 state)
                        (if ate2 then score2 state + 1 else score2 state)
                        (phase state) in
                    let s := set_gameStateRef (to_js state) s in
                    let s := send_if_open (msg_gameState (to_js state)) s in
                    drawState (to_js state) s in
                  if ate1 || ate2 then
                    match placeFood draws nextSnake1 nextSnake2 with
                    | None => Unfinished
                    | Some food' =>
                        let s :=
                          set_scores
                            (num (if ate1 then score1 state + 1 else score1 state),
                             num (if ate2 then score2 state + 1 else score2 state)) s in
                        commit food' s
                    end
                  else commit (food state) s
            | MovedNaN =>
                if wall1 || occupies (snake1 state) next1 || occupies (snake2 state) next1
                then crash state s
                else
                  let ate1 := cell_eqb next1 (food state) in
                  let nextSnake1 := grow_or_move ate1 next1 (snake1 state) in
                  let rest2 := removelast (snake2 state) in
                  let commit (food' : Cell) (s : Session) : Outcome :=
                    let state :=
                      mkGameState nextSnake1 rest2 dir1 dir2 food'
                        (if ate1 then score1 state + 1 else score1 state)
                        (score2 state) (phase state) in
                    let s := set_gameStateRef (to_js_headed nan_cell state) s in
                    let s := send_if_open (msg_gameState (to_js_headed null_cell state)) s in
                    match drawState (to_js_headed nan_cell state) s with
                    | Done s => DoneNaN s
                    | other => other
                    end in
                  if ate1 then
                    match placeFood draws nextSnake1 rest2 with
                    | None => Unfinished
                    | Some food' =>
                        let s :=
                          set_scores
                            (num (score1 state + 1), num (score2 state)) s in
                        commit food' s
                    end
                  else commit (food state) s
            end
        end
    end.

(** The state a crash leaves in the store, and the state a move commits,
    as [stepGame] builds them. *)
Definition crashed (s : Session) (state : GameState) : GameState :=
  with_phase Over (with_dirs (dir1Ref s) (dir2Ref s) state).

Definition moved (s : Session) (state : GameState) (next1 next2 : Cell) (food' : Cell)
  : GameState :=
  let ate1 := cell_eqb next1 (food state) in
  let ate2 := cell_eqb next2 (food state) in
  mkGameState (grow_or_move ate1 next1 (snake1 state))
              (grow_or_move ate2 next2 (snake2 state))
              (dir1Ref s) (dir2Ref s) food'
              (if ate1 then score1 state + 1 else score1 state)%Z
              (if ate2 then score2 state + 1 else score2 state)%Z
              (phase state).

(** What a step commits in the typed part of the store when the second
    head has no coordinates: the second body without its last cell. *)
Definition moved_nan (s : Session) (state : GameState) (next1 : Cell) (food' : Cell)
  : GameState :=
  let ate1 := cell_eqb next1 (food state) in
  mkGameState (grow_or_move ate1 next1 (snake1 state))
              (removelast (snake2 state))
              (dir1Ref s) (dir2Ref s) food'
              (if ate1 then score1 state + 1 else score1 state)%Z
              (score2 state)
              (phase state).

(** A cell of the playfield, and a state all of whose positions are on
    the playfield and whose scores are not negative. *)
Definition in_bounds (c : Cell) : Prop :=
  (0 <= x c < COLS)%Z /\ (0 <= y c < ROWS)%Z.

Definition legal (g : GameState) : Prop :=
  Forall in_bounds (snake1 g) /\ Forall in_bounds (snake2 g) /\ in_bounds (food g)
  /\ (0 <= score1 g)%Z /\ (0 <= score2 g)%Z.

(** What [Math.random()] can give. *)
Definition unit_draws (draws : list Q) : Prop :=
  Forall (fun r => 0 <= r /\ r < 1)%Q draws.

(** *** The countdown *)

(** [tick] inside [startCountdown] *)
Definition tick (value : Z) (s : Session) : Session :=
  let s := set_countdown (num value) s in
  let s := if role_eqb (roleRef s) Host then send_if_open (msg_countdown value) s else s in
  if (value <=? 0)%Z then
    let s := set_phase Playing s in
    let s := if role_eqb (roleRef s) Host
             then setInterval_stepGame (stopInterval s) else s in
    if role_eqb (roleRef s) Host then send_if_open msg_playing s else s
  else setTimeout_tick (value - 1) s.

Definition startCountdown (startFrom : Z) (s : Session) : Session :=
  let s := match countdownTimerRef s with
           | Some h => clearTimeout h s
           | None => s
           end in
  let s := set_countdown (num startFrom) s in
  let s := set_phase Countdown s in
  tick startFrom s.

(** *** The channel *)

Definition onopen (draws : list Q) (s : Session) : Outcome :=
  let s := set_connected true s in
  let s := set_phase Lobby s in
  if role_eqb (roleRef s) Host then
    and_then (resetGameState draws s) (fun s => Done (startCountdown 3 s))
  else Done s.

Definition onclose (s : Session) : Session :=
  stopInterval (set_connected false s).

(** [channel.onmessage] after [JSON.parse] *)
Definition onmessage_parsed (message : JSValue) (s : Session) : Outcome :=
  match get_prop message "type" with
  | Throw e => Threw e s
  | Ret type =>
      if is_str type "gameState" && role_eqb (roleRef s) Guest then
        applyStateFromHost (field message "state") s
      else if is_str type "input" && role_eqb (roleRef s) Host then
        let next := field message "direction" in
        match may_turn next (dir2Ref s) with
        | Throw e => Threw e s
        | Ret true => Done (set_dir2Ref next s)
        | Ret false => Done s
        end
      else if is_str type "phase" then
        if is_str (field message "phase") "countdown" then
          let s := set_phase Countdown s in
          Done (set_countdown (nullish_or (field message "countdown") (num 3)) s)
        else if is_str (field message "phase") "playing" then
          Done (set_phase Playing s)
        else Done s
      else Done s
  end.

(** [channel.onmessage]: [JSON.parse(event.data)], then the above. *)
Definition onmessage (Str : Type) (JSON_parse : Str -> Result JSValue)
           (data : Str) (s : Session) : Outcome :=
  match JSON_parse data with
  | Throw e => Threw e s
  | Ret message => onmessage_parsed message s
  end.
Arguments onmessage {Str} JSON_parse data s.

(** [setupChannel(channel)]: the handlers above are installed. *)
Definition setupChannel (readyState : ReadyState) (s : Session) : Session :=
  set_channelRef (Some readyState) s.

(** [createGame] up to its first [await]. *)
Definition createGame (draws : list Q) (s : Session) : Outcome :=
  let s := set_roleRef Host s in
  and_then (resetGameState draws s) (fun s =>
  let s := set_peerRef (Some Connecting) s in
  Done (setupChannel Connecting s)).

(** [handleIncomingOffer] up to its first [await]. *)
Definition handleIncomingOffer (s : Session) : Session :=
  let s := set_roleRef Guest s in
  set_peerRef (Some Connecting) s.

Definition endSession (s : Session) : Outcome :=
  let s := stopInterval s in
  let s := set_channelRef None s in
  let s := set_peerRef None s in
  let s := set_connected false s in
  let s := set_roleRef NoRole s in
  let s := set_phase Idle s in
  match set_prop (gameStateRef s) "phase" (phase_to_js Idle) with
  | Throw e => Threw e s
  | Ret store =>
      let s := set_gameStateRef store s in
      drawState store s
  end.

(** The session a handler leaves behind, whether it returned or threw. *)
Definition session_after_handler (o : Outcome) (before : Session) : Session :=
  match o with
  | Done s => s
  | DoneNaN s => s
  | Threw _ s => s
  | Unfinished => before
  end.

(** *** The keyboard *)

Definition host_key (key : string) : option Direction :=
  if String.eqb key "ArrowUp" then Some Up
  else if String.eqb key "ArrowDown" then Some Down
  else if String.eqb key "ArrowLeft" then Some Left
  else if String.eqb key "ArrowRight" then Some Right
  else None.

Definition guest_key (key : string) : option Direction :=
  if String.eqb key "w" || String.eqb key "W" then Some Up
  else if String.eqb key "s" || String.eqb key "S" then Some Down
  else if String.eqb key "a" || String.eqb key "A" then Some Left
  else if String.eqb key "d" || String.eqb key "D" then Some Right
  else None.

(** [channelRef.current?.send(...)]: no test of [readyState] here. *)
Definition send_unchecked (msg : JSValue) (s : Session) : Outcome :=
  match channelRef s with
  | None => Done s
  | Some Open => Done (set_outbox (outbox s ++ [msg]) s)
  | Some _ => Threw InvalidStateError s
  end.

Definition handleKeyDown (key : string) (s : Session) : Outcome :=
  if String.eqb key "Escape" then endSession s
  else
    let s :=
      if role_eqb (roleRef s) Host then
        match host_key key with
        | Some next =>
            if negb (dir_eqb next (opposite (dir1Ref s))) then set_dir1Ref next s else s
        | None => s
        end
      else s in
    if role_eqb (roleRef s) Guest then
      match guest_key key with
      | Some next =>
          match may_turn (dir_to_js next) (dir2Ref s) with
          | Throw e => Threw e s
          | Ret true => send_unchecked (msg_input (dir_to_js next)) s
          | Ret false => Done s
          end
      | None => Done s
      end
    else Done s.

(** The button under "Game Over". *)
Definition restart (draws : list Q) (s : Session) : Outcome :=
  and_then (resetGameState draws s) (fun s =>
  Done (if role_eqb (roleRef s) Host then startCountdown 3 s else s)).

(** The handler, once for each message in the order of arrival; a
    handler that throws ends, and the next message gets its own call. *)
Definition receive_all (messages : list JSValue) (s : Session) : Session :=
  fold_left (fun s message => session_after_handler (onmessage_parsed message s) s)
            messages s.

(** *** The event loop *)

Inductive Event : Type :=
| CreateGame (draws : list Q)          (* the button, shown while role is none *)
| IncomingOffer                        (* the effect that finds [?s=] in the URL *)
| DataChannel (readyState : ReadyState) (* guest: [pc.ondatachannel] *)
| ChannelOpen (draws : list Q)
| ChannelClose
| Message (parsed : Result JSValue)    (* the outcome of [JSON.parse(event.data)] *)
| TimeoutFires (h : positive)
| IntervalFires (h : positive) (draws : list Q)
| KeyDown (key : string)
| Restart (draws : list Q)             (* shown while [gamePhase] is over *)
| EndSession.

Definition dispatch (ev : Event) (s : Session) : Outcome :=
  match ev with
  | CreateGame draws =>
      if role_eqb (roleRef s) NoRole then createGame draws s else Done s
  | IncomingOffer =>
      if role_eqb (roleRef s) NoRole then Done (handleIncomingOffer s) else Done s
  | DataChannel readyState =>
      match roleRef s, peerRef s with
      | Guest, Some _ => Done (setupChannel readyState s)
      | _, _ => Done s
      end
  | ChannelOpen draws =>
      match channelRef s with
      | Some _ => onopen draws (set_channelRef (Some Open) s)
      | None => Done s
      end
  | ChannelClose =>
      match channelRef s with
      | Some _ => Done (onclose (set_channelRef (Some Closed) s))
      | None => Done s
      end
  | Message parsed =>
      match channelRef s with
      | Some Open =>
          match parsed with
          | Throw e => Threw e s
          | Ret message => onmessage_parsed message s
          end
      | _ => Done s
      end
  | TimeoutFires h =>
      match timeouts s !! h with
      | Some value => Done (tick value (clearTimeout h s))
      | None => Done s
      end
  | IntervalFires h draws =>
      if bool_decide (h ∈ intervals s) then stepGame draws s else Done s
  | KeyDown key => handleKeyDown key s
  | Restart draws =>
      if phase_eqb (gamePhase s) Over then restart draws s else Done s
  | EndSession => endSession s
  end.

(** The session an event leaves behind; the loop goes on from it whether
    the handler returned or threw. *)
Definition session_after (o : Outcome) (before : Session) : Session :=
  session_after_handler o before.

(** Every pending interval is the one [intervalRef] names. *)
Definition tracked (s : Session) : Prop :=
  forall h, h ∈ intervals s -> intervalRef s = Some h.

(** What a handler may do to the step timer: leave it, stop it, or stop
    it and start a fresh one. *)
Definition timer_step (s s' : Session) : Prop :=
  (intervalRef s' = intervalRef s /\ intervals s' = intervals s)
  \/ (intervalRef s' = intervalRef (stopInterval s) /\
      intervals s' = intervals (stopInterval s))
  \/ (exists h, intervalRef s' = Some h /\
                intervals s' = {[h]} ∪ intervals (stopInterval s)).

(** Two sessions that differ at most in the countdown value, its timer,
    the timeouts, the next handle and the outbox. *)
Definition same_core (a b : Session) : Prop :=
  roleRef a = roleRef b /\ connected a = connected b /\
  gamePhase a = gamePhase b /\ gamePhaseRef a = gamePhaseRef b /\
  scores a = scores b /\ intervalRef a = intervalRef b /\
  intervals a = intervals b /\ dir1Ref a = dir1Ref b /\ dir2Ref a = dir2Ref b /\
  gameStateRef a = gameStateRef b /\ channelRef a = channelRef b /\
  peerRef a = peerRef b.

(** The countdown timer fires: the timeout that [countdownTimerRef] names
    runs its callback. *)
Definition fire_countdown (s : Session) : Session :=
  match countdownTimerRef s with
  | Some h => session_after (dispatch (TimeoutFires h) s) s
  | None => s
  end.

Fixpoint run (evs : list Event) (s : Session) : Session :=
  match evs with
  | [] => s
  | ev :: rest => run rest (session_after (dispatch ev s) s)
  end.

(** A run in which the player never creates a game: it joins the games
    of others, or none. *)
Definition joins_only (evs : list Event) : Prop :=
  Forall (fun ev => match ev with
                    | CreateGame _ => False
                    | _ => True
                    end) evs.

(** The arrow key that commands a direction, and a direction at a right
    angle to a given one. *)
Definition arrow (d : Direction) : string :=
  match d with
  | Up => "ArrowUp"
  | Down => "ArrowDown"
  | Left => "ArrowLeft"
  | Right => "ArrowRight"
  end.

Definition quarter_turn (d : Direction) : Direction :=
  match d with
  | Up | Down => Left
  | Left | Right => Up
  end.

(** *** Example sessions *)

Definition example_draws : list Q := [1 # 2; 1 # 4; 1 # 3; 1 # 3].

(** A host whose channel has just opened: the countdown shows 3. *)
Definition host_countdown_example : Session :=
  run [CreateGame example_draws; ChannelOpen example_draws] initial_session.

(** The same host after the three timeouts of the countdown. *)
Definition host_playing_example : Session :=
  run [TimeoutFires 1; TimeoutFires 2; TimeoutFires 3] host_countdown_example.

(** A guest whose channel is open. *)
Definition guest_example : Session :=
  run [IncomingOffer; DataChannel Connecting; ChannelOpen []] initial_session.



(** The first body has the food on the cell in front of its head. *)
Definition food_ahead_state : GameState :=
  mkGameState initial_snake1 initial_snake2 Right (dir_to_js Left) (mkCell 5 8) 0 0 Lobby.

Definition food_ahead_example : Session :=
  set_gameStateRef (to_js food_ahead_state) host_playing_example.


(** A snapshot with the two scores given, and nothing else changed from
    the initial state. *)
Definition snapshot_with_scores (a b : Z) : JSValue :=
  to_js (mkGameState initial_snake1 initial_snake2 Right (dir_to_js Left)
                     (mkCell 12 6) a b Playing).

End MultiSnake.

(** * The single-player snake (SnakeGame.tsx)

    The component keeps the body, the applied direction, the food, the
    score, the period of the step timer and two flags in React state, and
    the pending direction and a copy of the food in refs.  Cells and
    directions are those of the chase game; [OFFSETS] is its [delta]. *)

Module SnakeGame.
Import JS.

#[local] Abbreviation Cell := MultiSnake.Cell.
#[local] Abbreviation mkCell := MultiSnake.mkCell.
#[local] Abbreviation Direction := MultiSnake.Direction.
#[local] Abbreviation Up := MultiSnake.Up.
#[local] Abbreviation Down := MultiSnake.Down.
#[local] Abbreviation Left := MultiSnake.Left.
#[local] Abbreviation Right := MultiSnake.Right.

Definition BOARD_SIZE : Z := 18.
Definition INITIAL_SPEED : Z := 160.

Definition OFFSETS (d : Direction) : Cell := MultiSnake.delta d.

Record State : Type := mkState {
  snake : list Cell;
  direction : Direction;           (* the direction the last step applied *)
  food : Cell;
  score : Z;
  speed : Z;
  running : bool;
  gameOver : bool;
  pendingDirection : Direction;    (* [pendingDirection.current] *)
  foodRef : Cell                   (* [foodRef.current] *)
}.

Definition set_snake (v : list Cell) (s : State) : State :=
  mkState v (direction s) (food s) (score s) (speed s) (running s) (gameOver s)
          (pendingDirection s) (foodRef s).
Definition set_direction (v : Direction) (s : State) : State :=
  mkState (snake s) v (food s) (score s) (speed s) (running s) (gameOver s)
          (pendingDirection s) (foodRef s).
Definition set_food (v : Cell) (s : State) : State :=
  mkState (snake s) (direction s) v (score s) (speed s) (running s) (gameOver s)
          (pendingDirection s) (foodRef s).
Definition set_score (v : Z) (s : State) : State :=
  mkState (snake s) (direction s) (food s) v (speed s) (running s) (gameOver s)
          (pendingDirection s) (foodRef s).
Definition set_speed (v : Z) (s : State) : State :=
  mkState (snake s) (direction s) (food s) (score s) v (running s) (gameOver s)
          (pendingDirection s) (foodRef s).
Definition set_running (v : bool) (s : State) : State :=
  mkState (snake s) (direction s) (food s) (score s) (speed s) v (gameOver s)
          (pendingDirection s) (foodRef s).
Definition set_gameOver (v : bool) (s : State) : State :=
  mkState (snake s) (direction s) (food s) (score s) (speed s) (running s) v
          (pendingDirection s) (foodRef s).
Definition set_pendingDirection (v : Direction) (s : State) : State :=
  mkState (snake s) (direction s) (food s) (score s) (speed s) (running s) (gameOver s)
          v (foodRef s).
Definition set_foodRef (v : Cell) (s : State) : State :=
  mkState (snake s) (direction s) (food s) (score s) (speed s) (running s) (gameOver s)
          (pendingDirection s) v.

(** The values of [useState] and [useRef]. *)
Definition initial_snake : list Cell := [mkCell 4 8; mkCell 3 8; mkCell 2 8].

Definition initial_state : State :=
  mkState initial_snake Right (mkCell 10 8) 0 INITIAL_SPEED false false Right (mkCell 10 8).

Inductive Outcome : Type :=
| Done (s : State)
| Threw (e : JSError) (s : State)
| Unfinished.                 (* [placeFoodFromSnake] still looping when the draws ran out *)

(** The effect on [snake]: [setDirection(pendingDirection.current)]. *)
Definition snakeEffect (s : State) : State :=
  set_direction (pendingDirection s) s.

(** [placeFoodFromSnake]: two draws for the first candidate, two more for
    every round of the loop; the effect on [food] writes [foodRef] again. *)
Fixpoint candidate (draws : list Q) (currentSnake : list Cell) : option Cell :=
  match draws with
  | rx :: ry :: rest =>
      let c := mkCell (MultiSnake.random_below rx BOARD_SIZE)
                      (MultiSnake.random_below ry BOARD_SIZE) in
      if MultiSnake.occupies currentSnake c then candidate rest currentSnake
      else Some c
  | _ => None
  end.

Definition placeFoodFromSnake (draws : list Q) (currentSnake : list Cell) (s : State)
  : Outcome :=
  match candidate draws currentSnake with
  | None => Unfinished
  | Some nextFood => Done (set_food nextFood (set_foodRef nextFood s))
  end.

(** [resetGame]; the new array is a new [snake], so its effect runs. *)
Definition resetGame (s : State) : State :=
  let s := set_snake initial_snake s in
  let s := set_direction Right s in
  let s := set_pendingDirection Right s in
  let s := set_food (mkCell 10 8) s in
  let s := set_foodRef (mkCell 10 8) s in
  let s := set_score 0 s in
  let s := set_speed INITIAL_SPEED s in
  let s := set_gameOver false s in
  snakeEffect s.

Definition off_board (c : Cell) : bool :=
  ((MultiSnake.x c <? 0) || (MultiSnake.x c >=? BOARD_SIZE)
   || (MultiSnake.y c <? 0) || (MultiSnake.y c >=? BOARD_SIZE))%Z.

Definition next_head (head : Cell) (d : Direction) : Cell :=
  mkCell (MultiSnake.x head + MultiSnake.x (OFFSETS d))
         (MultiSnake.y head + MultiSnake.y (OFFSETS d)).

(** [step]: the updater of [setSnake] with the setters it calls, and the
    effect on [snake] when the updater returns a new array.  An updater
    that returns [current] leaves [snake] as it is and runs no effect. *)
Definition step (draws : list Q) (s : State) : Outcome :=
  match snake s with
  | [] => Threw TypeError s
  | head :: _ =>
      let current := snake s in
      let next := next_head head (pendingDirection s) in
      if off_board next then Done (set_running false (set_gameOver true s))
      else if MultiSnake.occupies current next
      then Done (set_running false (set_gameOver true s))
      else
        let ate := MultiSnake.cell_eqb next (foodRef s) in
        if negb ate then
          Done (snakeEffect (set_snake (removelast (next :: current)) s))
        else
          let newSnake := next :: current in
          let s := set_score (score s + 10) s in
          match placeFoodFromSnake draws newSnake s with
          | Done s =>
              let s := set_speed (Z.max 80 (speed s - 6)) s in
              Done (snakeEffect (set_snake newSnake s))
          | o => o
          end
  end.

(** The handler of [keydown]. *)
Definition handler (key : string) (s : State) : State :=
  let s := if String.eqb key "ArrowUp" && negb (MultiSnake.dir_eqb (direction s) Down)
           then set_pendingDirection Up s else s in
  let s := if String.eqb key "ArrowDown" && negb (MultiSnake.dir_eqb (direction s) Up)
           then set_pendingDirection Down s else s in
  let s := if String.eqb key "ArrowLeft" && negb (MultiSnake.dir_eqb (direction s) Right)
           then set_pendingDirection Left s else s in
  let s := if String.eqb key "ArrowRight" && negb (MultiSnake.dir_eqb (direction s) Left)
           then set_pendingDirection Right s else s in
  let s := if String.eqb key " " then set_running (negb (running s)) s else s in
  if String.eqb key "r" then set_running true (resetGame s) else s.

(** [renderCell]: the cell that the index of a square stands for. *)
Definition cell_of_index (index : Z) : Cell :=
  mkCell (index mod BOARD_SIZE) (index / BOARD_SIZE).

(** *** The event loop *)

Inductive Event : Type :=
| Interval (draws : list Q)   (* the step timer, set while [running] *)
| KeyDown (key : string)
| ClickReset                  (* the button in the header *)
| ClickStart                  (* shown while neither [running] nor [gameOver] *)
| ClickPlayAgain.             (* shown while [gameOver] *)

Definition dispatch (ev : Event) (s : State) : Outcome :=
  match ev with
  | Interval draws => if running s then step draws s else Done s
  | KeyDown key => Done (handler key s)
  | ClickReset => Done (resetGame s)
  | ClickStart =>
      if negb (running s) && negb (gameOver s) then Done (set_running true s) else Done s
  | ClickPlayAgain =>
      if gameOver s then Done (set_running true (resetGame s)) else Done s
  end.

(** The state an event leaves; a food loop that the draws given do not
    end leaves no state, and the run stays where it was. *)
Definition state_after (o : Outcome) (before : State) : State :=
  match o with
  | Done s => s
  | Threw _ s => s
  | Unfinished => before
  end.

Fixpoint run (evs : list Event) (s : State) : State :=
  match evs with
  | [] => s
  | ev :: rest => run rest (state_after (dispatch ev s) s)
  end.

(** *** Notions used to state the properties *)

Definition on_board (c : Cell) : Prop :=
  (0 <= MultiSnake.x c < BOARD_SIZE)%Z /\ (0 <= MultiSnake.y c < BOARD_SIZE)%Z.

(** Body and food on the board, no cell twice in the body, the food on no
    cell of the body, and the ref of the food in step with the state. *)
Definition well_formed (s : State) : Prop :=
  List.Forall on_board (snake s) /\ List.NoDup (snake s) /\ on_board (food s)
  /\ ~ In (food s) (snake s) /\ foodRef s = food s.

(** Score and period of the timer as functions of the length. *)
Definition eaten (s : State) : Z := Z.of_nat (length (snake s)) - 3.

Definition tally (s : State) : Prop :=
  (0 <= eaten s)%Z /\ score s = (10 * eaten s)%Z
  /\ speed s = Z.max 80 (INITIAL_SPEED - 6 * eaten s).

(** The head is one cell from the neck in the applied direction, and the
    pending direction does not lead back onto the neck. *)
Definition heading (s : State) : Prop :=
  match snake s with
  | head :: neck :: _ =>
      head = next_head neck (direction s)
      /\ pendingDirection s <> MultiSnake.opposite (direction s)
      /\ next_head head (pendingDirection s) <> neck
  | _ => False
  end.

(** The draws of every step are results of [Math.random()]. *)
Definition unit_events (evs : list Event) : Prop :=
  Forall (fun ev => match ev with
                    | Interval draws => MultiSnake.unit_draws draws
                    | _ => True
                    end) evs.

(** *** An example run: start, six steps to the food, which is eaten at the
    sixth, and one more. *)
Definition example_events : list Event :=
  [ClickStart; Interval []; Interval []; Interval []; Interval []; Interval [];
   Interval [1 # 2; 1 # 4]; KeyDown "ArrowUp"; Interval []].

End SnakeGame.

(** * Properties *)

(** ** The signalling codec *)

Section CodecFacts.
Import JS Codec.

#[local] Ltac Zify.zify_post_hook ::= Z.to_euclidean_division_equations.

(** Induction over a list three elements at a time, the way base64 reads
    its input. *)
Lemma list_ind3 (A : Type) (P : list A -> Prop) :
  P [] -> (forall a, P [a]) -> (forall a b, P [a; b]) ->
  (forall a b c l, P l -> P (a :: b :: c :: l)) ->
  forall l, P l.
Proof.
  intros H0 H1 H2 H3.
  assert (H : forall l, P l /\ (forall a, P (a :: l)) /\ (forall a b, P (a :: b :: l))).
  { induction l as [|x l [IH0 [IH1 IH2]]].
    - repeat split; auto.
    - repeat split; auto. }
  intros l. apply H.
Qed.

Lemma table_checked : forallb table_ok (map N.of_nat (seq 0 64)) = true.
Proof. vm_compute. reflexivity. Qed.

Lemma table_ok_lt (n : N) : (n < 64)%N -> table_ok n = true.
Proof.
  intros Hn.
  pose proof table_checked as H.
  rewrite forallb_forall in H. apply H.
  apply in_map_iff. exists (N.to_nat n). split.
  - apply N2Nat.id.
  - apply in_seq. lia.
Qed.

Lemma b64_index_char (n : N) : (n < 64)%N -> b64_index (b64_char n) = Some n.
Proof.
  intros Hn. pose proof (table_ok_lt n Hn) as H. unfold table_ok in H.
  repeat (apply andb_prop in H; destruct H as [H ?]).
  destruct (b64_index (b64_char n)) as [m|]; [|discriminate].
  apply N.eqb_eq in H. congruence.
Qed.

Lemma sextet_char_plain (c : ascii) :
  sextet_char c ->
  Ascii.eqb c eq_char = false /\ Ascii.eqb c "-"%char = false /\
  Ascii.eqb c "_"%char = false /\ is_whitespace c = false.
Proof.
  intros [n [Hn ->]]. pose proof (table_ok_lt n Hn) as H. unfold table_ok in H.
  repeat (apply andb_prop in H; destruct H as [H ?]).
  repeat split; apply negb_true_iff; assumption.
Qed.

Lemma sextet_char_intro (n : N) : (n < 64)%N -> sextet_char (b64_char n).
Proof. intros Hn. exists n. auto. Qed.

Lemma b64_body_chars (s : Text) : Forall sextet_char (b64_body s).
Proof.
  induction s as [|a|a b|a b c l IH] using list_ind3; cbn [b64_body].
  - constructor.
  - pose proof (N_ascii_bounded a). unfold code.
    repeat (constructor; [apply sextet_char_intro; lia|]). constructor.
  - pose proof (N_ascii_bounded a). pose proof (N_ascii_bounded b). unfold code.
    repeat (constructor; [apply sextet_char_intro; lia|]). constructor.
  - pose proof (N_ascii_bounded a). pose proof (N_ascii_bounded b).
    pose proof (N_ascii_bounded c). unfold code.
    repeat (constructor; [apply sextet_char_intro; lia|]). exact IH.
Qed.

Lemma b64_body_length (s : Text) : (length (b64_body s) mod 4 <> 1)%nat.
Proof.
  induction s as [|a|a b|a b c l IH] using list_ind3; cbn [b64_body length].
  - cbn. lia.
  - cbn. lia.
  - cbn. lia.
  - lia.
Qed.

Lemma ascii_of_code (n : N) (a : ascii) : n = N_of_ascii a -> ascii_of_N n = a.
Proof. intros ->. apply ascii_N_embedding. Qed.

(** Decoding the body gives the bytes back. *)
Lemma b64_body_decodes (s : Text) :
  exists ns, sextets (b64_body s) = Some ns /\ bytes_of_sextets ns = s.
Proof.
  induction s as [|a|a b|a b c l [ns [Hs Hb]]] using list_ind3; cbn [b64_body].
  - exists []. split; reflexivity.
  - pose proof (N_ascii_bounded a) as Ha. unfold code.
    eexists. cbn [sextets]. rewrite !b64_index_char by lia. split; [reflexivity|].
    cbn [bytes_of_sextets]. f_equal. apply ascii_of_code. lia.
  - pose proof (N_ascii_bounded a) as Ha. pose proof (N_ascii_bounded b) as Hb.
    unfold code.
    eexists. cbn [sextets]. rewrite !b64_index_char by lia. split; [reflexivity|].
    cbn [bytes_of_sextets].
    f_equal; [apply ascii_of_code; lia|].
    f_equal. apply ascii_of_code. lia.
  - pose proof (N_ascii_bounded a) as Ha. pose proof (N_ascii_bounded b) as Hb'.
    pose proof (N_ascii_bounded c) as Hc. unfold code.
    eexists. cbn [sextets]. rewrite !b64_index_char by lia. rewrite Hs.
    split; [reflexivity|].
    cbn [bytes_of_sextets]. rewrite Hb.
    f_equal; [apply ascii_of_code; lia|].
    f_equal; [apply ascii_of_code; lia|].
    f_equal. apply ascii_of_code. lia.
Qed.

(** The padding loop ends within three rounds, on a text whose length is
    a multiple of four. *)
Lemma pad_done (l : Text) : (length (pad l) mod 4 = 0)%nat.
Proof.
  unfold pad. cbn [pad_loop].
  destruct (length l mod 4 =? 0)%nat eqn:E0; [apply Nat.eqb_eq; exact E0|].
  destruct (length (l ++ [eq_char]) mod 4 =? 0)%nat eqn:E1; [apply Nat.eqb_eq; exact E1|].
  destruct (length ((l ++ [eq_char]) ++ [eq_char]) mod 4 =? 0)%nat eqn:E2;
    [apply Nat.eqb_eq; exact E2|].
  apply Nat.eqb_neq in E0, E1, E2.
  rewrite !length_app in *. cbn [length] in *. lia.
Qed.

Lemma pad_spec (l : Text) :
  (length l mod 4 <> 1)%nat ->
  exists k, pad l = l ++ repeat eq_char k /\ (k <= 2)%nat /\
            ((length l + k) mod 4 = 0)%nat.
Proof.
  intros Hl. unfold pad. cbn [pad_loop].
  destruct (length l mod 4 =? 0)%nat eqn:E0.
  { apply Nat.eqb_eq in E0. exists 0%nat. cbn [repeat]. rewrite app_nil_r.
    split; [reflexivity|]. split; [lia|]. rewrite Nat.add_0_r. exact E0. }
  destruct (length (l ++ [eq_char]) mod 4 =? 0)%nat eqn:E1.
  { apply Nat.eqb_eq in E1. exists 1%nat. cbn [repeat].
    rewrite length_app in E1. cbn [length] in E1.
    split; [reflexivity|]. split; [lia|exact E1]. }
  destruct (length ((l ++ [eq_char]) ++ [eq_char]) mod 4 =? 0)%nat eqn:E2.
  { apply Nat.eqb_eq in E2. exists 2%nat. cbn [repeat].
    rewrite <- app_assoc. cbn [app].
    rewrite !length_app in E2. cbn [length] in E2.
    split; [reflexivity|]. split; [lia|].
    replace (length l + 2)%nat with (length l + 1 + 1)%nat by lia. exact E2. }
  apply Nat.eqb_neq in E0, E1, E2.
  rewrite !length_app in *. cbn [length] in *. lia.
Qed.

Lemma drop_leading_repeat (k : nat) (m : Text) :
  drop_leading eq_char (repeat eq_char k ++ m) = drop_leading eq_char m.
Proof. induction k as [|k IH]; [reflexivity|]. cbn. exact IH. Qed.

Lemma drop_leading_head (m : Text) :
  match m with [] => True | c :: _ => Ascii.eqb c eq_char = false end ->
  drop_leading eq_char m = m.
Proof. destruct m as [|c m]; [reflexivity|]. cbn. intros ->. reflexivity. Qed.

Lemma rev_head_in (m : Text) (P : ascii -> Prop) :
  Forall P m -> match rev m with [] => True | c :: _ => P c end.
Proof.
  intros H. destruct (rev m) as [|c r] eqn:E; [exact I|].
  rewrite List.Forall_forall in H. apply H. apply in_rev. rewrite E. left. reflexivity.
Qed.

Lemma repeat_rev (k : nat) : rev (repeat eq_char k) = repeat eq_char k.
Proof.
  induction k as [|k IH]; [reflexivity|].
  cbn [repeat rev]. rewrite IH. symmetry. apply repeat_cons.
Qed.

(** The run of padding is all that [strip_trailing_eq] takes off. *)
Lemma strip_trailing_eq_spec (m : Text) (k : nat) :
  no_eq m -> strip_trailing_eq (m ++ repeat eq_char k) = m.
Proof.
  intros Hm. unfold strip_trailing_eq.
  rewrite rev_app_distr, repeat_rev, drop_leading_repeat.
  rewrite drop_leading_head; [apply rev_involutive|].
  apply (rev_head_in m (fun c => Ascii.eqb c eq_char = false)). exact Hm.
Qed.

(** The decoder's step 2 takes off the padding that [pad] put on. *)
Lemma strip_padding_spec (m : Text) (k : nat) :
  no_eq m -> (k <= 2)%nat -> ((length m + k) mod 4 = 0)%nat ->
  (length m mod 4 <> 1)%nat ->
  strip_padding (m ++ repeat eq_char k) = m.
Proof.
  intros Hm Hk Hlen Hm1. unfold strip_padding.
  rewrite length_app, repeat_length, Hlen. cbn [Nat.eqb].
  rewrite rev_app_distr, repeat_rev.
  pose proof (rev_head_in m (fun c => Ascii.eqb c eq_char = false) Hm) as Hhd.
  destruct k as [|[|[|k]]]; [| | |lia]; cbn [repeat app].
  - rewrite app_nil_r.
    destruct (rev m) as [|e1 [|e2 rest]]; [reflexivity|reflexivity|].
    rewrite Hhd. reflexivity.
  - destruct (rev m) as [|e2 rest] eqn:E.
    + apply (f_equal (@rev ascii)) in E. rewrite rev_involutive in E. subst m.
      cbn in Hlen. lia.
    + cbn [Ascii.eqb eq_char]. change (Ascii.eqb eq_char eq_char) with true.
      cbn iota. rewrite Hhd. rewrite <- E. apply rev_involutive.
  - change (Ascii.eqb eq_char eq_char) with true. cbn iota.
    apply rev_involutive.
Qed.

Lemma encoder_replaces (l : Text) :
  replace_all "/"%char "_"%char (replace_all "+"%char "-"%char l) = map to_url l.
Proof. unfold replace_all. rewrite map_map. reflexivity. Qed.

Lemma decoder_replaces (l : Text) :
  replace_all "_"%char "/"%char (replace_all "-"%char "+"%char l) = map from_url l.
Proof. unfold replace_all. rewrite map_map. reflexivity. Qed.

Lemma from_to_url (c : ascii) : sextet_char c -> from_url (to_url c) = c.
Proof.
  intros Hc. destruct (sextet_char_plain c Hc) as [_ [Hm [Hu _]]].
  unfold to_url.
  destruct (Ascii.eqb c "+"%char) eqn:Ep.
  { apply Ascii.eqb_eq in Ep. subst c. reflexivity. }
  destruct (Ascii.eqb c "/"%char) eqn:Es.
  { apply Ascii.eqb_eq in Es. subst c. reflexivity. }
  unfold from_url. rewrite Hm, Hu. reflexivity.
Qed.

Lemma to_url_no_eq (c : ascii) : sextet_char c -> Ascii.eqb (to_url c) eq_char = false.
Proof.
  intros Hc. destruct (sextet_char_plain c Hc) as [He _].
  unfold to_url.
  destruct (Ascii.eqb c "+"%char); [reflexivity|].
  destruct (Ascii.eqb c "/"%char); [reflexivity|exact He].
Qed.

Lemma to_url_repeat (k : nat) : map to_url (repeat eq_char k) = repeat eq_char k.
Proof. induction k as [|k IH]; [reflexivity|]. cbn [repeat map]. rewrite IH. reflexivity. Qed.

(** The token of a binary string is its unpadded base64 body in the URL
    alphabet, and the decoder's first two steps rebuild [btoa]'s text. *)
Lemma url_layer_inverts (binary : Text) :
  pad (map from_url (strip_trailing_eq (map to_url (btoa binary)))) = btoa binary.
Proof.
  unfold btoa.
  destruct (pad_spec (b64_body binary) (b64_body_length binary)) as [k [Hpad _]].
  rewrite Hpad at 1. rewrite map_app, to_url_repeat.
  rewrite strip_trailing_eq_spec.
  - rewrite map_map. rewrite map_ext_in with (g := fun c => c).
    + rewrite map_id. reflexivity.
    + intros c Hc. apply from_to_url.
      pose proof (b64_body_chars binary) as H. rewrite List.Forall_forall in H. auto.
  - unfold no_eq. apply List.Forall_map.
    eapply List.Forall_impl; [|apply b64_body_chars]. apply to_url_no_eq.
Qed.

(** [atob] inverts [btoa]. *)
Lemma atob_btoa (binary : Text) : atob (btoa binary) = Ret binary.
Proof.
  unfold btoa.
  pose proof (b64_body_chars binary) as Hch.
  destruct (pad_spec (b64_body binary) (b64_body_length binary)) as [k [Hpad [Hk Hlen]]].
  rewrite Hpad. unfold atob.
  assert (Hne : no_eq (b64_body binary)).
  { eapply List.Forall_impl; [|exact Hch]. intros c Hc. apply (sextet_char_plain c Hc). }
  assert (Hws : forall c, In c (b64_body binary ++ repeat eq_char k) ->
                          negb (is_whitespace c) = true).
  { intros c Hc. apply in_app_or in Hc. destruct Hc as [Hc|Hc].
    - rewrite List.Forall_forall in Hch. destruct (sextet_char_plain c (Hch c Hc)) as [_ [_ [_ ->]]].
      reflexivity.
    - apply repeat_spec in Hc. subst c. reflexivity. }
  rewrite forallb_filter_id by (apply forallb_forall; exact Hws).
  rewrite strip_padding_spec by (auto using b64_body_length).
  destruct (Nat.eqb_spec (length (b64_body binary) mod 4) 1) as [E|_].
  { exfalso. exact (b64_body_length binary E). }
  destruct (b64_body_decodes binary) as [ns [-> ->]]. reflexivity.
Qed.

Lemma charCodes_fromCharCode (bytes : list byte) : charCodes (fromCharCode bytes) = bytes.
Proof.
  unfold charCodes, fromCharCode. rewrite map_map.
  rewrite map_ext with (g := fun b => b); [apply map_id|].
  intros b. apply byte_of_ascii_of_byte.
Qed.

End CodecFacts.

Section CodecRoundTrip.
Import JS Codec.
Variables Json Str : Type.
Variable JSON_stringify : Json -> Str.
Variable JSON_parse : Str -> Result Json.
Variable gzip : Str -> list byte.
Variable ungzip : list byte -> Result Str.

(** The token is the unpadded base64 body written in the URL alphabet. *)
Lemma encodeForURL_unfold (d : Json) :
  encodeForURL JSON_stringify gzip d =
  strip_trailing_eq (map to_url (btoa (fromCharCode (gzip (JSON_stringify d))))).
Proof. unfold encodeForURL. rewrite encoder_replaces. reflexivity. Qed.

(** C1. For every session description [d] that [JSON.parse] reads back
    from its [JSON.stringify] text, and whose text [pako.ungzip] recovers
    from [pako.gzip], decoding the encoded token returns [d]:
    [decodeFromURL (encodeForURL d) = d]. *)
Theorem decode_encode_round_trip (d : Json) :
  JSON_parse (JSON_stringify d) = Ret d ->
  ungzip (gzip (JSON_stringify d)) = Ret (JSON_stringify d) ->
  decodeFromURL JSON_parse ungzip (encodeForURL JSON_stringify gzip d) = Ret d.
Proof.
  intros Hjson Hgzip.
  rewrite encodeForURL_unfold. unfold decodeFromURL.
  rewrite decoder_replaces, url_layer_inverts, atob_btoa.
  cbn [bind]. rewrite charCodes_fromCharCode, Hgzip. cbn [bind]. exact Hjson.
Qed.

End CodecRoundTrip.

(** The codec run on an offer, with the stand-in platform. *)
Lemma decode_encode_round_trip_witness :
  Codec.decodeFromURL Codec.read_description Codec.store_ungzip
    (Codec.encodeForURL Codec.print_description Codec.store_gzip Codec.offer_example)
  = JS.Ret Codec.offer_example.
Proof.
  apply decode_encode_round_trip; vm_compute; reflexivity.
Defined.

(** Bytes whose base64 text has [+], [/] and padding: the token has none. *)
Example token_is_url_safe :
  Codec.strip_trailing_eq
    (Codec.replace_all "/"%char "_"%char
       (Codec.replace_all "+"%char "-"%char
          (Codec.btoa (Codec.fromCharCode [xfb; xff]))))
  = list_ascii_of_string "-_8".
Proof. vm_compute. reflexivity. Qed.

(** ** The paddle game *)

Section PongFacts.
Import JS Pong.
#[local] Open Scope Q_scope.

#[local] Ltac break_match :=
  match goal with
  | |- context [match ?x with _ => _ end] => destruct x eqn:?
  | |- context [if ?x then _ else _] => destruct x eqn:?
  end.

Lemma Qle_bool_false (a b : Q) : Qle_bool a b = false -> b < a.
Proof.
  intros H. apply Qnot_le_lt. intros Hle. apply Qle_bool_iff in Hle. congruence.
Qed.

Lemma Qlt_bool_true (a b : Q) : Qlt_bool a b = true -> a < b.
Proof. unfold Qlt_bool. intros H. apply negb_true_iff in H. apply Qle_bool_false, H. Qed.

Lemma Qlt_bool_false (a b : Q) : Qlt_bool a b = false -> b <= a.
Proof. unfold Qlt_bool. intros H. apply negb_false_iff in H. apply Qle_bool_iff, H. Qed.

(** Booleans of comparisons in the context become the comparisons. *)
#[local] Ltac reflect_cmp :=
  repeat match goal with
    | H : Qle_bool _ _ = true |- _ => apply Qle_bool_iff in H
    | H : Qle_bool _ _ = false |- _ => apply Qle_bool_false in H
    | H : Qlt_bool _ _ = true |- _ => apply Qlt_bool_true in H
    | H : Qlt_bool _ _ = false |- _ => apply Qlt_bool_false in H
    end.

(** [lra] does not read [a / 2]; it reads [a * (1 # 2)], which is the
    same term. *)
#[local] Ltac halve :=
  repeat match goal with
    | |- context [?a / 2] => change (a / 2) with (a * (1 # 2))
    | H : context [?a / 2] |- _ => change (a / 2) with (a * (1 # 2)) in H
    end.

#[local] Ltac unfold_constants :=
  unfold CANVAS_WIDTH, CANVAS_HEIGHT, PADDLE_WIDTH, PADDLE_HEIGHT, BALL_SIZE,
    PADDLE_SPEED in *; halve.

Lemma Math_max_spec (a b : Q) : a <= Math_max a b /\ b <= Math_max a b /\
                                (Math_max a b == a \/ Math_max a b == b).
Proof.
  unfold Math_max. destruct (Qle_bool a b) eqn:E; reflect_cmp; repeat split;
    try lra; first [left; reflexivity | right; reflexivity].
Qed.

Lemma Math_min_spec (a b : Q) : Math_min a b <= a /\ Math_min a b <= b /\
                                (Math_min a b == a \/ Math_min a b == b).
Proof.
  unfold Math_min. destruct (Qle_bool a b) eqn:E; reflect_cmp; repeat split;
    try lra; first [left; reflexivity | right; reflexivity].
Qed.

(** *** The wire form of a state reads back as the state *)

Lemma pong_of_to_js (g : GameState) : of_js (to_js g) = Some g.
Proof. destruct g as [[bx b_y bvx bvy] p1 p2 s1 s2]. reflexivity. Qed.

Lemma to_js_not_nullish (g : GameState) : nullish (to_js g) = false.
Proof. reflexivity. Qed.

(** *** The paddles *)

Lemma move_paddle1_spec (keys : gset string) (g : GameState) :
  let g' := move_paddle1 keys g in
  ball g' = ball g /\ paddle2Y g' = paddle2Y g /\
  score1 g' = score1 g /\ score2 g' = score2 g /\
  (0 <= paddle1Y g <= CANVAS_HEIGHT - PADDLE_HEIGHT ->
   0 <= paddle1Y g' <= CANVAS_HEIGHT - PADDLE_HEIGHT).
Proof.
  unfold move_paddle1.
  destruct (up_pressed keys), (down_pressed keys);
    cbn [with_paddle1Y ball paddle1Y paddle2Y score1 score2];
    repeat (split; [reflexivity|]); intros [H0 H1].
  - pose proof (Math_max_spec 0 (paddle1Y g - PADDLE_SPEED)) as [Ha [Hb Hc]].
    pose proof (Math_min_spec (CANVAS_HEIGHT - PADDLE_HEIGHT)
                  (Math_max 0 (paddle1Y g - PADDLE_SPEED) + PADDLE_SPEED)) as [Hd [He Hf]].
    unfold_constants. destruct Hf; lra.
  - pose proof (Math_max_spec 0 (paddle1Y g - PADDLE_SPEED)) as [Ha [Hb Hc]].
    unfold_constants. destruct Hc; lra.
  - pose proof (Math_min_spec (CANVAS_HEIGHT - PADDLE_HEIGHT)
                  (paddle1Y g + PADDLE_SPEED)) as [Hd [He Hf]].
    unfold_constants. destruct Hf; lra.
  - lra.
Qed.

(** *** The ball *)

(** Bouncing off a wall or a paddle leaves the height of the ball as the
    move made it. *)
Lemma bounces_keep_y (p1 p2 : Q) (b : Ball) :
  y (hit_paddle2 p2 (hit_paddle1 p1 (bounce_walls (move_ball b)))) = y b + vy b.
Proof.
  unfold hit_paddle2, hit_paddle1, bounce_walls, move_ball.
  repeat break_match; reflexivity.
Qed.

(** What the block under "playing" does to a state. *)
Lemma physics_spec (speed r1 r2 : Q) (g : GameState) :
  let g' := physics speed r1 r2 g in
  paddle1Y g' = paddle1Y g /\ paddle2Y g' = paddle2Y g /\
  (* the scores stay or go up by one *)
  (score1 g' == score1 g \/ score1 g' == score1 g + 1) /\
  (score2 g' == score2 g \/ score2 g' == score2 g + 1) /\
  (* a point resets the ball to the centre *)
  (~ (score1 g' == score1 g /\ score2 g' == score2 g) ->
   x (ball g') = CANVAS_WIDTH / 2 /\ y (ball g') = CANVAS_HEIGHT / 2 /\
   (vx (ball g') = 1 * speed \/ vx (ball g') = -1 * speed)) /\
  (* the ball is on the canvas from side to side *)
  0 <= x (ball g') <= CANVAS_WIDTH /\
  (* and from top to bottom when it was between the bounce lines *)
  (in_band (ball g) -> 0 <= y (ball g') <= CANVAS_HEIGHT).
Proof.
  unfold physics, in_band.
  pose proof (bounces_keep_y (paddle1Y g) (paddle2Y g) (ball g)) as Hy.
  set (b := hit_paddle2 _ (hit_paddle1 _ (bounce_walls (move_ball (ball g))))) in *.
  clearbody b. unfold resetBall.
  cbn [with_ball with_score1 with_score2 ball paddle1Y paddle2Y score1 score2 x y vx vy].
  repeat break_match;
    cbn [with_ball with_score1 with_score2 ball paddle1Y paddle2Y score1 score2 x y vx vy]
      in *;
    reflect_cmp; unfold_constants;
    (split; [reflexivity|]); (split; [reflexivity|]);
    (split; [first [left; lra | right; lra]|]);
    (split; [first [left; lra | right; lra]|]);
    (split; [first [intros _; split; [reflexivity|]; split; [reflexivity|];
                    first [left; reflexivity | right; reflexivity]
                   | intros Hn; exfalso; apply Hn; split; lra]|]);
    (split; [lra|]); rewrite ?Hy; intros [[? ?] [? ?]]; lra.
Qed.

(** *** One frame of the host *)

Lemma pong_updateGame_host (r1 r2 : Q) (s : Session) (state : GameState) :
  roleRef s = Host ->
  of_js (gameStateRef s) = Some state ->
  updateGame r1 r2 s =
  Done (requestAnimationFrame_updateGame
          (send_if_open (msg_gameState (to_js (fst (host_frame r1 r2 state s))))
             (set_gameStateRef (to_js (fst (host_frame r1 r2 state s)))
                (snd (host_frame r1 r2 state s))))).
Proof.
  intros Hrole Hstore. unfold updateGame, simulate, render_and_request.
  rewrite Hrole, Hstore.
  destruct (host_frame r1 r2 state s) as [state' s1]. cbn [fst snd and_then].
  assert (Hn : gameStateRef
                 (send_if_open (msg_gameState (to_js state'))
                    (set_gameStateRef (to_js state') s1)) = to_js state').
  { unfold send_if_open. destruct (dataChannelRef _) as [[]|]; reflexivity. }
  rewrite Hn. cbn [to_js nullish field lookup_field String.eqb Ascii.eqb Bool.eqb
                     ball_to_js orb].
  rewrite andb_false_r. reflexivity.
Qed.

(** The host's frame keeps the paddles on the playfield, never lowers a
    score, and outside the playing phase leaves ball and scores alone. *)
Lemma pong_host_frame_spec (r1 r2 : Q) (state : GameState) (s : Session) :
  let state' := fst (host_frame r1 r2 state s) in
  paddle2Y state' = paddle2Y state /\
  paddle1Y state' = paddle1Y (move_paddle1 (keysRef s) state) /\
  (0 <= paddle1Y state <= CANVAS_HEIGHT - PADDLE_HEIGHT ->
   0 <= paddle1Y state' <= CANVAS_HEIGHT - PADDLE_HEIGHT) /\
  (score1 state' == score1 state \/ score1 state' == score1 state + 1) /\
  (score2 state' == score2 state \/ score2 state' == score2 state + 1) /\
  (~ (score1 state' == score1 state /\ score2 state' == score2 state) ->
   gamePhaseRef s = Playing /\
   x (ball state') = CANVAS_WIDTH / 2 /\ y (ball state') = CANVAS_HEIGHT / 2 /\
   (vx (ball state') = 1 * ballSpeedRef s \/ vx (ball state') = -1 * ballSpeedRef s)) /\
  (gamePhaseRef s <> Playing -> ball state' = ball state) /\
  (0 <= x (ball state) <= CANVAS_WIDTH -> 0 <= x (ball state') <= CANVAS_WIDTH) /\
  (0 <= y (ball state) <= CANVAS_HEIGHT ->
   (gamePhaseRef s = Playing -> in_band (ball state)) ->
   0 <= y (ball state') <= CANVAS_HEIGHT).
Proof.
  unfold host_frame.
  pose proof (move_paddle1_spec (keysRef s) state) as [Hb [Hp2 [Hs1 [Hs2 Hp1]]]].
  cbv zeta in Hb, Hp2, Hs1, Hs2, Hp1.
  destruct (phase_eqb (gamePhaseRef s) Playing) eqn:Eph; cbn [fst].
  - pose proof (physics_spec (ballSpeedRef s) r1 r2 (move_paddle1 (keysRef s) state))
      as [Hq1 [Hq2 [Hsc1 [Hsc2 [Hreset [Hx Hy]]]]]].
    cbv zeta in Hq1, Hq2, Hsc1, Hsc2, Hreset, Hx, Hy.
    rewrite Hs1 in Hsc1. rewrite Hs2 in Hsc2. rewrite Hs1, Hs2 in Hreset.
    rewrite Hb in Hy.
    assert (Hplaying : gamePhaseRef s = Playing)
      by (destruct (gamePhaseRef s); try discriminate; reflexivity).
    rewrite Hq1, Hq2.
    split; [exact Hp2|]. split; [reflexivity|]. split; [exact Hp1|].
    split; [exact Hsc1|]. split; [exact Hsc2|].
    split; [intros Hn; split; [exact Hplaying|apply Hreset, Hn]|].
    split; [intros Hn; congruence|]. split; [intros _; exact Hx|].
    intros _ Hband. apply Hy, Hband, Hplaying.
  - split; [exact Hp2|]. split; [reflexivity|]. split; [exact Hp1|].
    rewrite Hs1, Hs2, Hb.
    split; [left; reflexivity|]. split; [left; reflexivity|].
    split; [intros Hn; exfalso; apply Hn; split; reflexivity|].
    split; [reflexivity|]. split; auto.
Qed.

(** The frame changes nothing of the session but the scores it shows. *)
Lemma pong_host_frame_session (r1 r2 : Q) (state : GameState) (s : Session) :
  let s' := snd (host_frame r1 r2 state s) in
  roleRef s' = roleRef s /\ gamePhaseRef s' = gamePhaseRef s /\
  gameLoopRef s' = gameLoopRef s /\ frames s' = frames s /\
  dataChannelRef s' = dataChannelRef s /\ outbox s' = outbox s /\
  nextHandle s' = nextHandle s /\ connected s' = connected s /\
  ballSpeed s' = ballSpeed s /\ timeouts s' = timeouts s.
Proof.
  unfold host_frame, sync_scores. repeat break_match; cbn; repeat split.
Qed.

(** *** The countdown *)

Lemma pong_same_core_refl (s : Session) : same_core s s.
Proof. unfold same_core. repeat split. Qed.

Lemma pong_same_core_trans (a b c : Session) :
  same_core a b -> same_core b c -> same_core a c.
Proof. unfold same_core. intuition congruence. Qed.

(** No effect runs when neither [connected] nor [ballSpeed] changed. *)
Lemma pong_effects_id (before after : Session) :
  connected after = connected before -> ballSpeed after = ballSpeed before ->
  effects before after = after.
Proof.
  intros Hc Hb. unfold effects. rewrite Hc, Hb, Bool.eqb_reflx, Qeq_bool_refl. reflexivity.
Qed.

Lemma pong_tick_positive (v : Z) (s : Session) :
  (0 < v)%Z ->
  exists h,
    countdownTimerRef (tick v s) = Some h /\
    timeouts (tick v s) !! h = Some (v - 1)%Z /\
    countdown (tick v s) = num v /\
    same_core (tick v s) s.
Proof.
  intros Hv. unfold tick. destruct (Z.leb_spec v 0) as [Hle|_]; [lia|].
  destruct s. unfold send_if_open. cbn.
  destruct roleRef0, dataChannelRef0 as [[]|]; cbn;
    (eexists; split; [reflexivity|]; split; [apply lookup_insert_eq|];
     split; [reflexivity|]; unfold same_core; cbn; repeat split).
Qed.

Lemma pong_fire_after_tick (v : Z) (s : Session) :
  (0 < v)%Z ->
  exists s', fire_countdown (tick v s) = tick (v - 1) s' /\ same_core s' s.
Proof.
  intros Hv. destruct (pong_tick_positive v s Hv) as [h [Href [Hlook [_ Hcore]]]].
  exists (clearTimeout h (tick v s)). split.
  - unfold fire_countdown, step. rewrite Href. cbn [dispatch]. rewrite Hlook.
    cbn [session_after]. apply pong_effects_id.
    + unfold tick, send_if_open.
      repeat break_match; reflexivity.
    + unfold tick, send_if_open.
      repeat break_match; reflexivity.
  - eapply pong_same_core_trans; [|exact Hcore]. unfold same_core. cbn. repeat split.
Qed.

Lemma pong_countdown_chain (k n : nat) (s : Session) :
  (k <= n)%nat ->
  exists s', Nat.iter k fire_countdown (tick (Z.of_nat n) s) = tick (Z.of_nat (n - k)) s'
             /\ same_core s' s.
Proof.
  induction k as [|k IH]; intros Hk.
  - exists s. rewrite Nat.sub_0_r. split; [reflexivity|apply pong_same_core_refl].
  - destruct IH as [s1 [Hiter Hcore]]; [lia|].
    cbn [Nat.iter nat_rect]. change (nat_rect _ _ _ k) with
      (Nat.iter k fire_countdown (tick (Z.of_nat n) s)).
    rewrite Hiter.
    destruct (pong_fire_after_tick (Z.of_nat (n - k)) s1) as [s2 [Hfire Hcore2]]; [lia|].
    exists s2. rewrite Hfire. split.
    + f_equal. lia.
    + eapply pong_same_core_trans; eassumption.
Qed.

(** The last tick: the phase becomes playing; no timer is started, and
    the frame loop is as it was. *)
Lemma pong_tick_zero (s : Session) :
  let s' := tick 0 s in
  gamePhaseRef s' = Playing /\ countdown s' = num 0 /\
  gameLoopRef s' = gameLoopRef s /\ frames s' = frames s /\
  timeouts s' = timeouts s /\ nextHandle s' = nextHandle s.
Proof.
  destruct s. unfold tick, send_if_open. cbn.
  destruct roleRef0, dataChannelRef0 as [[]|]; cbn; repeat split.
Qed.

(** *** Every pending frame is tracked *)

Lemma pong_tracked_same (s s' : Session) :
  gameLoopRef s' = gameLoopRef s -> frames s' = frames s -> tracked s -> tracked s'.
Proof. unfold tracked. intros -> ->. auto. Qed.

Lemma pong_empty_tracked (s : Session) : frames s = ∅ -> tracked s.
Proof.
  unfold tracked. intros -> h Hin. apply elem_of_empty in Hin. contradiction.
Qed.

Lemma pong_stopGameLoop_frames (s : Session) :
  tracked s -> frames (stopGameLoop s) = ∅.
Proof.
  unfold tracked, stopGameLoop. intros Ht.
  destruct (gameLoopRef s) as [h|] eqn:E; cbn [cancelAnimationFrame frames];
    apply set_eq; intros h'; (split; [|intros Hin; apply elem_of_empty in Hin; contradiction]).
  - intros Hin. apply elem_of_difference in Hin. destruct Hin as [Hin Hne].
    apply Ht in Hin. injection Hin as ->. exfalso. apply Hne. apply elem_of_singleton.
    reflexivity.
  - intros Hin. apply Ht in Hin. discriminate.
Qed.

Lemma pong_raf_tracked (s : Session) :
  frames s = ∅ -> tracked (requestAnimationFrame_updateGame s).
Proof.
  unfold tracked. cbn [requestAnimationFrame_updateGame frames gameLoopRef].
  intros -> h Hin. apply elem_of_union in Hin. destruct Hin as [Hin|Hin].
  - apply elem_of_singleton in Hin. congruence.
  - apply elem_of_empty in Hin. contradiction.
Qed.

Lemma pong_simulate_frames (r1 r2 : Q) (s : Session) :
  frames (session_after (simulate r1 r2 s)) = frames s.
Proof.
  unfold simulate.
  destruct (roleRef s); [reflexivity| |].
  - destruct (of_js (gameStateRef s)) as [state|]; [|reflexivity].
    pose proof (pong_host_frame_session r1 r2 state s) as H. cbv zeta in H.
    destruct (host_frame r1 r2 state s) as [state' s1]. cbn [snd] in H.
    destruct H as [_ [_ [_ [Hf _]]]].
    cbn [session_after]. unfold send_if_open.
    destruct (dataChannelRef _) as [[]|]; exact Hf.
  - cbn [session_after]. unfold guest_frame.
    repeat break_match; reflexivity.
Qed.

Lemma pong_updateGame_tracked (r1 r2 : Q) (s : Session) :
  frames s = ∅ -> tracked (session_after (updateGame r1 r2 s)).
Proof.
  intros Hf. unfold updateGame.
  pose proof (pong_simulate_frames r1 r2 s) as Hs. rewrite Hf in Hs.
  destruct (simulate r1 r2 s) as [s1|e s1]; cbn [and_then session_after] in *.
  - unfold render_and_request. break_match; cbn [session_after].
    + apply pong_empty_tracked, Hs.
    + apply pong_raf_tracked, Hs.
  - apply pong_empty_tracked, Hs.
Qed.

Lemma pong_tick_frames (v : Z) (s : Session) :
  gameLoopRef (tick v s) = gameLoopRef s /\ frames (tick v s) = frames s /\
  connected (tick v s) = connected s /\ ballSpeed (tick v s) = ballSpeed s.
Proof.
  unfold tick, send_if_open. repeat break_match; repeat split.
Qed.

Lemma pong_onmessage_frames (message : JSValue) (s : Session) :
  let s' := session_after (onmessage_parsed message s) in
  gameLoopRef s' = gameLoopRef s /\ frames s' = frames s /\ connected s' = connected s.
Proof.
  unfold onmessage_parsed.
  destruct (get_prop message "type") as [type|e]; [|repeat split].
  destruct (is_str type "gameState" && role_eqb (roleRef s) Guest).
  { destruct (get_prop (field message "state") "score1"),
             (get_prop (field message "state") "score2");
      try (repeat split; reflexivity).
    break_match; repeat split. }
  repeat break_match; repeat split.
Qed.

Lemma pong_endSession_spec (s : Session) :
  tracked s ->
  let s' := endSession s in
  roleRef s' = NoRole /\ gamePhaseRef s' = Idle /\ connected s' = false /\
  dataChannelRef s' = None /\ peerConnectionRef s' = None /\
  gameStateRef s' = to_js (fresh_state (ballSpeedRef s)) /\
  scoresRef s' = (num 0, num 0) /\ countdown s' = num 3 /\
  frames s' = ∅ /\ timeouts s' = timeouts s /\ ballSpeed s' = ballSpeed s.
Proof.
  intros Ht. pose proof (pong_stopGameLoop_frames s Ht) as Hf.
  unfold endSession, resetState, stopGameLoop in *.
  destruct (gameLoopRef s); cbn in *; repeat split; exact Hf.
Qed.

Lemma pong_effects_tracked (before after : Session) :
  tracked after -> tracked (effects before after).
Proof.
  intros Ht. unfold effects.
  assert (Hc : tracked (if Bool.eqb (connected before) (connected after)
                        then after else connectedEffect after)).
  { destruct (Bool.eqb _ _); [exact Ht|].
    unfold connectedEffect. pose proof (pong_stopGameLoop_frames after Ht) as Hf.
    destruct (connected (stopGameLoop after)).
    - apply pong_raf_tracked, Hf.
    - apply pong_empty_tracked, Hf. }
  destruct (Qeq_bool _ _); [exact Hc|].
  eapply pong_tracked_same; [| |exact Hc];
    unfold ballSpeedEffect, broadcastSettings, send_if_open;
    repeat break_match; reflexivity.
Qed.

Lemma pong_dispatch_tracked (ev : Event) (s : Session) :
  tracked s -> tracked (session_after (dispatch ev s)).
Proof.
  intros Ht. destruct ev; cbn [dispatch].
  - destruct (role_eqb (roleRef s) NoRole); exact Ht.
  - destruct (role_eqb (roleRef s) NoRole); exact Ht.
  - destruct (roleRef s), (peerConnectionRef s); exact Ht.
  - destruct (dataChannelRef s); [|exact Ht]. cbn [session_after].
    eapply pong_tracked_same; [| |exact Ht];
      unfold onopen, startCountdown, tick, send_if_open, send;
      repeat break_match; reflexivity.
  - destruct (dataChannelRef s); exact Ht.
  - destruct (dataChannelRef s) as [[]|]; try exact Ht.
    destruct parsed as [message|e]; [|exact Ht].
    destruct (pong_onmessage_frames message s) as [Hg [Hf _]].
    eapply pong_tracked_same; [exact Hg|exact Hf|exact Ht].
  - destruct (timeouts s !! h); [|exact Ht]. cbn [session_after].
    destruct (pong_tick_frames z (clearTimeout h s)) as [Hg [Hf _]].
    eapply pong_tracked_same; [exact Hg|exact Hf|exact Ht].
  - destruct (bool_decide (h ∈ frames s)) eqn:Hin; [|exact Ht].
    apply pong_updateGame_tracked.
    apply bool_decide_eq_true in Hin. apply Ht in Hin.
    pose proof (pong_stopGameLoop_frames s Ht) as Hf.
    unfold stopGameLoop in Hf. rewrite Hin in Hf. exact Hf.
  - cbn [session_after]. unfold handleKeyDown.
    destruct (String.eqb key "Escape").
    + apply pong_empty_tracked.
      match goal with |- context [endSession ?t] =>
        assert (Htt : tracked t) by (destruct (paddle_key key); exact Ht);
        destruct (pong_endSession_spec t Htt) as [_ [_ [_ [_ [_ [_ [_ [_ [Hf _]]]]]]]]]
      end.
      exact Hf.
    + destruct (paddle_key key); exact Ht.
  - exact Ht.
  - exact Ht.
  - exact Ht.
  - cbn [session_after]. apply pong_empty_tracked.
    destruct (pong_endSession_spec s Ht) as [_ [_ [_ [_ [_ [_ [_ [_ [Hf _]]]]]]]]].
    exact Hf.
Qed.

Lemma pong_step_tracked (ev : Event) (s : Session) : tracked s -> tracked (step ev s).
Proof. intros Ht. unfold step. apply pong_effects_tracked, pong_dispatch_tracked, Ht. Qed.

Lemma pong_run_tracked (evs : list Event) (s : Session) : tracked s -> tracked (run evs s).
Proof.
  revert s. induction evs as [|ev evs IH]; intros s Ht; [exact Ht|].
  cbn [run]. apply IH, pong_step_tracked, Ht.
Qed.

Lemma pong_initial_tracked : tracked initial_session.
Proof. apply pong_empty_tracked. reflexivity. Qed.

End PongFacts.

(** ** The chase game *)

Section SnakeFacts.
Import JS MultiSnake.

Lemma cell_eqb_eq (a b : Cell) : cell_eqb a b = true <-> a = b.
Proof.
  destruct a as [ax ay], b as [bx b_y]. unfold cell_eqb. cbn [x y].
  rewrite andb_true_iff, !Z.eqb_eq. split.
  - intros [-> ->]. reflexivity.
  - intros H. injection H. auto.
Qed.

Lemma cell_eqb_refl (a : Cell) : cell_eqb a a = true.
Proof. apply cell_eqb_eq. reflexivity. Qed.

Lemma occupies_In (snake : list Cell) (c : Cell) :
  occupies snake c = true <-> In c snake.
Proof.
  unfold occupies. rewrite existsb_exists. split.
  - intros [d [Hd He]]. apply cell_eqb_eq in He. subst d. exact Hd.
  - intros H. exists c. split; [exact H|apply cell_eqb_refl].
Qed.

Lemma occupies_false (snake : list Cell) (c : Cell) :
  occupies snake c = false <-> ~ In c snake.
Proof.
  rewrite <- occupies_In. destruct (occupies snake c); split; congruence.
Qed.

(** *** The wire form of a state reads back as the state *)

Lemma int_of_js_num (z : Z) : int_of_js (num z) = Some z.
Proof.
  unfold int_of_js, num, inject_Z. cbn [Qnum Qden].
  rewrite Z.mod_1_r, Z.div_1_r. reflexivity.
Qed.

Lemma cell_of_to_js (c : Cell) : cell_of_js (cell_to_js c) = Some c.
Proof.
  destruct c as [cx cy]. unfold cell_of_js, cell_to_js. cbn [lookup_field String.eqb Ascii.eqb Bool.eqb x y].
  rewrite !int_of_js_num. reflexivity.
Qed.

Lemma cells_of_to_js (l : list Cell) : cells_of_js (map cell_to_js l) = Some l.
Proof.
  induction l as [|c l IH]; [reflexivity|].
  cbn [map cells_of_js]. rewrite cell_of_to_js, IH. reflexivity.
Qed.

Lemma dir_of_to_js (d : Direction) : dir_of_js (dir_to_js d) = Some d.
Proof. destruct d; reflexivity. Qed.

Lemma phase_of_to_js (p : GamePhase) : phase_of_js (phase_to_js p) = Some p.
Proof. destruct p; reflexivity. Qed.

Lemma of_to_js (g : GameState) : of_js (to_js g) = Some g.
Proof.
  destruct g as [s1 s2 d1 d2 fd sc1 sc2 ph]. unfold of_js, to_js.
  cbn [lookup_field String.eqb Ascii.eqb Bool.eqb snake1 snake2 dir1 dir2 food score1
         score2 phase snake_of_js].
  rewrite !cells_of_to_js, dir_of_to_js, cell_of_to_js, !int_of_js_num, phase_of_to_js.
  reflexivity.
Qed.

Lemma drawable_cells (l : list Cell) :
  forallb (fun c => negb (nullish c)) (map cell_to_js l) = true.
Proof. induction l as [|c l IH]; [reflexivity|]. cbn. exact IH. Qed.

(** Drawing a typed state throws nothing. *)
Lemma drawState_typed (g : GameState) (s : Session) : drawState (to_js g) s = Done s.
Proof.
  unfold drawState, to_js, field.
  cbn [lookup_field String.eqb Ascii.eqb Bool.eqb drawable_snake].
  rewrite !drawable_cells. cbn. rewrite andb_false_r. reflexivity.
Qed.

(** *** The simulation step, case by case *)

Section Step.
Variables (draws : list Q) (s : Session) (state : GameState).
Variables (next1 next2 : Cell) (wall1 wall2 : bool).
Hypothesis Hplaying : gamePhaseRef s = Playing.
Hypothesis Hstore : of_js (gameStateRef s) = Some state.
Hypothesis Hadv1 : advance (snake1 state) (dir1Ref s) = Some (next1, wall1).
Hypothesis Hadv2 : advance_js (snake2 state) (dir2Ref s) = Moved next2 wall2.

Lemma stepGame_crash :
  anyCrash state next1 next2 wall1 wall2 = true ->
  stepGame draws s =
  Done (send_if_open (msg_gameState (to_js (crashed s state)))
          (stopInterval
             (set_gamePhaseRef Over (set_gameStateRef (to_js (crashed s state)) s)))).
Proof.
  intros Hcrash. unfold stepGame. rewrite Hplaying. cbn [phase_eqb negb].
  rewrite Hstore. cbn [with_dirs snake1 snake2].
  rewrite Hadv1, Hadv2.
  change (anyCrash (with_dirs (dir1Ref s) (dir2Ref s) state) next1 next2 wall1 wall2)
    with (anyCrash state next1 next2 wall1 wall2).
  rewrite Hcrash. unfold crash.
  apply drawState_typed.
Qed.

Lemma stepGame_move_plain :
  anyCrash state next1 next2 wall1 wall2 = false ->
  cell_eqb next1 (food state) || cell_eqb next2 (food state) = false ->
  stepGame draws s =
  Done (send_if_open (msg_gameState (to_js (moved s state next1 next2 (food state))))
          (set_gameStateRef (to_js (moved s state next1 next2 (food state))) s)).
Proof.
  intros Hcrash Hate. unfold stepGame. rewrite Hplaying. cbn [phase_eqb negb].
  rewrite Hstore. cbn [with_dirs snake1 snake2].
  rewrite Hadv1, Hadv2.
  change (anyCrash (with_dirs (dir1Ref s) (dir2Ref s) state) next1 next2 wall1 wall2)
    with (anyCrash state next1 next2 wall1 wall2).
  rewrite Hcrash.
  cbn [with_dirs food score1 score2 phase]. rewrite Hate.
  apply drawState_typed.
Qed.

Lemma stepGame_move_ate :
  anyCrash state next1 next2 wall1 wall2 = false ->
  cell_eqb next1 (food state) || cell_eqb next2 (food state) = true ->
  stepGame draws s =
  match placeFood draws
                  (grow_or_move (cell_eqb next1 (food state)) next1 (snake1 state))
                  (grow_or_move (cell_eqb next2 (food state)) next2 (snake2 state)) with
  | None => Unfinished
  | Some food' =>
      let st := moved s state next1 next2 food' in
      Done (send_if_open (msg_gameState (to_js st))
              (set_gameStateRef (to_js st)
                 (set_scores (num (score1 st), num (score2 st)) s)))
  end.
Proof.
  intros Hcrash Hate. unfold stepGame. rewrite Hplaying. cbn [phase_eqb negb].
  rewrite Hstore. cbn [with_dirs snake1 snake2].
  rewrite Hadv1, Hadv2.
  change (anyCrash (with_dirs (dir1Ref s) (dir2Ref s) state) next1 next2 wall1 wall2)
    with (anyCrash state next1 next2 wall1 wall2).
  rewrite Hcrash.
  cbn [with_dirs food score1 score2 phase]. rewrite Hate.
  destruct (placeFood draws _ _) as [food'|]; [|reflexivity].
  apply drawState_typed.
Qed.
End Step.


(** The same when the second head has no coordinates. *)
Lemma drawable_headed (head : JSValue) (l : list Cell) :
  nullish head = false ->
  forallb (fun c => negb (nullish c)) (head :: map cell_to_js l) = true.
Proof. intros H. cbn [forallb]. rewrite H, drawable_cells. reflexivity. Qed.

Lemma drawState_headed (g : GameState) (s : Session) :
  drawState (to_js_headed nan_cell g) s = Done s.
Proof.
  unfold drawState, to_js_headed, field.
  cbn [lookup_field String.eqb Ascii.eqb Bool.eqb drawable_snake].
  rewrite drawable_cells, drawable_headed by reflexivity.
  cbn. rewrite andb_false_r. reflexivity.
Qed.

Section StepNaN.
Variables (draws : list Q) (s : Session) (state : GameState).
Variables (next1 : Cell) (wall1 : bool).
Hypothesis Hplaying : gamePhaseRef s = Playing.
Hypothesis Hstore : of_js (gameStateRef s) = Some state.
Hypothesis Hadv1 : advance (snake1 state) (dir1Ref s) = Some (next1, wall1).
Hypothesis Hadv2 : advance_js (snake2 state) (dir2Ref s) = MovedNaN.

Lemma stepGame_nan_crash :
  wall1 || occupies (snake1 state) next1 || occupies (snake2 state) next1 = true ->
  stepGame draws s =
  Done (send_if_open (msg_gameState (to_js (crashed s state)))
          (stopInterval
             (set_gamePhaseRef Over (set_gameStateRef (to_js (crashed s state)) s)))).
Proof.
  intros Hcrash. unfold stepGame. rewrite Hplaying. cbn [phase_eqb negb].
  rewrite Hstore. cbn [with_dirs snake1 snake2].
  rewrite Hadv1, Hadv2, Hcrash. unfold crash.
  apply drawState_typed.
Qed.

Lemma stepGame_nan_plain :
  wall1 || occupies (snake1 state) next1 || occupies (snake2 state) next1 = false ->
  cell_eqb next1 (food state) = false ->
  stepGame draws s =
  DoneNaN
    (send_if_open (msg_gameState (to_js_headed null_cell (moved_nan s state next1 (food state))))
       (set_gameStateRef (to_js_headed nan_cell (moved_nan s state next1 (food state))) s)).
Proof.
  intros Hcrash Hate. unfold stepGame. rewrite Hplaying. cbn [phase_eqb negb].
  rewrite Hstore. cbn [with_dirs snake1 snake2].
  rewrite Hadv1, Hadv2, Hcrash.
  cbn [with_dirs food score1 score2 phase]. rewrite Hate.
  unfold moved_nan. rewrite Hate. rewrite drawState_headed. reflexivity.
Qed.

Lemma stepGame_nan_ate :
  wall1 || occupies (snake1 state) next1 || occupies (snake2 state) next1 = false ->
  cell_eqb next1 (food state) = true ->
  stepGame draws s =
  match placeFood draws (grow_or_move true next1 (snake1 state))
                  (removelast (snake2 state)) with
  | None => Unfinished
  | Some food' =>
      let st := moved_nan s state next1 food' in
      DoneNaN
        (send_if_open (msg_gameState (to_js_headed null_cell st))
           (set_gameStateRef (to_js_headed nan_cell st)
              (set_scores (num (score1 st), num (score2 st)) s)))
  end.
Proof.
  intros Hcrash Hate. unfold stepGame. rewrite Hplaying. cbn [phase_eqb negb].
  rewrite Hstore. cbn [with_dirs snake1 snake2].
  rewrite Hadv1, Hadv2, Hcrash.
  cbn [with_dirs food score1 score2 phase]. rewrite Hate.
  destruct (placeFood draws _ _) as [food'|]; [|reflexivity].
  cbv zeta. unfold moved_nan. rewrite Hate. cbn [score1 score2].
  rewrite drawState_headed. reflexivity.
Qed.

(** With a second head without coordinates the step returns [Done] only
    on a crash of the first snake. *)
Lemma stepGame_nan_done (s' : Session) :
  stepGame draws s = Done s' ->
  s' = send_if_open (msg_gameState (to_js (crashed s state)))
         (stopInterval
            (set_gamePhaseRef Over (set_gameStateRef (to_js (crashed s state)) s))).
Proof.
  intros Hstep.
  destruct (wall1 || occupies (snake1 state) next1 || occupies (snake2 state) next1)
    eqn:Hc.
  - rewrite (stepGame_nan_crash Hc) in Hstep. congruence.
  - destruct (cell_eqb next1 (food state)) eqn:Hate.
    + rewrite (stepGame_nan_ate Hc Hate) in Hstep.
      destruct (placeFood draws _ _); discriminate.
    + rewrite (stepGame_nan_plain Hc Hate) in Hstep. discriminate.
Qed.
End StepNaN.

(** Every way a step of a playing host with a typed store can return. *)
Lemma stepGame_cases (draws : list Q) (s s' : Session) (state : GameState) :
  gamePhaseRef s = Playing ->
  of_js (gameStateRef s) = Some state ->
  stepGame draws s = Done s' ->
  (s' = send_if_open (msg_gameState (to_js (crashed s state)))
          (stopInterval
             (set_gamePhaseRef Over (set_gameStateRef (to_js (crashed s state)) s))) /\
   forall next1 next2 wall1 wall2,
     advance (snake1 state) (dir1Ref s) = Some (next1, wall1) ->
     advance_js (snake2 state) (dir2Ref s) = Moved next2 wall2 ->
     anyCrash state next1 next2 wall1 wall2 = true)
  \/
  exists next1 next2 wall1 wall2,
    advance (snake1 state) (dir1Ref s) = Some (next1, wall1) /\
    advance_js (snake2 state) (dir2Ref s) = Moved next2 wall2 /\
    anyCrash state next1 next2 wall1 wall2 = false /\
    ((cell_eqb next1 (food state) || cell_eqb next2 (food state) = false /\
      s' = send_if_open (msg_gameState (to_js (moved s state next1 next2 (food state))))
             (set_gameStateRef (to_js (moved s state next1 next2 (food state))) s))
     \/
     (cell_eqb next1 (food state) || cell_eqb next2 (food state) = true /\
      exists food',
        placeFood draws
          (grow_or_move (cell_eqb next1 (food state)) next1 (snake1 state))
          (grow_or_move (cell_eqb next2 (food state)) next2 (snake2 state)) = Some food' /\
        s' = send_if_open (msg_gameState (to_js (moved s state next1 next2 food')))
               (set_gameStateRef (to_js (moved s state next1 next2 food'))
                  (set_scores (num (score1 (moved s state next1 next2 food')),
                               num (score2 (moved s state next1 next2 food'))) s)))).
Proof.
  intros Hp Hs Hstep.
  destruct (advance (snake1 state) (dir1Ref s)) as [[next1 wall1]|] eqn:Ha1.
  2:{ unfold stepGame in Hstep. rewrite Hp, Hs in Hstep. cbn [phase_eqb negb] in Hstep.
      cbn [with_dirs snake1 snake2] in Hstep. rewrite Ha1 in Hstep. discriminate. }
  destruct (advance_js (snake2 state) (dir2Ref s)) as [next2 wall2| |] eqn:Ha2.
  3:{ unfold stepGame in Hstep. rewrite Hp, Hs in Hstep. cbn [phase_eqb negb] in Hstep.
      cbn [with_dirs snake1 snake2] in Hstep. rewrite Ha1, Ha2 in Hstep. discriminate. }
  2:{ left. split; [|discriminate].
      exact (stepGame_nan_done draws s state next1 wall1 Hp Hs Ha1 Ha2 s' Hstep). }
  destruct (anyCrash state next1 next2 wall1 wall2) eqn:Hc.
  - left. split.
    + rewrite (stepGame_crash draws s state next1 next2 wall1 wall2 Hp Hs Ha1 Ha2 Hc)
        in Hstep.
      congruence.
    + intros n1 n2 w1 w2 E1 E2. injection E1 as <- <-. injection E2 as <- <-. exact Hc.
  - right. exists next1, next2, wall1, wall2.
    split; [reflexivity|]. split; [reflexivity|]. split; [exact Hc|].
    destruct (cell_eqb next1 (food state) || cell_eqb next2 (food state)) eqn:Hate.
    + right. split; [reflexivity|].
      rewrite (stepGame_move_ate draws s state next1 next2 wall1 wall2 Hp Hs Ha1 Ha2 Hc Hate)
        in Hstep.
      destruct (placeFood draws _ _) as [food'|]; [|discriminate].
      exists food'. split; [reflexivity|]. cbn zeta in Hstep. congruence.
    + left. split; [reflexivity|].
      rewrite (stepGame_move_plain draws s state next1 next2 wall1 wall2 Hp Hs Ha1 Ha2 Hc Hate)
        in Hstep.
      congruence.
Qed.

(** *** Food *)

Lemma list_ind2 (A : Type) (P : list A -> Prop) :
  P [] -> (forall a, P [a]) -> (forall a b l, P l -> P (a :: b :: l)) ->
  forall l, P l.
Proof.
  intros H0 H1 H2.
  assert (H : forall l, P l /\ forall a, P (a :: l)).
  { induction l as [|x l [IH0 IH1]]; split; auto. }
  intros l. apply H.
Qed.

Lemma random_below_range (r : Q) (n : Z) :
  (0 <= r)%Q -> (r < 1)%Q -> (0 < n)%Z -> (0 <= random_below r n < n)%Z.
Proof.
  intros Hr0 Hr1 Hn. unfold random_below.
  assert (Hn' : (inject_Z 0 < inject_Z n)%Q) by (rewrite <- Zlt_Qlt; exact Hn).
  change (inject_Z 0) with 0%Q in Hn'.
  split.
  - change 0%Z with (Qfloor 0%Q). apply Qfloor_resp_le.
    apply Qmult_le_0_compat; [exact Hr0|apply Qlt_le_weak; exact Hn'].
  - rewrite Zlt_Qlt. eapply Qle_lt_trans; [apply Qfloor_le|].
    apply Qlt_le_trans with (1 * inject_Z n)%Q.
    + apply Qmult_lt_compat_r; assumption.
    + rewrite Qmult_1_l. apply Qle_refl.
Qed.

(** The food lands on a free cell of the playfield. *)
Lemma placeFood_spec (draws : list Q) (a b : list Cell) (c : Cell) :
  unit_draws draws ->
  placeFood draws a b = Some c ->
  ~ In c (a ++ b) /\ in_bounds c.
Proof.
  induction draws as [|r|rx ry rest IH] using list_ind2; intros Hd H; try discriminate.
  cbn [placeFood] in H.
  destruct (occupies (a ++ b) _) eqn:Hocc.
  - apply IH; [|exact H]. unfold unit_draws in *.
    inversion Hd as [|? ? _ Hd']. inversion Hd'. assumption.
  - injection H as <-. split; [apply occupies_false; exact Hocc|].
    unfold unit_draws in Hd. inversion Hd as [|? ? [Hx0 Hx1] Hd'].
    inversion Hd' as [|? ? [Hy0 Hy1] _]. subst.
    split; cbn [x y]; apply random_below_range; auto; reflexivity.
Qed.

(** The loop ends as soon as a pair of draws names a free cell. *)
Lemma placeFood_returns (pre : list Q) (rx ry : Q) (post : list Q) (a b : list Cell) :
  Nat.Even (length pre) ->
  occupies (a ++ b) (mkCell (random_below rx COLS) (random_below ry ROWS)) = false ->
  exists c, placeFood (pre ++ rx :: ry :: post) a b = Some c.
Proof.
  induction pre as [|r|r1 r2 pre IH] using list_ind2; intros Hev Hfree.
  - cbn [app placeFood]. rewrite Hfree. eauto.
  - destruct Hev as [k Hk]. cbn in Hk. lia.
  - cbn [app placeFood].
    destruct (occupies (a ++ b) (mkCell (random_below r1 COLS) (random_below r2 ROWS)));
      [|eauto].
    apply IH; [|exact Hfree].
    destruct Hev as [k Hk]. cbn [length] in Hk. exists (k - 1)%nat. lia.
Qed.

(** *** The countdown *)

Lemma same_core_refl (s : Session) : same_core s s.
Proof. unfold same_core. repeat split. Qed.

Lemma same_core_trans (a b c : Session) : same_core a b -> same_core b c -> same_core a c.
Proof. unfold same_core. intuition congruence. Qed.

Lemma send_if_open_core (m : JSValue) (s : Session) : same_core (send_if_open m s) s.
Proof.
  unfold send_if_open, same_core.
  destruct (channelRef s) as [[]|] eqn:E; cbn; rewrite ?E; repeat split.
Qed.

(** A tick above zero shows its value and arms the timer for the next
    one. *)
Lemma tick_positive (v : Z) (s : Session) :
  (0 < v)%Z ->
  exists h,
    countdownTimerRef (tick v s) = Some h /\
    timeouts (tick v s) !! h = Some (v - 1)%Z /\
    countdown (tick v s) = num v /\
    same_core (tick v s) s.
Proof.
  intros Hv. unfold tick. destruct (Z.leb_spec v 0) as [Hle|_]; [lia|].
  destruct (role_eqb (roleRef (set_countdown (num v) s)) Host).
  - exists (nextHandle (send_if_open (msg_countdown v) (set_countdown (num v) s))).
    cbn [setTimeout_tick countdownTimerRef timeouts countdown].
    split; [reflexivity|]. split; [apply lookup_insert_eq|].
    pose proof (send_if_open_core (msg_countdown v) (set_countdown (num v) s)) as Hc.
    split.
    + unfold send_if_open. destruct (channelRef _) as [[]|]; reflexivity.
    + unfold same_core in *. cbn in *. exact Hc.
  - exists (nextHandle (set_countdown (num v) s)).
    cbn [setTimeout_tick countdownTimerRef timeouts countdown set_countdown].
    split; [reflexivity|]. split; [apply lookup_insert_eq|].
    split; [reflexivity|]. unfold same_core. cbn. repeat split.
Qed.

Lemma fire_after_tick (v : Z) (s : Session) :
  (0 < v)%Z ->
  exists s', fire_countdown (tick v s) = tick (v - 1) s' /\ same_core s' s.
Proof.
  intros Hv. destruct (tick_positive v s Hv) as [h [Href [Hlook [_ Hcore]]]].
  exists (clearTimeout h (tick v s)). split.
  - unfold fire_countdown. rewrite Href. cbn [dispatch]. rewrite Hlook. reflexivity.
  - eapply same_core_trans; [|exact Hcore]. unfold same_core. cbn. repeat split.
Qed.

(** After [k] firings the chain is at the tick for [n - k]. *)
Lemma countdown_chain (k n : nat) (s : Session) :
  (k <= n)%nat ->
  exists s', Nat.iter k fire_countdown (tick (Z.of_nat n) s) = tick (Z.of_nat (n - k)) s'
             /\ same_core s' s.
Proof.
  induction k as [|k IH]; intros Hk.
  - exists s. rewrite Nat.sub_0_r. split; [reflexivity|apply same_core_refl].
  - destruct IH as [s1 [Hiter Hcore]]; [lia|].
    cbn [Nat.iter nat_rect]. change (nat_rect _ _ _ k) with
      (Nat.iter k fire_countdown (tick (Z.of_nat n) s)).
    rewrite Hiter.
    destruct (fire_after_tick (Z.of_nat (n - k)) s1) as [s2 [Hfire Hcore2]]; [lia|].
    exists s2. rewrite Hfire. split.
    + f_equal. lia.
    + eapply same_core_trans; eassumption.
Qed.

(** The last tick: the phase becomes playing and the host starts the
    step timer. *)
Lemma tick_zero_host (s : Session) :
  roleRef s = Host ->
  let s' := tick 0 s in
  gamePhase s' = Playing /\ gamePhaseRef s' = Playing /\ countdown s' = num 0 /\
  exists h, intervalRef s' = Some h /\ h ∈ intervals s' /\
            intervals s' = {[h]} ∪ intervals (stopInterval s).
Proof.
  intros Hrole. destruct s. cbn in Hrole. subst.
  unfold tick, send_if_open, stopInterval. cbn.
  destruct channelRef0 as [[]|], intervalRef0; cbn;
    (split; [reflexivity|]; split; [reflexivity|]; split; [reflexivity|];
     eexists; split; [reflexivity|]; split; [set_solver|reflexivity]).
Qed.

(** *** Every pending interval is tracked *)

#[local] Ltac break_match :=
  match goal with
  | |- context [match ?x with _ => _ end] => destruct x eqn:?
  | |- context [if ?x then _ else _] => destruct x eqn:?
  end.

Lemma tracked_stopInterval (s : Session) :
  tracked s -> intervals (stopInterval s) = ∅ /\ intervalRef (stopInterval s) = None.
Proof.
  unfold tracked, stopInterval. intros Ht.
  destruct (intervalRef s) as [h|] eqn:E; cbn [intervals intervalRef].
  - split; [|reflexivity].
    apply set_eq. intros h'. split; [|set_solver].
    intros Hin. apply elem_of_difference in Hin. destruct Hin as [Hin Hne].
    apply Ht in Hin. injection Hin as ->. set_solver.
  - split; [|exact E].
    apply set_eq. intros h'. split; [|set_solver].
    intros Hin. apply Ht in Hin. discriminate.
Qed.

Lemma timer_step_tracked (s s' : Session) : timer_step s s' -> tracked s -> tracked s'.
Proof.
  intros [[Hr Hi]|[[Hr Hi]|[h [Hr Hi]]]] Ht; unfold tracked.
  - rewrite Hr, Hi. exact Ht.
  - destruct (tracked_stopInterval s Ht) as [Hi' Hr']. rewrite Hr, Hi, Hi', Hr'. set_solver.
  - destruct (tracked_stopInterval s Ht) as [Hi' _]. rewrite Hr, Hi, Hi'.
    intros h' Hin. apply elem_of_union in Hin. destruct Hin as [Hin|Hin].
    + apply elem_of_singleton in Hin. congruence.
    + apply elem_of_empty in Hin. contradiction.
Qed.

Lemma timer_step_same (s s' : Session) :
  intervalRef s' = intervalRef s -> intervals s' = intervals s -> timer_step s s'.
Proof. intros. left. split; assumption. Qed.

Lemma drawState_same (v : JSValue) (s : Session) :
  session_after_handler (drawState v s) s = s.
Proof. unfold drawState. break_match; reflexivity. Qed.

Lemma stepGame_timer (draws : list Q) (s : Session) :
  timer_step s (session_after_handler (stepGame draws s) s).
Proof.
  assert (Hd : forall v t, session_after_handler (drawState v t) s = t).
  { intros v t. unfold drawState. destruct (_ && _); reflexivity. }
  assert (Hn : forall v t,
             session_after_handler
               (match drawState v t with Done u => DoneNaN u | other => other end) s = t).
  { intros v t. unfold drawState. destruct (_ && _); reflexivity. }
  assert (Hmove : forall m t,
             intervalRef t = intervalRef s -> intervals t = intervals s ->
             timer_step s (send_if_open m t)).
  { intros m t H1 H2. apply timer_step_same; unfold send_if_open;
      destruct (channelRef t) as [[]|]; assumption. }
  assert (Hcrash : forall m v,
             timer_step s
               (send_if_open m (stopInterval (set_gamePhaseRef Over (set_gameStateRef v s))))).
  { intros m v. right; left. unfold send_if_open, stopInterval. cbn.
    destruct (intervalRef s); cbn; destruct (channelRef s) as [[]|]; split; reflexivity. }
  unfold stepGame, crash.
  destruct (negb _); [apply timer_step_same; reflexivity|].
  destruct (of_js _) as [state|]; [|apply timer_step_same; reflexivity].
  cbn [with_dirs snake1 snake2 food score1 score2 phase].
  destruct (advance _ _) as [[next1 wall1]|]; [|apply timer_step_same; reflexivity].
  destruct (advance_js _ _) as [next2 wall2| |]; [| |apply timer_step_same; reflexivity].
  - destruct (anyCrash _ _ _ _ _); [rewrite Hd; apply Hcrash|].
    destruct (_ || _).
    + destruct (placeFood _ _ _); [|apply timer_step_same; reflexivity].
      rewrite Hd. apply Hmove; reflexivity.
    + rewrite Hd. apply Hmove; reflexivity.
  - destruct (_ || _); [rewrite Hd; apply Hcrash|].
    destruct (cell_eqb _ _).
    + destruct (placeFood _ _ _); [|apply timer_step_same; reflexivity].
      rewrite Hn. apply Hmove; reflexivity.
    + rewrite Hn. apply Hmove; reflexivity.
Qed.

(** A step touches the store, the phase ref, the scores, the step timer
    and the outbox, and nothing else. *)
Lemma stepGame_frame (draws : list Q) (s : Session) :
  let s' := session_after_handler (stepGame draws s) s in
  roleRef s' = roleRef s /\ connected s' = connected s /\
  countdown s' = countdown s /\ countdownTimerRef s' = countdownTimerRef s /\
  gamePhase s' = gamePhase s /\ speedRef s' = speedRef s /\
  dir1Ref s' = dir1Ref s /\ dir2Ref s' = dir2Ref s /\
  channelRef s' = channelRef s /\ peerRef s' = peerRef s /\
  appRef s' = appRef s /\ timeouts s' = timeouts s /\
  nextHandle s' = nextHandle s.
Proof.
  assert (Hd : forall v t, session_after_handler (drawState v t) s = t).
  { intros v t. unfold drawState. destruct (_ && _); reflexivity. }
  assert (Hn : forall v t,
             session_after_handler
               (match drawState v t with Done u => DoneNaN u | other => other end) s = t).
  { intros v t. unfold drawState. destruct (_ && _); reflexivity. }
  cbv zeta. unfold stepGame, crash.
  destruct (negb _); [repeat split|].
  destruct (of_js _) as [state|]; [|repeat split].
  cbn [with_dirs snake1 snake2 food score1 score2 phase].
  destruct (advance _ _) as [[next1 wall1]|]; [|repeat split].
  destruct (advance_js _ _) as [next2 wall2| |]; [| |repeat split].
  - destruct (anyCrash _ _ _ _ _).
    { rewrite Hd. unfold send_if_open, stopInterval. cbn.
      destruct (intervalRef s); cbn; destruct (channelRef s) as [[]|] eqn:E; cbn;
        rewrite ?E; repeat split. }
    destruct (_ || _).
    + destruct (placeFood _ _ _); [|repeat split].
      rewrite Hd. unfold send_if_open. cbn.
      destruct (channelRef s) as [[]|] eqn:E; cbn; rewrite ?E; repeat split.
    + rewrite Hd. unfold send_if_open. cbn.
      destruct (channelRef s) as [[]|] eqn:E; cbn; rewrite ?E; repeat split.
  - destruct (_ || _).
    { rewrite Hd. unfold send_if_open, stopInterval. cbn.
      destruct (intervalRef s); cbn; destruct (channelRef s) as [[]|] eqn:E; cbn;
        rewrite ?E; repeat split. }
    destruct (cell_eqb _ _).
    + destruct (placeFood _ _ _); [|repeat split].
      rewrite Hn. unfold send_if_open. cbn.
      destruct (channelRef s) as [[]|] eqn:E; cbn; rewrite ?E; repeat split.
    + rewrite Hn. unfold send_if_open. cbn.
      destruct (channelRef s) as [[]|] eqn:E; cbn; rewrite ?E; repeat split.
Qed.

Lemma tick_timer (v : Z) (s : Session) : timer_step s (tick v s).
Proof.
  unfold tick, send_if_open.
  repeat break_match; cbn;
    try (apply timer_step_same; reflexivity);
    right; right; unfold stopInterval; cbn; destruct (intervalRef s);
    eexists; split; reflexivity.
Qed.

Lemma tracked_same (s s' : Session) :
  intervalRef s' = intervalRef s -> intervals s' = intervals s -> tracked s -> tracked s'.
Proof. unfold tracked. intros -> ->. auto. Qed.

Lemma tick_tracked (v : Z) (s : Session) : tracked s -> tracked (tick v s).
Proof. apply timer_step_tracked, tick_timer. Qed.

Lemma startCountdown_tracked (v : Z) (s : Session) :
  tracked s -> tracked (startCountdown v s).
Proof.
  intros Ht. unfold startCountdown. apply tick_tracked.
  destruct (countdownTimerRef s); (eapply tracked_same; [| |exact Ht]; reflexivity).
Qed.

Lemma stopInterval_tracked (s : Session) : tracked s -> tracked (stopInterval s).
Proof.
  intros Ht. destruct (tracked_stopInterval s Ht) as [Hi Hr].
  unfold tracked. rewrite Hi. intros h Hin. apply elem_of_empty in Hin. contradiction.
Qed.

Lemma resetGameState_tracked (draws : list Q) (s : Session) :
  tracked s -> tracked (session_after_handler (resetGameState draws s) s).
Proof.
  intros Ht. unfold resetGameState. destruct (placeFood _ _ _); [|exact Ht].
  cbn [session_after_handler]. eapply tracked_same; [| |exact Ht]; reflexivity.
Qed.

Lemma resetGameState_done (draws : list Q) (s s' : Session) :
  resetGameState draws s = Done s' ->
  intervalRef s' = intervalRef s /\ intervals s' = intervals s /\ roleRef s' = roleRef s.
Proof.
  unfold resetGameState. destruct (placeFood _ _ _); [|discriminate].
  intros H. injection H as <-. repeat split.
Qed.

Lemma resetGameState_not_threw (draws : list Q) (s s' : Session) (e : JSError) :
  resetGameState draws s <> Threw e s'.
Proof. unfold resetGameState. destruct (placeFood _ _ _); discriminate. Qed.

Lemma resetGameState_not_nan (draws : list Q) (s s' : Session) :
  resetGameState draws s <> DoneNaN s'.
Proof. unfold resetGameState. destruct (placeFood _ _ _); discriminate. Qed.

Lemma endSession_tracked (s : Session) :
  tracked s -> tracked (session_after_handler (endSession s) s).
Proof.
  intros Ht. apply stopInterval_tracked in Ht.
  unfold endSession, drawState.
  repeat break_match; cbn [session_after_handler];
    (eapply tracked_same; [| |exact Ht]; reflexivity).
Qed.

(** Whatever a snapshot is, the store holds it afterwards, and nothing
    but the store and the scores changed. *)
Lemma applyStateFromHost_after (state : JSValue) (s : Session) :
  let s' := session_after_handler (applyStateFromHost state s) s in
  gameStateRef s' = state /\ roleRef s' = roleRef s /\
  intervalRef s' = intervalRef s /\ intervals s' = intervals s /\
  gamePhaseRef s' = gamePhaseRef s /\ gamePhase s' = gamePhase s.
Proof.
  unfold applyStateFromHost, updateScores, and_then, drawState.
  destruct (get_prop state "score1"), (get_prop state "score2");
    cbn [session_after_handler]; try (repeat split; reflexivity).
  break_match; cbn [session_after_handler]; repeat split; reflexivity.
Qed.

Lemma onmessage_tracked (message : JSValue) (s : Session) :
  tracked s -> tracked (session_after_handler (onmessage_parsed message s) s).
Proof.
  intros Ht. unfold onmessage_parsed.
  destruct (get_prop message "type") as [type|e]; [|exact Ht].
  destruct (is_str type "gameState" && role_eqb (roleRef s) Guest).
  { destruct (applyStateFromHost_after (field message "state") s) as [_ [_ [Hr [Hi _]]]].
    eapply tracked_same; [exact Hr|exact Hi|exact Ht]. }
  repeat break_match; cbn [session_after_handler]; try exact Ht;
    (eapply tracked_same; [| |exact Ht]; reflexivity).
Qed.

Lemma handleKeyDown_tracked (key : string) (s : Session) :
  tracked s -> tracked (session_after_handler (handleKeyDown key s) s).
Proof.
  intros Ht. unfold handleKeyDown.
  destruct (String.eqb key "Escape"); [apply endSession_tracked; exact Ht|].
  unfold send_unchecked.
  repeat break_match; cbn [session_after_handler]; try exact Ht;
    (eapply tracked_same; [| |exact Ht]; reflexivity).
Qed.

(** The invariant of the event loop. *)
Lemma dispatch_tracked (ev : Event) (s : Session) :
  tracked s -> tracked (session_after (dispatch ev s) s).
Proof.
  intros Ht. unfold session_after. destruct ev; cbn [dispatch].
  - (* CreateGame *)
    destruct (role_eqb (roleRef s) NoRole); [|exact Ht].
    unfold createGame, and_then.
    destruct (resetGameState draws (set_roleRef Host s)) as [s1|s1|e s1|] eqn:E;
      cbn [session_after_handler];
      [|exfalso; exact (resetGameState_not_nan _ _ _ E)| |exact Ht].
    + apply resetGameState_done in E. destruct E as [Hr [Hi _]].
      eapply tracked_same; [| |exact Ht]; cbn; assumption.
    + exfalso. exact (resetGameState_not_threw _ _ _ _ E).
  - (* IncomingOffer *)
    destruct (role_eqb (roleRef s) NoRole); exact Ht.
  - (* DataChannel *)
    destruct (roleRef s), (peerRef s); exact Ht.
  - (* ChannelOpen *)
    destruct (channelRef s); [|exact Ht].
    unfold onopen. cbn [roleRef set_phase set_connected set_channelRef].
    destruct (role_eqb (roleRef s) Host); [|exact Ht].
    unfold and_then.
    match goal with |- context [resetGameState ?d ?t] =>
      destruct (resetGameState d t) as [s1|s1|e s1|] eqn:E end;
      cbn [session_after_handler];
      [|exfalso; exact (resetGameState_not_nan _ _ _ E)| |exact Ht].
    + apply resetGameState_done in E. destruct E as [Hr [Hi _]].
      apply startCountdown_tracked. eapply tracked_same; [| |exact Ht]; assumption.
    + exfalso. exact (resetGameState_not_threw _ _ _ _ E).
  - (* ChannelClose *)
    destruct (channelRef s); [|exact Ht].
    cbn [session_after_handler]. unfold onclose. apply stopInterval_tracked.
    eapply tracked_same; [| |exact Ht]; reflexivity.
  - (* Message *)
    destruct (channelRef s) as [[]|]; try exact Ht.
    destruct parsed as [message|e]; [|exact Ht].
    apply onmessage_tracked. exact Ht.
  - (* TimeoutFires *)
    destruct (timeouts s !! h); [|exact Ht].
    cbn [session_after_handler]. apply tick_tracked.
    eapply tracked_same; [| |exact Ht]; reflexivity.
  - (* IntervalFires *)
    destruct (bool_decide (h ∈ intervals s)); [|exact Ht].
    eapply timer_step_tracked; [apply stepGame_timer|exact Ht].
  - (* KeyDown *)
    apply handleKeyDown_tracked. exact Ht.
  - (* Restart *)
    destruct (phase_eqb (gamePhase s) Over); [|exact Ht].
    unfold restart, and_then.
    destruct (resetGameState draws s) as [s1|s1|e s1|] eqn:E;
      cbn [session_after_handler];
      [|exfalso; exact (resetGameState_not_nan _ _ _ E)| |exact Ht].
    + apply resetGameState_done in E. destruct E as [Hr [Hi _]].
      destruct (role_eqb (roleRef s1) Host).
      * apply startCountdown_tracked. eapply tracked_same; [| |exact Ht]; assumption.
      * eapply tracked_same; [| |exact Ht]; assumption.
    + exfalso. exact (resetGameState_not_threw _ _ _ _ E).
  - (* EndSession *)
    apply endSession_tracked. exact Ht.
Qed.

Lemma run_tracked (evs : list Event) (s : Session) : tracked s -> tracked (run evs s).
Proof.
  revert s. induction evs as [|ev evs IH]; intros s Ht; [exact Ht|].
  cbn [run]. apply IH, dispatch_tracked, Ht.
Qed.

Lemma initial_tracked : tracked initial_session.
Proof. unfold tracked. cbn. intros h Hin. apply elem_of_empty in Hin. contradiction. Qed.

End SnakeFacts.

(** ** The message handlers *)

Section SnakeMessages.
Import JS MultiSnake.

Lemma snake_onmessage_role (message : JSValue) (s : Session) :
  roleRef (session_after_handler (onmessage_parsed message s) s) = roleRef s.
Proof.
  unfold onmessage_parsed.
  destruct (get_prop message "type") as [type|e]; [|reflexivity].
  destruct (is_str type "gameState" && role_eqb (roleRef s) Guest).
  { apply applyStateFromHost_after. }
  destruct (is_str type "input" && role_eqb (roleRef s) Host).
  { destruct (may_turn _ _) as [[]|]; reflexivity. }
  destruct (is_str type "phase"); [|reflexivity].
  destruct (is_str (field message "phase") "countdown"); [reflexivity|].
  destruct (is_str (field message "phase") "playing"); reflexivity.
Qed.

(** A guest that gets a snapshot holds its payload afterwards. *)
Lemma snake_snapshot_stored (payload : JSValue) (s : Session) :
  roleRef s = Guest ->
  gameStateRef (session_after_handler (onmessage_parsed (msg_gameState payload) s) s)
  = payload.
Proof.
  intros Hrole. unfold onmessage_parsed, msg_gameState.
  cbn [get_prop lookup_field String.eqb Ascii.eqb Bool.eqb is_str strict_eq].
  rewrite Hrole. cbn [role_eqb andb field lookup_field String.eqb Ascii.eqb Bool.eqb].
  apply applyStateFromHost_after.
Qed.

Lemma snake_receive_all_role (messages : list JSValue) (s : Session) :
  roleRef (receive_all messages s) = roleRef s.
Proof.
  unfold receive_all. revert s.
  induction messages as [|m messages IH]; intros s; [reflexivity|].
  cbn [fold_left]. rewrite IH. apply snake_onmessage_role.
Qed.

Lemma snake_last_snapshot (payloads : list JSValue) (last : JSValue) (s : Session) :
  roleRef s = Guest ->
  gameStateRef (receive_all (map msg_gameState (payloads ++ [last])) s) = last.
Proof.
  intros Hrole. rewrite map_app. unfold receive_all. rewrite fold_left_app.
  cbn [map fold_left]. apply snake_snapshot_stored.
  fold (receive_all (map msg_gameState payloads) s).
  rewrite snake_receive_all_role. exact Hrole.
Qed.

(** A message of a type the handler has no branch for is dropped. *)
Lemma snake_unknown_dropped (message type : JSValue) (s : Session) :
  get_prop message "type" = Ret type ->
  is_str type "gameState" = false -> is_str type "input" = false ->
  is_str type "phase" = false ->
  onmessage_parsed message s = Done s.
Proof.
  intros Ht H1 H2 H3. unfold onmessage_parsed. rewrite Ht, H1, H2, H3. reflexivity.
Qed.




End SnakeMessages.

Section PongMessages.
Import JS Pong.

Lemma pong_onmessage_role (message : JSValue) (s : Session) :
  roleRef (session_after (onmessage_parsed message s)) = roleRef s.
Proof.
  unfold onmessage_parsed.
  destruct (get_prop message "type") as [type|e]; [|reflexivity].
  destruct (is_str type "gameState" && role_eqb (roleRef s) Guest).
  { destruct (get_prop (field message "state") "score1"),
             (get_prop (field message "state") "score2"); try reflexivity.
    destruct (_ || _); reflexivity. }
  destruct (is_str type "input" && role_eqb (roleRef s) Host).
  { destruct (of_js (gameStateRef s)); [|reflexivity].
    destruct (is_str (field message "direction") "up"); [reflexivity|].
    destruct (is_str (field message "direction") "down"); reflexivity. }
  destruct (is_str type "hostFace"); [reflexivity|].
  destruct (is_str type "guestFace"); [reflexivity|].
  destruct (is_str type "phase").
  { destruct (is_str (field message "phase") "countdown"); [reflexivity|].
    destruct (is_str (field message "phase") "playing"); reflexivity. }
  destruct (is_str type "settings" && is_number (field message "ballSpeed"));
    [|reflexivity].
  destruct (field message "ballSpeed"); reflexivity.
Qed.

(** A guest that gets a snapshot holds its payload afterwards. *)
Lemma pong_snapshot_stored (payload : JSValue) (s : Session) :
  roleRef s = Guest ->
  gameStateRef (session_after (onmessage_parsed (msg_gameState payload) s)) = payload.
Proof.
  intros Hrole. unfold onmessage_parsed, msg_gameState.
  cbn [get_prop lookup_field String.eqb Ascii.eqb Bool.eqb is_str strict_eq].
  rewrite Hrole. cbn [role_eqb andb field lookup_field String.eqb Ascii.eqb Bool.eqb].
  destruct (get_prop payload "score1"), (get_prop payload "score2"); try reflexivity.
  destruct (_ || _); reflexivity.
Qed.

Lemma pong_receive_all_role (messages : list JSValue) (s : Session) :
  roleRef (receive_all messages s) = roleRef s.
Proof.
  unfold receive_all. revert s.
  induction messages as [|m messages IH]; intros s; [reflexivity|].
  cbn [fold_left]. rewrite IH. apply pong_onmessage_role.
Qed.

Lemma pong_last_snapshot (payloads : list JSValue) (last : JSValue) (s : Session) :
  roleRef s = Guest ->
  gameStateRef (receive_all (map msg_gameState (payloads ++ [last])) s) = last.
Proof.
  intros Hrole. rewrite map_app. unfold receive_all. rewrite fold_left_app.
  cbn [map fold_left]. apply pong_snapshot_stored.
  fold (receive_all (map msg_gameState payloads) s).
  rewrite pong_receive_all_role. exact Hrole.
Qed.

(** A message of a type the handler has no branch for is dropped. *)
Lemma pong_unknown_dropped (message type : JSValue) (s : Session) :
  get_prop message "type" = Ret type ->
  is_str type "gameState" = false -> is_str type "input" = false ->
  is_str type "hostFace" = false -> is_str type "guestFace" = false ->
  is_str type "phase" = false -> is_str type "settings" = false ->
  onmessage_parsed message s = Done s.
Proof.
  intros Ht H1 H2 H3 H4 H5 H6. unfold onmessage_parsed.
  rewrite Ht, H1, H2, H3, H4, H5, H6. reflexivity.
Qed.


End PongMessages.

Section StepAfterInput.
Import JS MultiSnake.

Lemma snake_send_store (m : JSValue) (s : Session) :
  gameStateRef (send_if_open m s) = gameStateRef s.
Proof. unfold send_if_open. destruct (channelRef s) as [[]|]; reflexivity. Qed.

Lemma snake_stop_store (s : Session) :
  gameStateRef (stopInterval s) = gameStateRef s.
Proof. unfold stopInterval. destruct (intervalRef s); reflexivity. Qed.

(** Whatever a step of a playing host returns with, the store holds the
    pending directions. *)
Lemma stepGame_applies_directions (draws : list Q) (s s' : Session) (state : GameState) :
  gamePhaseRef s = Playing ->
  of_js (gameStateRef s) = Some state ->
  stepGame draws s = Done s' ->
  exists state', of_js (gameStateRef s') = Some state' /\
                 dir1 state' = dir1Ref s /\ dir2 state' = dir2Ref s.
Proof.
  intros Hp Hs Hstep.
  destruct (stepGame_cases draws s s' state Hp Hs Hstep)
    as [[-> _]|[next1 [next2 [wall1 [wall2 [_ [_ [_ Hcases]]]]]]]].
  2: destruct Hcases as [[_ ->]|[_ [food' [_ ->]]]].
  all: rewrite snake_send_store, ?snake_stop_store;
    cbn [gameStateRef set_gameStateRef set_gamePhaseRef set_scores];
    rewrite of_to_js; eexists; (split; [reflexivity|]); split; reflexivity.
Qed.


End StepAfterInput.

Section FrameOutsidePlaying.
Import JS Pong.

Lemma pong_send_store (m : JSValue) (s : Session) :
  gameStateRef (send_if_open m s) = gameStateRef s.
Proof. unfold send_if_open. destruct (dataChannelRef s) as [[]|]; reflexivity. Qed.

(** After a frame of the host the store holds the state the frame
    computed. *)
Lemma pong_updateGame_store (r1 r2 : Q) (s : Session) (state : GameState) :
  roleRef s = Host ->
  of_js (gameStateRef s) = Some state ->
  exists s', updateGame r1 r2 s = Done s' /\
             of_js (gameStateRef s') = Some (fst (host_frame r1 r2 state s)) /\
             gamePhaseRef s' = gamePhaseRef s /\
             (exists h, gameLoopRef s' = Some h /\ h ∈ frames s').
Proof.
  intros Hrole Hstore. eexists. split; [apply pong_updateGame_host; eassumption|].
  pose proof (pong_host_frame_session r1 r2 state s) as Hsess. cbv zeta in Hsess.
  destruct (host_frame r1 r2 state s) as [state' s1]. cbn [fst snd] in *.
  destruct Hsess as [_ [Hph _]].
  cbn [requestAnimationFrame_updateGame gameStateRef gamePhaseRef gameLoopRef frames].
  rewrite pong_send_store. cbn [set_gameStateRef gameStateRef]. rewrite pong_of_to_js.
  split; [reflexivity|]. split.
  - unfold send_if_open. destruct (dataChannelRef _) as [[]|]; exact Hph.
  - eexists. split; [reflexivity|]. apply elem_of_union. left. apply elem_of_singleton.
    reflexivity.
Qed.


End FrameOutsidePlaying.

(** ** The countdown from its start *)

Section CountdownFromStart.
Import JS.

(** The session on which [startCountdown] runs its first tick. *)
Lemma snake_startCountdown_unfold (v : Z) (s : MultiSnake.Session) :
  exists s0,
    MultiSnake.startCountdown v s = MultiSnake.tick v s0 /\
    MultiSnake.roleRef s0 = MultiSnake.roleRef s /\
    MultiSnake.gamePhase s0 = MultiSnake.Countdown /\
    MultiSnake.gamePhaseRef s0 = MultiSnake.Countdown /\
    MultiSnake.intervalRef s0 = MultiSnake.intervalRef s /\
    MultiSnake.intervals s0 = MultiSnake.intervals s.
Proof.
  unfold MultiSnake.startCountdown. eexists. split; [reflexivity|].
  destruct (MultiSnake.countdownTimerRef s); repeat split.
Qed.

Lemma pong_startCountdown_unfold (v : Z) (p : Pong.Session) :
  exists p0,
    Pong.startCountdown v p = Pong.tick v p0 /\
    Pong.gamePhaseRef p0 = Pong.Countdown /\
    Pong.gameLoopRef p0 = Pong.gameLoopRef p /\
    Pong.frames p0 = Pong.frames p.
Proof.
  unfold Pong.startCountdown. eexists. split; [reflexivity|].
  destruct (Pong.countdownTimerRef p); repeat split.
Qed.

(** The chase game, [k] firings into a countdown from [n]. *)
Lemma snake_countdown_running (n k : nat) (s : MultiSnake.Session) :
  (k < n)%nat ->
  let sk := Nat.iter k MultiSnake.fire_countdown (MultiSnake.startCountdown (Z.of_nat n) s) in
  MultiSnake.gamePhaseRef sk = MultiSnake.Countdown /\
  MultiSnake.gamePhase sk = MultiSnake.Countdown /\
  MultiSnake.countdown sk = num (Z.of_nat (n - k)) /\
  MultiSnake.intervalRef sk = MultiSnake.intervalRef s /\
  MultiSnake.intervals sk = MultiSnake.intervals s.
Proof.
  intros Hk.
  destruct (snake_startCountdown_unfold (Z.of_nat n) s)
    as [s0 [-> [_ [Hph [Hphr [Hir Hi]]]]]].
  destruct (countdown_chain k n s0) as [s1 [Hiter Hcore]]; [lia|].
  cbv zeta. rewrite Hiter.
  destruct (tick_positive (Z.of_nat (n - k)) s1) as [h [_ [_ [Hc Hcore2]]]]; [lia|].
  pose proof (same_core_trans _ _ _ Hcore2 Hcore) as H.
  unfold MultiSnake.same_core in H.
  destruct H as [_ [_ [H3 [H4 [_ [H6 [H7 _]]]]]]].
  rewrite H3, H4, H6, H7, Hc. repeat split; assumption.
Qed.

(** The chase game at the last firing. *)
Lemma snake_countdown_done (n : nat) (s : MultiSnake.Session) :
  MultiSnake.roleRef s = MultiSnake.Host ->
  let sn := Nat.iter n MultiSnake.fire_countdown (MultiSnake.startCountdown (Z.of_nat n) s) in
  MultiSnake.gamePhaseRef sn = MultiSnake.Playing /\
  MultiSnake.gamePhase sn = MultiSnake.Playing /\
  MultiSnake.countdown sn = num 0 /\
  exists h, MultiSnake.intervalRef sn = Some h /\ h ∈ MultiSnake.intervals sn.
Proof.
  intros Hrole.
  destruct (snake_startCountdown_unfold (Z.of_nat n) s) as [s0 [-> [Hr _]]].
  destruct (countdown_chain n n s0) as [s1 [Hiter Hcore]]; [lia|].
  cbv zeta. rewrite Hiter, Nat.sub_diag. change (Z.of_nat 0) with 0%Z.
  assert (Hr1 : MultiSnake.roleRef s1 = MultiSnake.Host).
  { destruct Hcore as [-> _]. congruence. }
  destruct (tick_zero_host s1 Hr1) as [H1 [H2 [H3 [h [H4 [H5 _]]]]]].
  repeat split; try assumption. exists h. split; assumption.
Qed.

(** The paddle game, [k] firings into a countdown from [n]. *)
Lemma pong_countdown_running (n k : nat) (p : Pong.Session) :
  (k < n)%nat ->
  let pk := Nat.iter k Pong.fire_countdown (Pong.startCountdown (Z.of_nat n) p) in
  Pong.gamePhaseRef pk = Pong.Countdown /\
  Pong.countdown pk = num (Z.of_nat (n - k)) /\
  Pong.gameLoopRef pk = Pong.gameLoopRef p /\
  Pong.frames pk = Pong.frames p.
Proof.
  intros Hk.
  destruct (pong_startCountdown_unfold (Z.of_nat n) p) as [p0 [-> [Hph [Hg Hf]]]].
  destruct (pong_countdown_chain k n p0) as [p1 [Hiter Hcore]]; [lia|].
  cbv zeta. rewrite Hiter.
  destruct (pong_tick_positive (Z.of_nat (n - k)) p1) as [h [_ [_ [Hc Hcore2]]]]; [lia|].
  pose proof (pong_same_core_trans _ _ _ Hcore2 Hcore) as H.
  unfold Pong.same_core in H.
  destruct H as [_ [_ [H3 [_ [H5 [H6 _]]]]]].
  rewrite H3, H5, H6, Hc. repeat split; assumption.
Qed.

(** The paddle game at the last firing: no timer of any kind is started. *)
Lemma pong_countdown_done (n : nat) (p : Pong.Session) :
  let pn := Nat.iter n Pong.fire_countdown (Pong.startCountdown (Z.of_nat n) p) in
  Pong.gamePhaseRef pn = Pong.Playing /\
  Pong.countdown pn = num 0 /\
  Pong.gameLoopRef pn = Pong.gameLoopRef p /\
  Pong.frames pn = Pong.frames p.
Proof.
  destruct (pong_startCountdown_unfold (Z.of_nat n) p) as [p0 [-> [Hph [Hg Hf]]]].
  destruct (pong_countdown_chain n n p0) as [p1 [Hiter Hcore]]; [lia|].
  cbv zeta. rewrite Hiter, Nat.sub_diag. change (Z.of_nat 0) with 0%Z.
  destruct (pong_tick_zero p1) as [H1 [H2 [H3 [H4 _]]]].
  unfold Pong.same_core in Hcore.
  destruct Hcore as [_ [_ [_ [_ [H5 [H6 _]]]]]].
  rewrite H1, H2, H3, H4, H5, H6. repeat split; assumption.
Qed.

End CountdownFromStart.

(** ** What a step of the chase game commits *)

Section SnakeStep.
Import JS MultiSnake.










Lemma removelast_In (A : Type) (l : list A) (a : A) : In a (removelast l) -> In a l.
Proof.
  induction l as [|b l IH]; [auto|].
  cbn [removelast]. destruct l as [|c l]; [intros []|].
  intros [->|H]; [left; reflexivity|right; apply IH, H].
Qed.


(** The session a crash leaves. *)
Lemma crash_session_spec (m v : JSValue) (s : Session) :
  let s' := send_if_open m (stopInterval (set_gamePhaseRef Over (set_gameStateRef v s))) in
  gamePhaseRef s' = Over /\ gameStateRef s' = v /\ intervalRef s' = None /\
  (forall h, intervalRef s = Some h -> h ∉ intervals s') /\
  outbox s' = outbox s ++ match channelRef s with Some Open => [m] | _ => [] end /\
  scores s' = scores s /\ roleRef s' = roleRef s.
Proof.
  destruct s. unfold send_if_open, stopInterval. cbn.
  destruct channelRef0 as [[]|], intervalRef0 as [h0|]; cbn;
    rewrite ?app_nil_r; repeat split; try reflexivity;
    intros h Hh; try discriminate; injection Hh as <-;
    apply not_elem_of_difference; right; apply elem_of_singleton; reflexivity.
Qed.

(** The session a move leaves. *)
Lemma move_session_spec (m v : JSValue) (s : Session) :
  let s' := send_if_open m (set_gameStateRef v s) in
  gamePhaseRef s' = gamePhaseRef s /\ gameStateRef s' = v /\
  intervalRef s' = intervalRef s /\ intervals s' = intervals s /\
  outbox s' = outbox s ++ match channelRef s with Some Open => [m] | _ => [] end.
Proof.
  destruct s. unfold send_if_open. cbn.
  destruct channelRef0 as [[]|]; cbn; rewrite ?app_nil_r; repeat split.
Qed.

End SnakeStep.

Section SnakeStepResults.
Import JS MultiSnake.

(** The three ways a step of a playing host returns [Done], with the
    state that is in the store afterwards. *)
Lemma stepGame_outcomes (draws : list Q) (s s' : Session) (state : GameState) :
  gamePhaseRef s = Playing ->
  of_js (gameStateRef s) = Some state ->
  stepGame draws s = Done s' ->
  (of_js (gameStateRef s') = Some (crashed s state) /\
   gamePhaseRef s' = Over /\
   forall next1 next2 wall1 wall2,
     advance (snake1 state) (dir1Ref s) = Some (next1, wall1) ->
     advance_js (snake2 state) (dir2Ref s) = Moved next2 wall2 ->
     anyCrash state next1 next2 wall1 wall2 = true)
  \/
  exists next1 next2 wall1 wall2,
    advance (snake1 state) (dir1Ref s) = Some (next1, wall1) /\
    advance_js (snake2 state) (dir2Ref s) = Moved next2 wall2 /\
    anyCrash state next1 next2 wall1 wall2 = false /\
    exists food',
      of_js (gameStateRef s') = Some (moved s state next1 next2 food') /\
      gamePhaseRef s' = Playing /\
      intervalRef s' = intervalRef s /\ intervals s' = intervals s /\
      ((cell_eqb next1 (food state) || cell_eqb next2 (food state) = false /\
        food' = food state)
       \/
       (cell_eqb next1 (food state) || cell_eqb next2 (food state) = true /\
        placeFood draws
          (grow_or_move (cell_eqb next1 (food state)) next1 (snake1 state))
          (grow_or_move (cell_eqb next2 (food state)) next2 (snake2 state))
        = Some food')).
Proof.
  intros Hp Hs Hstep.
  destruct (stepGame_cases draws s s' state Hp Hs Hstep)
    as [[-> Hall]|[next1 [next2 [wall1 [wall2 [Ha1 [Ha2 [Hc Hcases]]]]]]]].
  - left.
    destruct (crash_session_spec (msg_gameState (to_js (crashed s state)))
                (to_js (crashed s state)) s) as [H1 [H2 _]].
    rewrite H2, of_to_js. split; [reflexivity|]. split; [exact H1|exact Hall].
  - right. exists next1, next2, wall1, wall2.
    split; [exact Ha1|]. split; [exact Ha2|]. split; [exact Hc|].
    destruct Hcases as [[Hate ->]|[Hate [food' [Hfood ->]]]].
    + exists (food state).
      destruct (move_session_spec
                  (msg_gameState (to_js (moved s state next1 next2 (food state))))
                  (to_js (moved s state next1 next2 (food state))) s)
        as [H1 [H2 [H3 [H4 _]]]].
      rewrite H2, of_to_js, H1, H3, H4. repeat split; auto.
    + exists food'.
      destruct (move_session_spec
                  (msg_gameState (to_js (moved s state next1 next2 food')))
                  (to_js (moved s state next1 next2 food'))
                  (set_scores (num (score1 (moved s state next1 next2 food')),
                               num (score2 (moved s state next1 next2 food'))) s))
        as [H1 [H2 [H3 [H4 _]]]].
      rewrite H2, of_to_js, H1, H3, H4. repeat split; auto.
Qed.



(** A step never lowers a score; when it raises one, the game goes on with
    the food on a free cell. *)
Lemma snake_step_scores (draws : list Q) (s s' : Session) (state : GameState) :
  gamePhaseRef s = Playing ->
  of_js (gameStateRef s) = Some state ->
  stepGame draws s = Done s' ->
  exists state',
    of_js (gameStateRef s') = Some state' /\
    (score1 state <= score1 state' <= score1 state + 1)%Z /\
    (score2 state <= score2 state' <= score2 state + 1)%Z /\
    ((score1 state' <> score1 state \/ score2 state' <> score2 state) ->
     gamePhaseRef s' = Playing /\ phase state' = phase state /\
     intervalRef s' = intervalRef s /\ intervals s' = intervals s /\
     ~ In (food state') (snake1 state' ++ snake2 state')).
Proof.
  intros Hp Hs Hstep.
  destruct (stepGame_outcomes draws s s' state Hp Hs Hstep)
    as [[Hst _]|[next1 [next2 [wall1 [wall2 [_ [_ [_ [food' [Hst [Hph [Hir [Hi Hfood]]]]]]]]]]]]].
  - exists (crashed s state). split; [exact Hst|].
    cbn [crashed with_phase with_dirs score1 score2].
    split; [lia|]. split; [lia|]. intros [H|H]; congruence.
  - exists (moved s state next1 next2 food'). split; [exact Hst|].
    cbn [moved score1 score2 phase food snake1 snake2].
    split; [destruct (cell_eqb next1 (food state)); lia|].
    split; [destruct (cell_eqb next2 (food state)); lia|].
    intros Hchanged.
    split; [exact Hph|]. split; [reflexivity|]. split; [exact Hir|]. split; [exact Hi|].
    destruct Hfood as [[Hate _]|[_ Hplace]].
    + apply orb_false_iff in Hate. destruct Hate as [E1 E2].
      rewrite E1, E2 in Hchanged. destruct Hchanged as [H|H]; congruence.
    + revert Hplace. clear. revert food'.
      generalize (grow_or_move (cell_eqb next1 (food state)) next1 (snake1 state)).
      generalize (grow_or_move (cell_eqb next2 (food state)) next2 (snake2 state)).
      intros b a. induction draws as [|r|rx ry rest IH] using list_ind2;
        intros food' H; try discriminate.
      cbn [placeFood] in H.
      destruct (occupies (a ++ b) (mkCell (random_below rx COLS) (random_below ry ROWS)))
        eqn:Hocc.
      * apply IH, H.
      * injection H as <-. apply occupies_false, Hocc.
Qed.


End SnakeStepResults.

(** ** Ending a session *)

Section SnakeEndSession.
Import JS MultiSnake.

Lemma lookup_update_field (k k' : string) (v : JSValue) (f : list (string * JSValue)) :
  lookup_field k (update_field k' v f) =
  if String.eqb k k' then v else lookup_field k f.
Proof.
  induction f as [|[k0 v0] f IH]; cbn [update_field lookup_field].
  - destruct (String.eqb k k'); reflexivity.
  - destruct (String.eqb k' k0) eqn:E0; cbn [lookup_field].
    + apply String.eqb_eq in E0. subst k0.
      destruct (String.eqb k k'); reflexivity.
    + rewrite IH. destruct (String.eqb k k') eqn:E; [|reflexivity].
      apply String.eqb_eq in E. subst k'. rewrite E0. reflexivity.
Qed.

(** Writing [phase] into a store that is a state gives that state with the
    new phase. *)
Lemma set_phase_prop (store : JSValue) (state : GameState) (ph : GamePhase) :
  of_js store = Some state ->
  exists store', set_prop store "phase" (phase_to_js ph) = Ret store' /\
                 of_js store' = Some (with_phase ph state).
Proof.
  unfold of_js. destruct store as [| | | | | | |f]; try discriminate.
  intros H. eexists. split; [reflexivity|].
  cbn [of_js]. rewrite !lookup_update_field.
  cbn [String.eqb Ascii.eqb Bool.eqb].
  destruct (snake_of_js (lookup_field "snake1" f)); [|discriminate].
  destruct (snake_of_js (lookup_field "snake2" f)); [|discriminate].
  destruct (dir_of_js (lookup_field "dir1" f)); [|discriminate].
  destruct (cell_of_js (lookup_field "food" f)); [|discriminate].
  destruct (int_of_js (lookup_field "score1" f)); [|discriminate].
  destruct (int_of_js (lookup_field "score2" f)); [|discriminate].
  destruct (phase_of_js (lookup_field "phase" f)); [|discriminate].
  injection H as <-. rewrite phase_of_to_js. reflexivity.
Qed.

Lemma cells_drawable (items : list JSValue) (l : list Cell) :
  cells_of_js items = Some l -> forallb (fun c => negb (nullish c)) items = true.
Proof.
  revert l. induction items as [|v items IH]; intros l H; [reflexivity|].
  cbn [cells_of_js] in H. destruct (cell_of_js v) eqn:Ev; [|discriminate].
  destruct (cells_of_js items) eqn:Ei; [|discriminate].
  cbn [forallb]. rewrite (IH _ eq_refl), andb_true_r.
  destruct v; try discriminate. reflexivity.
Qed.

(** A store that is a state can be drawn. *)
Lemma drawState_of_js (store : JSValue) (state : GameState) (s : Session) :
  of_js store = Some state -> drawState store s = Done s.
Proof.
  unfold of_js, drawState. destruct store as [| | | | | | |f]; try discriminate.
  cbn [field].
  destruct (lookup_field "snake1" f) as [| | | | | |i1|] eqn:E1; try discriminate.
  destruct (lookup_field "snake2" f) as [| | | | | |i2|] eqn:E2;
    try (cbn [snake_of_js]; destruct (cells_of_js i1); discriminate).
  cbn [snake_of_js drawable_snake].
  destruct (cells_of_js i1) eqn:C1; [|discriminate].
  destruct (cells_of_js i2) eqn:C2; [|discriminate].
  destruct (dir_of_js _); [|discriminate].
  destruct (cell_of_js (lookup_field "food" f)) eqn:Ef; [|discriminate].
  intros _. rewrite (cells_drawable _ _ C1), (cells_drawable _ _ C2).
  destruct (lookup_field "food" f); try discriminate; cbn; rewrite andb_false_r;
    reflexivity.
Qed.

(** What [endSession] leaves, whether or not it throws on the store. *)
Lemma snake_endSession_spec (s : Session) :
  let s' := session_after_handler (endSession s) s in
  roleRef s' = NoRole /\ gamePhase s' = Idle /\ gamePhaseRef s' = Idle /\
  connected s' = false /\ channelRef s' = None /\ peerRef s' = None /\
  intervalRef s' = None /\ (tracked s -> intervals s' = ∅) /\
  timeouts s' = timeouts s /\ scores s' = scores s /\
  (forall state, of_js (gameStateRef s) = Some state ->
                 endSession s = Done s' /\
                 of_js (gameStateRef s') = Some (with_phase Idle state)).
Proof.
  assert (Hstop : forall t, intervalRef (stopInterval t) = None).
  { intros t. unfold stopInterval. destruct (intervalRef t) eqn:E; [reflexivity|exact E]. }
  assert (Hto : forall t, timeouts (stopInterval t) = timeouts t
                          /\ scores (stopInterval t) = scores t
                          /\ gameStateRef (stopInterval t) = gameStateRef t).
  { intros t. unfold stopInterval. destruct (intervalRef t); repeat split. }
  destruct (Hto s) as [Ht1 [Ht2 Ht3]].
  unfold endSession.
  cbn [gameStateRef set_phase set_roleRef set_connected set_peerRef set_channelRef].
  rewrite Ht3.
  destruct (set_prop (gameStateRef s) "phase" (phase_to_js Idle)) as [store|e] eqn:Eset.
  - assert (Hd : forall t, session_after_handler (drawState store t) s = t).
    { intros t. unfold drawState. destruct (_ && _); reflexivity. }
    cbv zeta. rewrite Hd.
    cbn [roleRef gamePhase gamePhaseRef connected channelRef peerRef intervalRef
           intervals timeouts scores gameStateRef set_gameStateRef set_phase set_roleRef
           set_connected set_peerRef set_channelRef].
    repeat (split; [first [reflexivity | apply Hstop | assumption]|]).
    split; [intros Htr; apply tracked_stopInterval, Htr|].
    split; [exact Ht1|]. split; [exact Ht2|].
    intros state Hst. destruct (set_phase_prop _ _ Idle Hst) as [store' [Hs1 Hs2]].
    rewrite Eset in Hs1. injection Hs1 as <-.
    split; [|exact Hs2]. eapply drawState_of_js, Hs2.
  - cbv zeta. cbn [session_after_handler].
    cbn [roleRef gamePhase gamePhaseRef connected channelRef peerRef intervalRef
           intervals timeouts scores gameStateRef set_gameStateRef set_phase set_roleRef
           set_connected set_peerRef set_channelRef].
    repeat (split; [first [reflexivity | apply Hstop | assumption]|]).
    split; [intros Htr; apply tracked_stopInterval, Htr|].
    split; [exact Ht1|]. split; [exact Ht2|].
    intros state Hst. destruct (set_phase_prop _ _ Idle Hst) as [store' [Hs1 _]].
    rewrite Eset in Hs1. discriminate.
Qed.

End SnakeEndSession.

(** ** The turn of the loop that ends a session *)

Section PongEndSession.
Import JS Pong.

(** The turn of the paddle game that ends the session: the handler and the
    effects after it. *)
Lemma pong_end_step (p : Session) :
  tracked p ->
  let p' := step EndSession p in
  roleRef p' = NoRole /\ gamePhaseRef p' = Idle /\ connected p' = false /\
  dataChannelRef p' = None /\ peerConnectionRef p' = None /\
  gameStateRef p' = to_js (fresh_state (ballSpeedRef p)) /\
  scoresRef p' = (num 0, num 0) /\ frames p' = ∅ /\
  timeouts p' = timeouts p /\ ballSpeed p' = ballSpeed p.
Proof.
  intros Ht. cbv zeta. unfold step. cbn [dispatch session_after].
  destruct (pong_endSession_spec p Ht)
    as [H1 [H2 [H3 [H4 [H5 [H6 [H7 [_ [H9 [H10 H11]]]]]]]]]].
  cbv zeta in H1, H2, H3, H4, H5, H6, H7, H9, H10, H11.
  unfold effects. rewrite H11.
  assert (Hq : Qeq_bool (ballSpeed p) (ballSpeed p) = true)
    by (apply Qeq_bool_iff; reflexivity).
  rewrite Hq, H3.
  destruct (Bool.eqb (connected p) false).
  - repeat (split; [assumption|]). assumption.
  - unfold connectedEffect.
    assert (He : tracked (endSession p)) by (apply pong_empty_tracked, H9).
    pose proof (pong_stopGameLoop_frames _ He) as Hf.
    assert (Hsame : forall t,
               roleRef (stopGameLoop t) = roleRef t /\
               gamePhaseRef (stopGameLoop t) = gamePhaseRef t /\
               connected (stopGameLoop t) = connected t /\
               dataChannelRef (stopGameLoop t) = dataChannelRef t /\
               peerConnectionRef (stopGameLoop t) = peerConnectionRef t /\
               gameStateRef (stopGameLoop t) = gameStateRef t /\
               scoresRef (stopGameLoop t) = scoresRef t /\
               timeouts (stopGameLoop t) = timeouts t /\
               ballSpeed (stopGameLoop t) = ballSpeed t).
    { intros t. unfold stopGameLoop. destruct (gameLoopRef t); cbn;
        repeat (split; [reflexivity|]); reflexivity. }
    destruct (Hsame (endSession p)) as [S1 [S2 [S3 [S4 [S5 [S6 [S7 [S8 S9]]]]]]]].
    rewrite S3, H3.
    rewrite S1, S2, S3, S4, S5, S6, S7, S8, S9.
    repeat (split; [assumption|]). assumption.
Qed.

(** A session without a pending frame: a frame that fires finds nothing
    to run. *)
Lemma pong_no_frame (h : positive) (r1 r2 : Q) (p : Session) :
  frames p = ∅ -> step (FrameFires h r1 r2) p = p.
Proof.
  intros Hf. unfold step. cbn [dispatch]. rewrite Hf.
  rewrite bool_decide_eq_false_2 by apply not_elem_of_empty.
  cbn [session_after]. apply pong_effects_id; reflexivity.
Qed.

End PongEndSession.

Section SnakeEndStep.
Import JS MultiSnake.

(** A session without a pending interval: an interval that fires finds
    nothing to run. *)
Lemma snake_no_interval (h : positive) (draws : list Q) (s : Session) :
  intervals s = ∅ -> dispatch (IntervalFires h draws) s = Done s.
Proof.
  intros Hf. cbn [dispatch]. rewrite Hf.
  rewrite bool_decide_eq_false_2 by apply not_elem_of_empty. reflexivity.
Qed.

(** One key of the host that is not Escape: what it does to the commanded
    direction, and to nothing else. *)
Lemma host_arrow_key (d : Direction) (s : Session) :
  roleRef s = Host ->
  handleKeyDown (arrow d) s =
  Done (if dir_eqb d (opposite (dir1Ref s)) then s else set_dir1Ref d s).
Proof.
  intros Hr. unfold handleKeyDown.
  assert (He : String.eqb (arrow d) "Escape" = false) by (destruct d; reflexivity).
  assert (Hk : host_key (arrow d) = Some d) by (destruct d; reflexivity).
  rewrite He, Hr, Hk. cbn [role_eqb].
  destruct (dir_eqb d (opposite (dir1Ref s))); cbn [negb].
  - rewrite Hr. reflexivity.
  - cbn [roleRef set_dir1Ref]. rewrite Hr. reflexivity.
Qed.

End SnakeEndStep.

(** ** The single-player snake *)

Section SingleSnake.
Import JS SnakeGame.

Lemma removelast_cons_length (A : Type) (a : A) (l : list A) :
  length (removelast (a :: l)) = length l.
Proof.
  revert a. induction l as [|b l IH]; intros a; [reflexivity|].
  change (removelast (a :: b :: l)) with (a :: removelast (b :: l)).
  cbn [length]. rewrite IH. reflexivity.
Qed.

Lemma removelast_NoDup (A : Type) (l : list A) : List.NoDup l -> List.NoDup (removelast l).
Proof.
  induction l as [|a l IH]; intros H; [exact H|].
  destruct l as [|b l]; [constructor|].
  change (removelast (a :: b :: l)) with (a :: removelast (b :: l)).
  inversion H as [|? ? Hn Hd]. subst. constructor.
  - intros Hin. apply Hn. apply removelast_In, Hin.
  - apply IH, Hd.
Qed.

Lemma off_board_false (c : MultiSnake.Cell) : off_board c = false -> on_board c.
Proof.
  unfold off_board, on_board, BOARD_SIZE. intros H.
  apply orb_false_iff in H. destruct H as [H H4].
  apply orb_false_iff in H. destruct H as [H H3].
  apply orb_false_iff in H. destruct H as [H1 H2].
  lia.
Qed.

(** The food is put on the board and on no cell of the body. *)
Lemma candidate_spec (draws : list Q) (body : list MultiSnake.Cell) (c : MultiSnake.Cell) :
  MultiSnake.unit_draws draws ->
  candidate draws body = Some c ->
  ~ In c body /\ on_board c.
Proof.
  induction draws as [|r|rx ry rest IH] using list_ind2; intros Hd H; try discriminate.
  cbn [candidate] in H.
  destruct (MultiSnake.occupies body _) eqn:Hocc.
  - apply IH; [|exact H]. unfold MultiSnake.unit_draws in *.
    inversion Hd as [|? ? _ Hd']. inversion Hd'. assumption.
  - injection H as <-. split; [apply occupies_false; exact Hocc|].
    unfold MultiSnake.unit_draws in Hd. inversion Hd as [|? ? [Hx0 Hx1] Hd'].
    inversion Hd' as [|? ? [Hy0 Hy1] _]. subst.
    split; cbn [MultiSnake.x MultiSnake.y]; apply random_below_range; auto; reflexivity.
Qed.

(** The three ways a step returns. *)
Lemma step_outcomes (draws : list Q) (s s' : State)
      (head : MultiSnake.Cell) (rest : list MultiSnake.Cell) :
  snake s = head :: rest ->
  step draws s = Done s' ->
  let next := next_head head (pendingDirection s) in
  ((off_board next = true \/ MultiSnake.occupies (snake s) next = true)
   /\ s' = set_running false (set_gameOver true s))
  \/ (off_board next = false /\ MultiSnake.occupies (snake s) next = false
      /\ MultiSnake.cell_eqb next (foodRef s) = false
      /\ s' = snakeEffect (set_snake (removelast (next :: snake s)) s))
  \/ (off_board next = false /\ MultiSnake.occupies (snake s) next = false
      /\ next = foodRef s
      /\ exists f,
          candidate draws (next :: snake s) = Some f
          /\ s' = snakeEffect
                    (set_snake (next :: snake s)
                       (set_speed (Z.max 80 (speed s - 6))
                          (set_food f (set_foodRef f (set_score (score s + 10) s)))))).
Proof.
  intros Hs Hstep. cbv zeta. unfold step in Hstep. rewrite Hs in Hstep. rewrite Hs.
  destruct (off_board _) eqn:Hoff.
  { injection Hstep as <-. left. split; [left; reflexivity|reflexivity]. }
  destruct (MultiSnake.occupies _ _) eqn:Hocc.
  { injection Hstep as <-. left. split; [right; reflexivity|reflexivity]. }
  destruct (MultiSnake.cell_eqb _ (foodRef s)) eqn:Hate; cbn [negb] in Hstep.
  - right. right. apply cell_eqb_eq in Hate.
    unfold placeFoodFromSnake in Hstep.
    destruct (candidate draws _) as [f|] eqn:Hc; [|discriminate].
    injection Hstep as <-.
    split; [reflexivity|]. split; [reflexivity|]. split; [exact Hate|].
    exists f. split; reflexivity.
  - right. left. injection Hstep as <-. repeat split.
Qed.

(** A step that does not return with a state leaves the run where it
    was. *)
Lemma step_not_done (draws : list Q) (s : State) :
  (forall s', step draws s <> Done s') -> state_after (step draws s) s = s.
Proof.
  intros H. unfold step in *.
  destruct (snake s) as [|head rest]; [reflexivity|].
  destruct (off_board _); [exfalso; eapply H; reflexivity|].
  destruct (MultiSnake.occupies _ _); [exfalso; eapply H; reflexivity|].
  destruct (negb _); [exfalso; eapply H; reflexivity|].
  unfold placeFoodFromSnake in *.
  destruct (candidate draws _); [exfalso; eapply H; reflexivity|reflexivity].
Qed.

(** What a key does: it sets the pending direction to a direction that is
    not the opposite of the applied one, or toggles [running], or resets,
    or does nothing. *)
Lemma handler_cases (key : string) (s : State) :
  (exists d, d <> MultiSnake.opposite (direction s)
             /\ handler key s = set_pendingDirection d s)
  \/ handler key s = set_running (negb (running s)) s
  \/ handler key s = set_running true (resetGame s)
  \/ handler key s = s.
Proof.
  unfold handler.
  destruct (String.eqb key "ArrowUp") eqn:E1.
  { apply String.eqb_eq in E1. subst key. cbn [String.eqb Ascii.eqb Bool.eqb andb].
    destruct (direction s) eqn:Ed; cbn [MultiSnake.dir_eqb negb];
      cbn [direction set_pendingDirection]; rewrite ?Ed; cbn [MultiSnake.dir_eqb negb];
      first [ right; right; right; reflexivity
            | left; eexists; split; [|reflexivity]; rewrite ?Ed; discriminate ]. }
  destruct (String.eqb key "ArrowDown") eqn:E2.
  { apply String.eqb_eq in E2. subst key. cbn [String.eqb Ascii.eqb Bool.eqb andb].
    destruct (direction s) eqn:Ed; cbn [MultiSnake.dir_eqb negb];
      cbn [direction set_pendingDirection]; rewrite ?Ed; cbn [MultiSnake.dir_eqb negb];
      first [ right; right; right; reflexivity
            | left; eexists; split; [|reflexivity]; rewrite ?Ed; discriminate ]. }
  destruct (String.eqb key "ArrowLeft") eqn:E3.
  { apply String.eqb_eq in E3. subst key. cbn [String.eqb Ascii.eqb Bool.eqb andb].
    destruct (direction s) eqn:Ed; cbn [MultiSnake.dir_eqb negb];
      cbn [direction set_pendingDirection]; rewrite ?Ed; cbn [MultiSnake.dir_eqb negb];
      first [ right; right; right; reflexivity
            | left; eexists; split; [|reflexivity]; rewrite ?Ed; discriminate ]. }
  destruct (String.eqb key "ArrowRight") eqn:E4.
  { apply String.eqb_eq in E4. subst key. cbn [String.eqb Ascii.eqb Bool.eqb andb].
    destruct (direction s) eqn:Ed; cbn [MultiSnake.dir_eqb negb];
      cbn [direction set_pendingDirection]; rewrite ?Ed; cbn [MultiSnake.dir_eqb negb];
      first [ right; right; right; reflexivity
            | left; eexists; split; [|reflexivity]; rewrite ?Ed; discriminate ]. }
  cbn [andb].
  destruct (String.eqb key " ") eqn:E5.
  { apply String.eqb_eq in E5. subst key. cbn [String.eqb Ascii.eqb Bool.eqb].
    right. left. reflexivity. }
  destruct (String.eqb key "r"); [right; right; left; reflexivity|].
  right. right. right. reflexivity.
Qed.

(** *** Body and food *)

Lemma reset_well_formed (s : State) (b : bool) : well_formed (set_running b (resetGame s)).
Proof.
  unfold well_formed, resetGame, snakeEffect. cbn.
  split; [repeat constructor; unfold BOARD_SIZE; cbn; lia|].
  split.
  { repeat constructor; cbn; intros H;
      repeat (destruct H as [H|H]; [discriminate|]); exact H. }
  split; [split; unfold BOARD_SIZE; cbn; lia|].
  split; [|reflexivity].
  intros H. repeat (destruct H as [H|H]; [discriminate|]). exact H.
Qed.

Lemma step_well_formed (draws : list Q) (s : State) :
  MultiSnake.unit_draws draws -> well_formed s -> well_formed (state_after (step draws s) s).
Proof.
  intros Hd Hwf.
  destruct (step draws s) as [s'| |] eqn:Hstep; cbn [state_after]; try exact Hwf.
  2:{ unfold step in Hstep. destruct (snake s); [injection Hstep as _ <-; exact Hwf|].
      destruct (off_board _); [discriminate|].
      destruct (MultiSnake.occupies _ _); [discriminate|].
      destruct (negb _); [discriminate|].
      unfold placeFoodFromSnake in Hstep. destruct (candidate _ _); discriminate. }
  destruct (snake s) as [|head rest] eqn:Hs.
  { unfold step in Hstep. rewrite Hs in Hstep. discriminate. }
  destruct Hwf as [Hb [Hn [Hf [Hnf Href]]]].
  pose proof Hb as Hb'. pose proof Hn as Hn'. pose proof Hnf as Hnf'.
  rewrite Hs in Hb', Hn', Hnf'. clear Hb Hn Hnf.
  rename Hb' into Hb, Hn' into Hn, Hnf' into Hnf.
  destruct (step_outcomes draws s s' head rest Hs Hstep)
    as [[_ ->]|[[Hoff [Hocc [Hate ->]]]|[Hoff [Hocc [Hate [f [Hc ->]]]]]]].
  - unfold well_formed. cbn [set_running set_gameOver snake food foodRef]. rewrite Hs.
    exact (conj Hb (conj Hn (conj Hf (conj Hnf Href)))).
  - apply off_board_false in Hoff. apply occupies_false in Hocc. rewrite Hs in Hocc.
    unfold well_formed. cbn [snakeEffect set_snake set_direction snake food foodRef].
    rewrite Hs.
    split.
    { apply List.Forall_forall. intros c Hin. apply removelast_In in Hin.
      destruct Hin as [<-|Hin]; [exact Hoff|].
      rewrite List.Forall_forall in Hb. apply Hb, Hin. }
    split; [apply removelast_NoDup; constructor; assumption|].
    split; [exact Hf|]. split; [|exact Href].
    intros Hin. apply removelast_In in Hin. destruct Hin as [Heq|Hin]; [|exact (Hnf Hin)].
    rewrite Href in Hate. rewrite Heq in Hate. rewrite cell_eqb_refl in Hate. discriminate.
  - apply off_board_false in Hoff. apply occupies_false in Hocc.
    destruct (candidate_spec draws _ f Hd Hc) as [Hfree Hfb].
    rewrite Hs in Hocc, Hfree.
    unfold well_formed.
    cbn [snakeEffect set_snake set_direction set_speed set_food set_foodRef set_score
           snake food foodRef].
    rewrite Hs.
    split; [constructor; assumption|].
    split; [constructor; assumption|].
    split; [exact Hfb|]. split; [exact Hfree|reflexivity].
Qed.

Lemma dispatch_well_formed (ev : Event) (s : State) :
  match ev with Interval draws => MultiSnake.unit_draws draws | _ => True end ->
  well_formed s -> well_formed (state_after (dispatch ev s) s).
Proof.
  intros Hd Hwf. destruct ev as [draws|key| | |]; cbn [dispatch].
  - destruct (running s); [apply step_well_formed; assumption|exact Hwf].
  - cbn [state_after].
    destruct (handler_cases key s) as [[d [_ ->]] | [-> | [-> | ->]]];
      [exact Hwf|exact Hwf|apply reset_well_formed|exact Hwf].
  - cbn [state_after]. pose proof (reset_well_formed s (running s)) as H. exact H.
  - destruct (negb (running s) && negb (gameOver s)); exact Hwf.
  - destruct (gameOver s); [apply reset_well_formed|exact Hwf].
Qed.

Lemma run_well_formed (evs : list Event) (s : State) :
  unit_events evs -> well_formed s -> well_formed (run evs s).
Proof.
  revert s. induction evs as [|ev evs IH]; intros s Hd Hwf; [exact Hwf|].
  cbn [run]. inversion Hd as [|? ? Hev Hrest]. subst.
  apply IH; [exact Hrest|]. apply dispatch_well_formed; assumption.
Qed.

Lemma initial_well_formed : well_formed initial_state.
Proof. exact (reset_well_formed initial_state false). Qed.

(** *** Score, period and length *)

Lemma reset_tally (s : State) (b : bool) : tally (set_running b (resetGame s)).
Proof.
  unfold tally, eaten. split; [|split]; vm_compute; [discriminate|reflexivity|reflexivity].
Qed.

Lemma step_tally (draws : list Q) (s : State) :
  tally s -> tally (state_after (step draws s) s).
Proof.
  intros Ht.
  destruct (step draws s) as [s'| |] eqn:Hstep; cbn [state_after]; try exact Ht.
  2:{ unfold step in Hstep. destruct (snake s); [injection Hstep as _ <-; exact Ht|].
      destruct (off_board _); [discriminate|].
      destruct (MultiSnake.occupies _ _); [discriminate|].
      destruct (negb _); [discriminate|].
      unfold placeFoodFromSnake in Hstep. destruct (candidate _ _); discriminate. }
  destruct (snake s) as [|head rest] eqn:Hs.
  { unfold step in Hstep. rewrite Hs in Hstep. discriminate. }
  destruct (step_outcomes draws s s' head rest Hs Hstep)
    as [[_ ->]|[[_ [_ [_ ->]]]|[_ [_ [_ [f [_ ->]]]]]]].
  - exact Ht.
  - unfold tally, eaten in *.
    cbn [snakeEffect set_snake set_direction snake score speed].
    rewrite removelast_cons_length. exact Ht.
  - unfold tally, eaten, INITIAL_SPEED in *.
    cbn [snakeEffect set_snake set_direction set_speed set_food set_foodRef set_score
           snake score speed].
    rewrite Hs in Ht |- *. cbn [length] in *. lia.
Qed.

Lemma dispatch_tally (ev : Event) (s : State) :
  tally s -> tally (state_after (dispatch ev s) s).
Proof.
  intros Ht. destruct ev as [draws|key| | |]; cbn [dispatch].
  - destruct (running s); [apply step_tally; assumption|exact Ht].
  - cbn [state_after].
    destruct (handler_cases key s) as [[d [_ ->]] | [-> | [-> | ->]]];
      [exact Ht|exact Ht|apply reset_tally|exact Ht].
  - cbn [state_after]. exact (reset_tally s (running s)).
  - destruct (negb (running s) && negb (gameOver s)); exact Ht.
  - destruct (gameOver s); [apply reset_tally|exact Ht].
Qed.

Lemma run_tally (evs : list Event) (s : State) : tally s -> tally (run evs s).
Proof.
  revert s. induction evs as [|ev evs IH]; intros s Ht; [exact Ht|].
  cbn [run]. apply IH, dispatch_tally, Ht.
Qed.

(** *** The direction *)

(** Two cells from a cell in one direction is not that cell, and one cell
    in a direction that is not the opposite does not lead back. *)
Lemma next_head_twice (c : MultiSnake.Cell) (d : MultiSnake.Direction) :
  next_head (next_head c d) d <> c.
Proof.
  destruct c as [cx cy], d; unfold next_head, OFFSETS; cbn; intros H; injection H; lia.
Qed.

Lemma next_head_back (c : MultiSnake.Cell) (d d' : MultiSnake.Direction) :
  d' <> MultiSnake.opposite d -> next_head (next_head c d) d' <> c.
Proof.
  intros Hne. destruct c as [cx cy], d, d'; unfold next_head, OFFSETS; cbn;
    intros H; injection H; try lia; intros; apply Hne; reflexivity.
Qed.

Lemma reset_heading (s : State) (b : bool) : heading (set_running b (resetGame s)).
Proof.
  unfold heading, resetGame, snakeEffect. cbn.
  split; [reflexivity|]. split; discriminate.
Qed.

Lemma step_heading (draws : list Q) (s : State) :
  heading s -> heading (state_after (step draws s) s).
Proof.
  intros Hh.
  destruct (step draws s) as [s'| |] eqn:Hstep; cbn [state_after]; try exact Hh.
  2:{ unfold step in Hstep. destruct (snake s); [injection Hstep as _ <-; exact Hh|].
      destruct (off_board _); [discriminate|].
      destruct (MultiSnake.occupies _ _); [discriminate|].
      destruct (negb _); [discriminate|].
      unfold placeFoodFromSnake in Hstep. destruct (candidate _ _); discriminate. }
  unfold heading in Hh.
  destruct (snake s) as [|head [|neck rest]] eqn:Hs; try contradiction.
  assert (Hopp : forall d : MultiSnake.Direction, d <> MultiSnake.opposite d)
    by (intros []; discriminate).
  destruct (step_outcomes draws s s' head (neck :: rest) Hs Hstep)
    as [[_ ->]|[[_ [_ [_ ->]]]|[_ [_ [_ [f [_ ->]]]]]]].
  - unfold heading. cbn [set_running set_gameOver snake direction pendingDirection].
    rewrite Hs. exact Hh.
  - unfold heading.
    cbn [snakeEffect set_snake set_direction snake direction pendingDirection].
    rewrite Hs.
    change (removelast (next_head head (pendingDirection s) :: head :: neck :: rest))
      with (next_head head (pendingDirection s) :: head :: removelast (neck :: rest)).
    split; [reflexivity|]. split; [apply Hopp|apply next_head_twice].
  - unfold heading.
    cbn [snakeEffect set_snake set_direction set_speed set_food set_foodRef set_score
           snake direction pendingDirection].
    rewrite Hs.
    split; [reflexivity|]. split; [apply Hopp|apply next_head_twice].
Qed.

Lemma dispatch_heading (ev : Event) (s : State) :
  heading s -> heading (state_after (dispatch ev s) s).
Proof.
  intros Hh. destruct ev as [draws|key| | |]; cbn [dispatch].
  - destruct (running s); [apply step_heading; assumption|exact Hh].
  - cbn [state_after].
    destruct (handler_cases key s) as [[d [Hd ->]] | [-> | [-> | ->]]];
      [|exact Hh|apply reset_heading|exact Hh].
    unfold heading in *. cbn [set_pendingDirection snake direction pendingDirection].
    destruct (snake s) as [|head [|neck rest]]; try contradiction.
    destruct Hh as [Hhead _]. split; [exact Hhead|]. split; [exact Hd|].
    rewrite Hhead. apply next_head_back, Hd.
  - cbn [state_after]. exact (reset_heading s (running s)).
  - destruct (negb (running s) && negb (gameOver s)); exact Hh.
  - destruct (gameOver s); [apply reset_heading|exact Hh].
Qed.

Lemma run_heading (evs : list Event) (s : State) : heading s -> heading (run evs s).
Proof.
  revert s. induction evs as [|ev evs IH]; intros s Hh; [exact Hh|].
  cbn [run]. apply IH, dispatch_heading, Hh.
Qed.

End SingleSnake.

(** ** The token of the codec *)

Section CodecToken.
Import JS Codec.

#[local] Ltac Zify.zify_post_hook ::= Z.to_euclidean_division_equations.

Lemma url_chars_checked :
  forallb (fun n => is_url_char (to_url (b64_char n))) (map N.of_nat (seq 0 64)) = true.
Proof. vm_compute. reflexivity. Qed.

Lemma to_url_is_url_char (c : ascii) : sextet_char c -> is_url_char (to_url c) = true.
Proof.
  intros [n [Hn ->]]. pose proof url_chars_checked as H.
  rewrite forallb_forall in H. apply (H n).
  apply in_map_iff. exists (N.to_nat n). split.
  - apply N2Nat.id.
  - apply in_seq. lia.
Qed.

(** Four characters for every three bytes, two for a rest of one byte and
    three for a rest of two. *)
Lemma b64_body_len (s : Text) : length (b64_body s) = ((4 * length s + 2) / 3)%nat.
Proof.
  induction s as [|a|a b|a b c l IH] using list_ind3; cbn [b64_body length].
  - reflexivity.
  - reflexivity.
  - reflexivity.
  - rewrite IH. lia.
Qed.

(** The token is the base64 body in the URL alphabet: the padding that
    [btoa] puts on is all that the last [replace] takes off. *)
Lemma token_is_body (binary : Text) :
  strip_trailing_eq (map to_url (btoa binary)) = map to_url (b64_body binary).
Proof.
  unfold btoa.
  destruct (pad_spec (b64_body binary) (b64_body_length binary)) as [k [Hpad _]].
  rewrite Hpad, map_app, to_url_repeat.
  apply strip_trailing_eq_spec.
  unfold no_eq. apply List.Forall_map.
  eapply List.Forall_impl; [|apply b64_body_chars]. apply to_url_no_eq.
Qed.

(** *** What the decoder refuses *)

Lemma foreign_from_url (c : ascii) :
  foreign c = true ->
  from_url c = c /\ is_whitespace c = false /\ Ascii.eqb c eq_char = false
  /\ b64_index c = None.
Proof.
  unfold foreign. intros H.
  apply andb_prop in H. destruct H as [H H3].
  apply andb_prop in H. destruct H as [H1 H2].
  apply negb_true_iff in H1, H2.
  assert (Hc : from_url c = c).
  { unfold from_url in *.
    destruct (Ascii.eqb c "-"%char) eqn:E1.
    - apply Ascii.eqb_eq in E1. subst c. discriminate.
    - destruct (Ascii.eqb c "_"%char) eqn:E2; [|reflexivity].
      apply Ascii.eqb_eq in E2. subst c. discriminate. }
  rewrite Hc in H3. repeat (split; [assumption|]).
  destruct (b64_index c); [discriminate|reflexivity].
Qed.

Lemma pad_loop_keeps (fuel : nat) (l : Text) (c : ascii) :
  In c l -> In c (pad_loop fuel l).
Proof.
  revert l. induction fuel as [|fuel IH]; intros l H; [exact H|].
  cbn [pad_loop]. destruct (length l mod 4 =? 0)%nat; [exact H|].
  apply IH. apply in_or_app. left. exact H.
Qed.

Lemma strip_padding_keeps (l : Text) (c : ascii) :
  Ascii.eqb c eq_char = false -> In c l -> In c (strip_padding l).
Proof.
  intros Hc H. unfold strip_padding.
  destruct (length l mod 4 =? 0)%nat; [|exact H].
  destruct (rev l) as [|e1 [|e2 rest]] eqn:E; [exact H|exact H|].
  assert (Hin : In c (e1 :: e2 :: rest)) by (rewrite <- E; apply in_rev in H; exact H).
  destruct (Ascii.eqb e1 eq_char) eqn:E1; [|exact H].
  apply Ascii.eqb_eq in E1.
  destruct Hin as [->|Hin]; [rewrite E1 in Hc; discriminate|].
  destruct (Ascii.eqb e2 eq_char) eqn:E2.
  - apply Ascii.eqb_eq in E2.
    destruct Hin as [->|Hin]; [rewrite E2 in Hc; discriminate|].
    apply in_rev in Hin. exact Hin.
  - apply in_rev in Hin. exact Hin.
Qed.

Lemma sextets_none (l : Text) (c : ascii) :
  In c l -> b64_index c = None -> sextets l = None.
Proof.
  intros H Hc. induction l as [|d l IH]; [contradiction|].
  cbn [sextets]. destruct H as [->|H].
  - rewrite Hc. reflexivity.
  - rewrite (IH H). destruct (b64_index d); reflexivity.
Qed.

Lemma atob_foreign (l : Text) (c : ascii) :
  In c l -> is_whitespace c = false -> Ascii.eqb c eq_char = false ->
  b64_index c = None -> atob l = Throw InvalidCharacterError.
Proof.
  intros H Hw He Hi. unfold atob.
  assert (H1 : In c (List.filter (fun c => negb (is_whitespace c)) l)).
  { apply filter_In. split; [exact H|]. rewrite Hw. reflexivity. }
  apply (strip_padding_keeps _ _ He) in H1.
  destruct (length _ mod 4 =? 1)%nat; [reflexivity|].
  rewrite (sextets_none _ c H1 Hi). reflexivity.
Qed.

End CodecToken.

(** ** Timers, speed and the guest's frame in the paddle game *)

Section OneTimer.

(** A set of handles all of which a ref names is empty or holds the one
    handle. *)
Lemma named_handles (X : gset positive) (r : option positive) :
  (forall h, h ∈ X -> r = Some h) ->
  (size X <= 1)%nat /\ (X = ∅ \/ exists h, r = Some h /\ X = {[h]}).
Proof.
  intros H. destruct (set_choose_or_empty X) as [[h Hh]|He].
  - assert (HX : X = {[h]}).
    { apply set_eq. intros h'. rewrite elem_of_singleton. split.
      - intros Hh'. apply H in Hh'. apply H in Hh. congruence.
      - intros ->. exact Hh. }
    split.
    + rewrite HX, size_singleton. constructor.
    + right. exists h. split; [apply H, Hh|exact HX].
  - apply leibniz_equiv in He. subst X. split.
    + rewrite size_empty. repeat constructor.
    + left. reflexivity.
Qed.

End OneTimer.

Section PongSpeed.
Import JS Pong.
#[local] Open Scope Q_scope.

#[local] Ltac cases :=
  match goal with
  | |- context [match ?x with _ => _ end] => destruct x eqn:?
  | |- context [if ?x then _ else _] => destruct x eqn:?
  end.

Lemma Qeq_bool_apart (a b : Q) : Qeq_bool a b = false -> a < b \/ b < a.
Proof.
  intros H. apply Qeq_bool_neq in H.
  destruct (Q_dec a b) as [[Hlt|Hgt]|Heq]; [left; exact Hlt|right; exact Hgt|contradiction].
Qed.

#[local] Ltac to_props :=
  repeat match goal with
    | H : Qle_bool _ _ = true |- _ => apply Qle_bool_iff in H
    | H : Qle_bool _ _ = false |- _ => apply Qle_bool_false in H
    | H : Qlt_bool _ _ = true |- _ => apply Qlt_bool_true in H
    | H : Qlt_bool _ _ = false |- _ => apply Qlt_bool_false in H
    | H : Qeq_bool _ _ = true |- _ => apply Qeq_bool_iff in H
    | H : Qeq_bool _ _ = false |- _ => apply Qeq_bool_apart in H; destruct H
    end.

Lemma Math_abs_abs (a : Q) : Math_abs (Math_abs a) == Math_abs a.
Proof. unfold Math_abs. repeat cases; to_props; lra. Qed.

Lemma Math_abs_opp (a : Q) : Math_abs (- a) == Math_abs a.
Proof. unfold Math_abs. repeat cases; to_props; lra. Qed.

Lemma Math_abs_flip (a : Q) : Math_abs (a * -1) == Math_abs a.
Proof. unfold Math_abs. repeat cases; to_props; lra. Qed.

Lemma bounce_walls_speed (b : Ball) :
  x (bounce_walls b) = x b /\ vx (bounce_walls b) = vx b
  /\ Math_abs (vy (bounce_walls b)) == Math_abs (vy b).
Proof.
  unfold bounce_walls. destruct (_ || _); cbn [x vx vy].
  - split; [reflexivity|]. split; [reflexivity|apply Math_abs_flip].
  - split; [reflexivity|]. split; reflexivity.
Qed.

Lemma hit_paddle1_speed (p1 : Q) (b : Ball) :
  vy (hit_paddle1 p1 b) = vy b
  /\ Math_abs (vx (hit_paddle1 p1 b)) == Math_abs (vx b).
Proof.
  unfold hit_paddle1. destruct (_ && _); cbn [vx vy].
  - split; [reflexivity|apply Math_abs_abs].
  - split; reflexivity.
Qed.

Lemma hit_paddle2_speed (p2 : Q) (b : Ball) :
  vy (hit_paddle2 p2 b) = vy b
  /\ Math_abs (vx (hit_paddle2 p2 b)) == Math_abs (vx b).
Proof.
  unfold hit_paddle2. destruct (_ && _); cbn [vx vy].
  - split; [reflexivity|]. rewrite Math_abs_opp. apply Math_abs_abs.
  - split; reflexivity.
Qed.

(** Walls and paddles turn the ball and do not change how fast it is. *)
Lemma bounces_speed (p1 p2 : Q) (b : Ball) :
  let b' := hit_paddle2 p2 (hit_paddle1 p1 (bounce_walls (move_ball b))) in
  Math_abs (vx b') == Math_abs (vx b) /\ Math_abs (vy b') == Math_abs (vy b).
Proof.
  cbv zeta.
  destruct (hit_paddle2_speed p2 (hit_paddle1 p1 (bounce_walls (move_ball b)))) as [A1 A2].
  destruct (hit_paddle1_speed p1 (bounce_walls (move_ball b))) as [B1 B2].
  destruct (bounce_walls_speed (move_ball b)) as [_ [C1 C2]].
  rewrite A2, B2, C1, A1, B1, C2. split; reflexivity.
Qed.

Lemma resetBall_speed (direction r speed : Q) (g : GameState) :
  direction = 1 \/ direction = -1 ->
  Math_abs (vx (ball (resetBall direction r speed g))) == Math_abs speed
  /\ Math_abs (vy (ball (resetBall direction r speed g))) == Math_abs speed / 2.
Proof.
  intros Hd. unfold resetBall. cbn [with_ball ball vx vy].
  change (speed / 2) with (speed * (1 # 2)).
  change (Math_abs speed / 2) with (Math_abs speed * (1 # 2)).
  unfold Math_abs.
  destruct Hd as [-> | ->]; repeat cases; to_props; lra.
Qed.

(** One frame of the playing host: without a point the ball is as fast as
    it was in each direction; with a point it has the speed that is set. *)
Lemma physics_speed (speed r1 r2 : Q) (g : GameState) :
  let g' := physics speed r1 r2 g in
  (score1 g' == score1 g /\ score2 g' == score2 g ->
   Math_abs (vx (ball g')) == Math_abs (vx (ball g))
   /\ Math_abs (vy (ball g')) == Math_abs (vy (ball g)))
  /\ (~ (score1 g' == score1 g /\ score2 g' == score2 g) ->
      Math_abs (vx (ball g')) == Math_abs speed
      /\ Math_abs (vy (ball g')) == Math_abs speed / 2).
Proof.
  unfold physics.
  pose proof (bounces_speed (paddle1Y g) (paddle2Y g) (ball g)) as Hb.
  cbv zeta in Hb.
  set (b := hit_paddle2 _ (hit_paddle1 _ (bounce_walls (move_ball (ball g))))) in *.
  clearbody b. cbv zeta.
  cbn [with_ball ball score1 score2 paddle1Y paddle2Y].
  destruct (Qlt_bool (x b) 0) eqn:E1.
  - match goal with |- context [resetBall 1 r1 speed ?g0] =>
      pose proof (resetBall_speed 1 r1 speed g0 (or_introl eq_refl)) as Hr1;
      set (g1 := resetBall 1 r1 speed g0) in * end.
    assert (Hs1 : score1 g1 = score1 g /\ score2 g1 = score2 g + 1) by (split; reflexivity).
    destruct Hs1 as [Hs1 Hs2].
    destruct (Qlt_bool CANVAS_WIDTH (x (ball g1))) eqn:E2.
    + match goal with |- context [resetBall (-1) r2 speed ?g0] =>
        pose proof (resetBall_speed (-1) r2 speed g0 (or_intror eq_refl)) as Hr2 end.
      split; [|intros _; exact Hr2].
      intros [_ H]. exfalso.
      unfold resetBall in H. cbn [with_ball with_score1 score2] in H.
      rewrite Hs2 in H. lra.
    + split; [|intros _; exact Hr1].
      intros [_ H]. exfalso. rewrite Hs2 in H. lra.
  - cbn [with_ball ball].
    destruct (Qlt_bool CANVAS_WIDTH (x b)) eqn:E2.
    + match goal with |- context [resetBall (-1) r1 speed ?g0] =>
        pose proof (resetBall_speed (-1) r1 speed g0 (or_intror eq_refl)) as Hr2 end.
      split; [|intros _; exact Hr2].
      intros [H _]. exfalso.
      unfold resetBall in H. cbn [with_ball with_score1 score1] in H. lra.
    + cbn [ball score1 score2]. split; [intros _; exact Hb|].
      intros H. exfalso. apply H. split; reflexivity.
Qed.

(** The effect on [ballSpeed] at the host: the ball goes on in the
    direction it had, at the new speed. *)
Lemma ballSpeedEffect_host (s : Session) (state : GameState) :
  roleRef s = Host ->
  of_js (gameStateRef s) = Some state ->
  exists b',
    ballSpeedEffect s
    = send_if_open (msg_settings (ballSpeed s))
        (set_gameStateRef (to_js (with_ball b' state))
           (set_ballSpeedRef (ballSpeed s) s))
    /\ x b' = x (ball state) /\ y b' = y (ball state)
    /\ (0 <= vx (ball state) -> vx b' == ballSpeed s)
    /\ (vx (ball state) < 0 -> vx b' == - ballSpeed s)
    /\ (0 <= vy (ball state) -> vy b' == ballSpeed s / 2)
    /\ (vy (ball state) < 0 -> vy b' == - (ballSpeed s / 2)).
Proof.
  intros Hr Hs. unfold ballSpeedEffect.
  cbn [roleRef gameStateRef ballSpeed set_ballSpeedRef]. rewrite Hr, Hs.
  cbn [role_eqb]. eexists. split; [reflexivity|].
  cbn [x y vx vy]. split; [reflexivity|]. split; [reflexivity|].
  change (ballSpeed s / 2) with (ballSpeed s * (1 # 2)).
  unfold Math_sign.
  set (v := vx (ball state)). set (w := vy (ball state)).
  destruct (Qlt_bool 0 v) eqn:E1, (Qlt_bool v 0) eqn:E2, (Qeq_bool w 0) eqn:E3,
           (Qlt_bool 0 w) eqn:E4, (Qlt_bool w 0) eqn:E5;
    repeat match goal with
      | |- context [Qeq_bool ?a ?b] =>
          let r := eval vm_compute in (Qeq_bool a b) in change (Qeq_bool a b) with r
      | |- context [Qlt_bool ?a ?b] =>
          let r := eval vm_compute in (Qlt_bool a b) in change (Qlt_bool a b) with r
      end;
    cbv iota; to_props; repeat split; intros Hsign; lra.
Qed.

Lemma ballSpeedEffect_other (s : Session) :
  roleRef s <> Host -> ballSpeedEffect s = set_ballSpeedRef (ballSpeed s) s.
Proof.
  intros Hr. unfold ballSpeedEffect. cbn [roleRef set_ballSpeedRef].
  destruct (roleRef s); [reflexivity|contradiction|reflexivity].
Qed.

(** *** The guest's frame *)

Lemma guest_frame_spec (s : Session) :
  gameStateRef (guest_frame s) = gameStateRef s
  /\ scoresRef (guest_frame s) = scoresRef s
  /\ spritesRef (guest_frame s) = spritesRef s
  /\ frames (guest_frame s) = frames s
  /\ outbox (guest_frame s)
     = outbox s
       ++ match dataChannelRef s with
          | Some Open =>
              (if up_pressed (keysRef s) then [msg_input "up"] else [])
              ++ (if down_pressed (keysRef s) then [msg_input "down"] else [])
          | _ => []
          end.
Proof.
  unfold guest_frame.
  destruct (dataChannelRef s) as [[]|]; cbn; rewrite ?app_nil_r;
    try (repeat (split; [reflexivity|]); reflexivity).
  destruct (up_pressed (keysRef s)); cbn;
    destruct (down_pressed (keysRef s)); cbn; rewrite ?app_nil_r, <- ?app_assoc;
    repeat (split; [reflexivity|]); reflexivity.
Qed.

End PongSpeed.

(** ** A player who only joins *)

Section Joiner.
Import JS MultiSnake.

#[local] Ltac cases :=
  match goal with
  | |- context [match ?x with _ => _ end] => destruct x eqn:?
  | |- context [if ?x then _ else _] => destruct x eqn:?
  end.

Lemma stepGame_keeps_role (draws : list Q) (s : Session) :
  roleRef (session_after_handler (stepGame draws s) s) = roleRef s
  /\ dir2Ref (session_after_handler (stepGame draws s) s) = dir2Ref s.
Proof.
  pose proof (stepGame_frame draws s) as H. cbv zeta in H.
  split; apply H.
Qed.

Lemma endSession_keeps_dir2 (s : Session) :
  roleRef (session_after_handler (endSession s) s) = NoRole
  /\ dir2Ref (session_after_handler (endSession s) s) = dir2Ref s.
Proof.
  unfold endSession, drawState, stopInterval.
  repeat cases; cbn [session_after_handler]; split; reflexivity.
Qed.

Lemma tick_keeps_role (v : Z) (s : Session) :
  roleRef (tick v s) = roleRef s /\ dir2Ref (tick v s) = dir2Ref s.
Proof.
  unfold tick, send_if_open, stopInterval.
  repeat cases; split; reflexivity.
Qed.

Lemma startCountdown_keeps_role (v : Z) (s : Session) :
  roleRef (startCountdown v s) = roleRef s /\ dir2Ref (startCountdown v s) = dir2Ref s.
Proof.
  unfold startCountdown.
  match goal with |- context [tick v ?t] => destruct (tick_keeps_role v t) as [H1 H2] end.
  rewrite H1, H2. destruct (countdownTimerRef s); split; reflexivity.
Qed.

Lemma resetGameState_dir2 (draws : list Q) (s : Session) :
  roleRef (session_after_handler (resetGameState draws s) s) = roleRef s
  /\ (dir2Ref s = dir_to_js Left ->
      dir2Ref (session_after_handler (resetGameState draws s) s) = dir_to_js Left).
Proof.
  unfold resetGameState. destruct (placeFood _ _ _); cbn [session_after_handler].
  - split; [reflexivity|]. intros _. reflexivity.
  - split; [reflexivity|]. intros H. exact H.
Qed.

Lemma onmessage_joiner (message : JSValue) (s : Session) :
  roleRef s <> Host ->
  roleRef (session_after_handler (onmessage_parsed message s) s) = roleRef s
  /\ dir2Ref (session_after_handler (onmessage_parsed message s) s) = dir2Ref s.
Proof.
  intros Hr. unfold onmessage_parsed.
  destruct (get_prop message "type") as [type|e]; [|split; reflexivity].
  destruct (is_str type "gameState" && role_eqb (roleRef s) Guest).
  { unfold applyStateFromHost, updateScores, and_then, drawState.
    destruct (get_prop (field message "state") "score1"),
             (get_prop (field message "state") "score2");
      cbn [session_after_handler]; try (split; reflexivity).
    cases; cbn [session_after_handler]; split; reflexivity. }
  assert (Hh : role_eqb (roleRef s) Host = false)
    by (destruct (roleRef s); [reflexivity|contradiction|reflexivity]).
  rewrite Hh, andb_false_r.
  repeat cases; cbn [session_after_handler]; split; reflexivity.
Qed.

Lemma handleKeyDown_joiner (key : string) (s : Session) :
  roleRef s <> Host ->
  roleRef (session_after_handler (handleKeyDown key s) s) <> Host
  /\ dir2Ref (session_after_handler (handleKeyDown key s) s) = dir2Ref s.
Proof.
  intros Hr. unfold handleKeyDown.
  destruct (String.eqb key "Escape").
  { destruct (endSession_keeps_dir2 s) as [-> ->]. split; [discriminate|reflexivity]. }
  assert (Hh : role_eqb (roleRef s) Host = false)
    by (destruct (roleRef s); [reflexivity|contradiction|reflexivity]).
  rewrite Hh. unfold send_unchecked.
  repeat cases; cbn [session_after_handler]; split; first [exact Hr | reflexivity].
Qed.

(** No event but the creation of a game makes the player the host or
    changes the direction it holds for the second snake. *)
Lemma joiner_dispatch (ev : Event) (s : Session) :
  match ev with CreateGame _ => False | _ => True end ->
  roleRef s <> Host -> dir2Ref s = dir_to_js Left ->
  roleRef (session_after (dispatch ev s) s) <> Host
  /\ dir2Ref (session_after (dispatch ev s) s) = dir_to_js Left.
Proof.
  intros Hev Hr Hd. unfold session_after.
  assert (Hh : role_eqb (roleRef s) Host = false)
    by (destruct (roleRef s); [reflexivity|contradiction|reflexivity]).
  destruct ev; cbn [dispatch]; try contradiction.
  - (* IncomingOffer *)
    destruct (role_eqb (roleRef s) NoRole); cbn [session_after_handler];
      [split; [discriminate|exact Hd]|split; assumption].
  - (* DataChannel *)
    destruct (roleRef s) eqn:Er, (peerRef s); cbn [session_after_handler];
      try (split; [rewrite Er; discriminate|exact Hd]);
      split; [cbn; rewrite Er; discriminate|exact Hd].
  - (* ChannelOpen *)
    destruct (channelRef s); cbn [session_after_handler]; [|split; assumption].
    unfold onopen. cbn [roleRef set_phase set_connected set_channelRef].
    rewrite Hh. cbn [session_after_handler]. split; assumption.
  - (* ChannelClose *)
    destruct (channelRef s); cbn [session_after_handler]; [|split; assumption].
    unfold onclose, stopInterval. cases; split; assumption.
  - (* Message *)
    destruct (channelRef s) as [[]|]; try (split; assumption).
    destruct parsed as [message|e]; [|split; assumption].
    destruct (onmessage_joiner message s Hr) as [-> ->]. split; assumption.
  - (* TimeoutFires *)
    destruct (timeouts s !! h); cbn [session_after_handler]; [|split; assumption].
    match goal with |- context [tick ?v ?t] => destruct (tick_keeps_role v t) as [-> ->] end.
    split; assumption.
  - (* IntervalFires *)
    destruct (bool_decide (h ∈ intervals s)); [|split; assumption].
    destruct (stepGame_keeps_role draws s) as [-> ->]. split; assumption.
  - (* KeyDown *)
    destruct (handleKeyDown_joiner key s Hr) as [H1 ->]. split; assumption.
  - (* Restart *)
    destruct (phase_eqb (gamePhase s) Over); [|split; assumption].
    unfold restart, and_then.
    destruct (resetGameState_dir2 draws s) as [H1 H2]. specialize (H2 Hd).
    destruct (resetGameState draws s) as [s1|s1|e s1|]; cbn [session_after_handler] in *.
    + rewrite H1, Hh. split; [rewrite H1; exact Hr|exact H2].
    + split; [rewrite H1; exact Hr|exact H2].
    + split; [rewrite H1; exact Hr|exact H2].
    + split; assumption.
  - (* EndSession *)
    destruct (endSession_keeps_dir2 s) as [-> ->]. split; [discriminate|exact Hd].
Qed.

Lemma joiner_run (evs : list Event) (s : Session) :
  joins_only evs ->
  roleRef s <> Host -> dir2Ref s = dir_to_js Left ->
  roleRef (run evs s) <> Host /\ dir2Ref (run evs s) = dir_to_js Left.
Proof.
  revert s. induction evs as [|ev evs IH]; intros s Hj Hr Hd; [split; assumption|].
  cbn [run]. inversion Hj as [|? ? Hev Hrest]. subst.
  destruct (joiner_dispatch ev s Hev Hr Hd) as [H1 H2].
  apply IH; assumption.
Qed.

(** With "left" held for the second snake, the key for "right" passes the
    filter of no role. *)
Lemma right_key_filtered (key : string) (s : Session) :
  key = "d"%string \/ key = "D"%string ->
  roleRef s <> Host -> dir2Ref s = dir_to_js Left ->
  handleKeyDown key s = Done s.
Proof.
  intros Hk Hr Hd. unfold handleKeyDown.
  assert (Hh : role_eqb (roleRef s) Host = false)
    by (destruct (roleRef s); [reflexivity|contradiction|reflexivity]).
  destruct Hk as [-> | ->]; cbn [String.eqb Ascii.eqb Bool.eqb];
    rewrite Hh; cbn [guest_key String.eqb Ascii.eqb Bool.eqb orb];
    rewrite Hd; destruct (role_eqb (roleRef s) Guest); reflexivity.
Qed.

End Joiner.

(** ** The phase that is shown, and the countdown's timeouts *)

Section ShownPhase.
Import JS MultiSnake.

#[local] Ltac cases :=
  match goal with
  | |- context [match ?x with _ => _ end] => destruct x eqn:?
  | |- context [if ?x then _ else _] => destruct x eqn:?
  end.

Lemma stepGame_shown (draws : list Q) (s : Session) :
  gamePhase (session_after_handler (stepGame draws s) s) = gamePhase s.
Proof.
  pose proof (stepGame_frame draws s) as H. cbv zeta in H. apply H.
Qed.

Lemma tick_shown (v : Z) (s : Session) :
  gamePhase s <> Over -> gamePhase (tick v s) <> Over.
Proof.
  intros H. unfold tick, send_if_open, stopInterval.
  repeat cases; cbn; first [exact H | discriminate].
Qed.

Lemma startCountdown_shown (v : Z) (s : Session) : gamePhase (startCountdown v s) <> Over.
Proof.
  unfold startCountdown. apply tick_shown.
  destruct (countdownTimerRef s); cbn; discriminate.
Qed.

Lemma resetGameState_shown (draws : list Q) (s : Session) :
  gamePhase s <> Over ->
  gamePhase (session_after_handler (resetGameState draws s) s) <> Over.
Proof.
  intros H. unfold resetGameState.
  destruct (placeFood _ _ _); cbn [session_after_handler]; [cbn; discriminate|exact H].
Qed.

Lemma endSession_shown (s : Session) :
  gamePhase (session_after_handler (endSession s) s) <> Over.
Proof.
  unfold endSession, drawState, stopInterval.
  repeat cases; cbn [session_after_handler]; cbn; discriminate.
Qed.

Lemma onmessage_shown (message : JSValue) (s : Session) :
  gamePhase s <> Over ->
  gamePhase (session_after_handler (onmessage_parsed message s) s) <> Over.
Proof.
  intros H. unfold onmessage_parsed.
  destruct (get_prop message "type") as [type|e]; [|exact H].
  destruct (is_str type "gameState" && role_eqb (roleRef s) Guest).
  { destruct (applyStateFromHost_after (field message "state") s) as [_ [_ [_ [_ [_ Hg]]]]].
    rewrite Hg. exact H. }
  repeat cases; cbn [session_after_handler]; cbn; first [exact H | discriminate].
Qed.

Lemma handleKeyDown_shown (key : string) (s : Session) :
  gamePhase s <> Over ->
  gamePhase (session_after_handler (handleKeyDown key s) s) <> Over.
Proof.
  intros H. unfold handleKeyDown.
  destruct (String.eqb key "Escape"); [apply endSession_shown|].
  unfold send_unchecked.
  repeat cases; cbn [session_after_handler]; cbn; exact H.
Qed.

(** No handler calls [setGamePhase("over")]. *)
Lemma dispatch_shown (ev : Event) (s : Session) :
  gamePhase s <> Over -> gamePhase (session_after (dispatch ev s) s) <> Over.
Proof.
  intros H. unfold session_after. destruct ev; cbn [dispatch].
  - (* CreateGame *)
    destruct (role_eqb (roleRef s) NoRole); [|exact H].
    unfold createGame, and_then.
    pose proof (resetGameState_shown draws (set_roleRef Host s) H) as Hr.
    destruct (resetGameState draws (set_roleRef Host s)) as [s1|s1|e s1|];
      cbn [session_after_handler] in *; [exact Hr|exact Hr|exact Hr|exact H].
  - destruct (role_eqb (roleRef s) NoRole); exact H.
  - destruct (roleRef s), (peerRef s); exact H.
  - (* ChannelOpen *)
    destruct (channelRef s); [|exact H].
    unfold onopen. cbn [roleRef set_phase set_connected set_channelRef].
    destruct (role_eqb (roleRef s) Host); [|cbn; discriminate].
    unfold and_then.
    match goal with |- context [resetGameState ?d ?t] =>
      destruct (resetGameState d t) as [s1|s1|e s1|] eqn:E end;
      cbn [session_after_handler]; [apply startCountdown_shown| | |exact H].
    + exfalso. exact (resetGameState_not_nan _ _ _ E).
    + exfalso. exact (resetGameState_not_threw _ _ _ _ E).
  - (* ChannelClose *)
    destruct (channelRef s); [|exact H].
    cbn [session_after_handler]. unfold onclose, stopInterval. cases; exact H.
  - (* Message *)
    destruct (channelRef s) as [[]|]; try exact H.
    destruct parsed as [message|e]; [|exact H].
    apply onmessage_shown, H.
  - (* TimeoutFires *)
    destruct (timeouts s !! h); [|exact H].
    cbn [session_after_handler]. apply tick_shown. exact H.
  - (* IntervalFires *)
    destruct (bool_decide (h ∈ intervals s)); [|exact H].
    rewrite stepGame_shown. exact H.
  - apply handleKeyDown_shown, H.
  - (* Restart *)
    destruct (phase_eqb (gamePhase s) Over) eqn:E; [|exact H].
    destruct (gamePhase s); try discriminate. contradiction.
  - apply endSession_shown.
Qed.

Lemma run_shown (evs : list Event) (s : Session) :
  gamePhase s <> Over -> gamePhase (run evs s) <> Over.
Proof.
  revert s. induction evs as [|ev evs IH]; intros s H; [exact H|].
  cbn [run]. apply IH, dispatch_shown, H.
Qed.

End ShownPhase.

Section OneTimeout.

(** A map of timeouts all of whose handles a ref names is empty or holds
    the one timeout. *)
Lemma named_timeouts (m : gmap positive Z) (r : option positive) :
  (forall h v, m !! h = Some v -> r = Some h) ->
  (size m <= 1)%nat /\ (m = ∅ \/ exists h v, r = Some h /\ m = {[h := v]}).
Proof.
  intros H. destruct (decide (m = ∅)) as [->|Hne].
  - split; [rewrite map_size_empty; repeat constructor|left; reflexivity].
  - apply map_choose in Hne. destruct Hne as [h [v Hv]].
    assert (Hm : m = {[h := v]}).
    { apply map_eq. intros i. destruct (decide (i = h)) as [->|Hi].
      - rewrite lookup_singleton_eq. exact Hv.
      - rewrite lookup_singleton_ne by congruence.
        destruct (m !! i) as [w|] eqn:E; [|reflexivity].
        apply H in E. apply H in Hv. congruence. }
    split.
    + rewrite Hm, map_size_singleton. constructor.
    + right. exists h, v. split; [apply (H h v), Hv|exact Hm].
Qed.

(** Taking the named timeout out leaves none. *)
Lemma named_timeouts_cleared (m : gmap positive Z) (r : option positive) (h : positive) :
  (forall h v, m !! h = Some v -> r = Some h) ->
  r = Some h -> delete h m = ∅.
Proof.
  intros H Hr. apply map_eq. intros i. rewrite lookup_empty.
  destruct (decide (i = h)) as [->|Hi].
  - apply lookup_delete_eq.
  - rewrite lookup_delete_ne by congruence.
    destruct (m !! i) as [w|] eqn:E; [|reflexivity].
    apply H in E. congruence.
Qed.

Lemma unnamed_timeouts_empty (m : gmap positive Z) :
  (forall h v, m !! h = Some v -> @None positive = Some h) -> m = ∅.
Proof.
  intros H. apply map_eq. intros i. rewrite lookup_empty.
  destruct (m !! i) as [w|] eqn:E; [|reflexivity].
  apply H in E. discriminate.
Qed.

End OneTimeout.

Section SnakeTimeouts.
Import JS MultiSnake.

#[local] Ltac cases :=
  match goal with
  | |- context [match ?x with _ => _ end] => destruct x eqn:?
  | |- context [if ?x then _ else _] => destruct x eqn:?
  end.

Lemma stepGame_timeouts (draws : list Q) (s : Session) :
  timeouts (session_after_handler (stepGame draws s) s) = timeouts s
  /\ countdownTimerRef (session_after_handler (stepGame draws s) s) = countdownTimerRef s.
Proof.
  pose proof (stepGame_frame draws s) as H. cbv zeta in H.
  split; apply H.
Qed.

Lemma endSession_timeouts (s : Session) :
  timeouts (session_after_handler (endSession s) s) = timeouts s
  /\ countdownTimerRef (session_after_handler (endSession s) s) = countdownTimerRef s.
Proof.
  unfold endSession, drawState, stopInterval.
  repeat cases; cbn [session_after_handler]; split; reflexivity.
Qed.

Lemma resetGameState_timeouts (draws : list Q) (s : Session) :
  timeouts (session_after_handler (resetGameState draws s) s) = timeouts s
  /\ countdownTimerRef (session_after_handler (resetGameState draws s) s)
     = countdownTimerRef s.
Proof.
  unfold resetGameState. destruct (placeFood _ _ _); cbn [session_after_handler];
    split; reflexivity.
Qed.

Lemma onmessage_timeouts (message : JSValue) (s : Session) :
  timeouts (session_after_handler (onmessage_parsed message s) s) = timeouts s
  /\ countdownTimerRef (session_after_handler (onmessage_parsed message s) s)
     = countdownTimerRef s.
Proof.
  unfold onmessage_parsed.
  destruct (get_prop message "type") as [type|e]; [|split; reflexivity].
  destruct (is_str type "gameState" && role_eqb (roleRef s) Guest).
  { unfold applyStateFromHost, updateScores, and_then, drawState.
    destruct (get_prop (field message "state") "score1"),
             (get_prop (field message "state") "score2");
      cbn [session_after_handler]; try (split; reflexivity).
    cases; cbn [session_after_handler]; split; reflexivity. }
  repeat cases; cbn [session_after_handler]; split; reflexivity.
Qed.

Lemma handleKeyDown_timeouts (key : string) (s : Session) :
  timeouts (session_after_handler (handleKeyDown key s) s) = timeouts s
  /\ countdownTimerRef (session_after_handler (handleKeyDown key s) s)
     = countdownTimerRef s.
Proof.
  unfold handleKeyDown.
  destruct (String.eqb key "Escape"); [apply endSession_timeouts|].
  unfold send_unchecked.
  repeat cases; cbn [session_after_handler]; split; reflexivity.
Qed.

(** A tick that finds no timeout pending leaves at most its own. *)
Lemma tick_timeouts (v : Z) (s : Session) :
  timeouts s = ∅ ->
  forall h w, timeouts (tick v s) !! h = Some w -> countdownTimerRef (tick v s) = Some h.
Proof.
  intros He h w. unfold tick, send_if_open, stopInterval.
  repeat cases; cbn; rewrite ?He;
    try (rewrite lookup_empty; discriminate);
    intros Hl; apply lookup_insert_Some in Hl;
    (destruct Hl as [[<- _]|[_ Hl]]; [reflexivity|rewrite lookup_empty in Hl; discriminate]).
Qed.

Lemma startCountdown_timeouts (v : Z) (s : Session) :
  (forall h w, timeouts s !! h = Some w -> countdownTimerRef s = Some h) ->
  forall h w, timeouts (startCountdown v s) !! h = Some w ->
              countdownTimerRef (startCountdown v s) = Some h.
Proof.
  intros H. unfold startCountdown. apply tick_timeouts.
  destruct (countdownTimerRef s) as [h0|] eqn:E; cbn.
  - apply (named_timeouts_cleared _ _ h0 H eq_refl).
  - apply unnamed_timeouts_empty, H.
Qed.

(** Every pending timeout is the one [countdownTimerRef] names. *)
Lemma dispatch_timeouts (ev : Event) (s : Session) :
  (forall h w, timeouts s !! h = Some w -> countdownTimerRef s = Some h) ->
  forall h w, timeouts (session_after (dispatch ev s) s) !! h = Some w ->
              countdownTimerRef (session_after (dispatch ev s) s) = Some h.
Proof.
  intros H. unfold session_after. destruct ev; cbn [dispatch].
  - (* CreateGame *)
    destruct (role_eqb (roleRef s) NoRole); [|exact H].
    unfold createGame, and_then.
    destruct (resetGameState_timeouts draws (set_roleRef Host s)) as [H1 H2].
    destruct (resetGameState draws (set_roleRef Host s)) as [s1|s1|e s1|];
      cbn [session_after_handler] in *; [| | |exact H].
    + cbn. rewrite H1, H2. exact H.
    + rewrite H1, H2. exact H.
    + rewrite H1, H2. exact H.
  - destruct (role_eqb (roleRef s) NoRole); exact H.
  - destruct (roleRef s), (peerRef s); exact H.
  - (* ChannelOpen *)
    destruct (channelRef s); [|exact H].
    unfold onopen. cbn [roleRef set_phase set_connected set_channelRef].
    destruct (role_eqb (roleRef s) Host); [|exact H].
    unfold and_then.
    match goal with |- context [resetGameState ?d ?t] =>
      destruct (resetGameState_timeouts d t) as [H1 H2];
      destruct (resetGameState d t) as [s1|s1|e s1|] eqn:E end;
      cbn [session_after_handler] in *; [| | |exact H].
    + apply startCountdown_timeouts. rewrite H1, H2. exact H.
    + rewrite H1, H2. exact H.
    + rewrite H1, H2. exact H.
  - (* ChannelClose *)
    destruct (channelRef s); [|exact H].
    cbn [session_after_handler]. unfold onclose, stopInterval. cases; exact H.
  - (* Message *)
    destruct (channelRef s) as [[]|]; try exact H.
    destruct parsed as [message|e]; [|exact H].
    destruct (onmessage_timeouts message s) as [-> ->]. exact H.
  - (* TimeoutFires *)
    destruct (timeouts s !! h) as [value|] eqn:E; [|exact H].
    cbn [session_after_handler]. apply tick_timeouts. cbn.
    apply (named_timeouts_cleared _ _ h H). apply (H h value E).
  - (* IntervalFires *)
    destruct (bool_decide (h ∈ intervals s)); [|exact H].
    destruct (stepGame_timeouts draws s) as [-> ->]. exact H.
  - destruct (handleKeyDown_timeouts key s) as [-> ->]. exact H.
  - (* Restart *)
    destruct (phase_eqb (gamePhase s) Over); [|exact H].
    unfold restart, and_then.
    destruct (resetGameState_timeouts draws s) as [H1 H2].
    destruct (resetGameState draws s) as [s1|s1|e s1|]; cbn [session_after_handler] in *;
      [| | |exact H].
    + destruct (role_eqb (roleRef s1) Host).
      * apply startCountdown_timeouts. rewrite H1, H2. exact H.
      * rewrite H1, H2. exact H.
    + rewrite H1, H2. exact H.
    + rewrite H1, H2. exact H.
  - destruct (endSession_timeouts s) as [-> ->]. exact H.
Qed.

Lemma run_timeouts (evs : list Event) (s : Session) :
  (forall h w, timeouts s !! h = Some w -> countdownTimerRef s = Some h) ->
  forall h w, timeouts (run evs s) !! h = Some w -> countdownTimerRef (run evs s) = Some h.
Proof.
  revert s. induction evs as [|ev evs IH]; intros s H; [exact H|].
  cbn [run]. apply IH, dispatch_timeouts, H.
Qed.

End SnakeTimeouts.

Section PongTimeouts.
Import JS Pong.

#[local] Ltac cases :=
  match goal with
  | |- context [match ?x with _ => _ end] => destruct x eqn:?
  | |- context [if ?x then _ else _] => destruct x eqn:?
  end.

Lemma pong_tick_timeouts (v : Z) (s : Session) :
  timeouts s = ∅ ->
  forall h w, timeouts (tick v s) !! h = Some w -> countdownTimerRef (tick v s) = Some h.
Proof.
  intros He h w. unfold tick, send_if_open.
  repeat cases; cbn; rewrite ?He;
    try (rewrite lookup_empty; discriminate);
    intros Hl; apply lookup_insert_Some in Hl;
    (destruct Hl as [[<- _]|[_ Hl]]; [reflexivity|rewrite lookup_empty in Hl; discriminate]).
Qed.

Lemma pong_startCountdown_timeouts (v : Z) (s : Session) :
  (forall h w, timeouts s !! h = Some w -> countdownTimerRef s = Some h) ->
  forall h w, timeouts (startCountdown v s) !! h = Some w ->
              countdownTimerRef (startCountdown v s) = Some h.
Proof.
  intros H. unfold startCountdown. apply pong_tick_timeouts.
  destruct (countdownTimerRef s) as [h0|] eqn:E; cbn.
  - apply (named_timeouts_cleared _ _ h0 H eq_refl).
  - apply unnamed_timeouts_empty, H.
Qed.

Lemma pong_host_frame_timeouts (r1 r2 : Q) (g : GameState) (s : Session) :
  timeouts (snd (host_frame r1 r2 g s)) = timeouts s
  /\ countdownTimerRef (snd (host_frame r1 r2 g s)) = countdownTimerRef s.
Proof.
  unfold host_frame, sync_scores.
  destruct (phase_eqb (gamePhaseRef s) Playing); cbn [snd]; [|split; reflexivity].
  destruct (_ || _); split; reflexivity.
Qed.

Lemma pong_simulate_timeouts (r1 r2 : Q) (s : Session) :
  timeouts (session_after (simulate r1 r2 s)) = timeouts s
  /\ countdownTimerRef (session_after (simulate r1 r2 s)) = countdownTimerRef s.
Proof.
  unfold simulate. destruct (roleRef s); [split; reflexivity| |].
  - destruct (of_js (gameStateRef s)) as [g|]; [|split; reflexivity].
    destruct (pong_host_frame_timeouts r1 r2 g s) as [H1 H2].
    destruct (host_frame r1 r2 g s) as [state' s1]. cbn [snd session_after] in *.
    unfold send_if_open. cbn [dataChannelRef set_gameStateRef].
    destruct (dataChannelRef s1) as [[]|]; cbn; split; assumption.
  - cbn [session_after]. unfold guest_frame.
    repeat cases; split; reflexivity.
Qed.

Lemma pong_updateGame_timeouts (r1 r2 : Q) (s : Session) :
  timeouts (session_after (updateGame r1 r2 s)) = timeouts s
  /\ countdownTimerRef (session_after (updateGame r1 r2 s)) = countdownTimerRef s.
Proof.
  unfold updateGame.
  destruct (pong_simulate_timeouts r1 r2 s) as [H1 H2].
  destruct (simulate r1 r2 s) as [s1|e s1]; cbn [and_then session_after] in *.
  - unfold render_and_request. cases; cbn [session_after]; split; assumption.
  - split; assumption.
Qed.

Lemma pong_onmessage_timeouts (message : JSValue) (s : Session) :
  timeouts (session_after (onmessage_parsed message s)) = timeouts s
  /\ countdownTimerRef (session_after (onmessage_parsed message s)) = countdownTimerRef s.
Proof.
  unfold onmessage_parsed.
  repeat cases; cbn [session_after]; split; reflexivity.
Qed.

Lemma pong_effects_timeouts (before after : Session) :
  timeouts (effects before after) = timeouts after
  /\ countdownTimerRef (effects before after) = countdownTimerRef after.
Proof.
  unfold effects, connectedEffect, ballSpeedEffect, broadcastSettings, send_if_open,
    stopGameLoop.
  repeat cases; split; reflexivity.
Qed.

Lemma pong_dispatch_timeouts (ev : Event) (s : Session) :
  (forall h w, timeouts s !! h = Some w -> countdownTimerRef s = Some h) ->
  forall h w, timeouts (session_after (dispatch ev s)) !! h = Some w ->
              countdownTimerRef (session_after (dispatch ev s)) = Some h.
Proof.
  intros H. destruct ev; cbn [dispatch].
  - destruct (role_eqb (roleRef s) NoRole); exact H.
  - destruct (role_eqb (roleRef s) NoRole); exact H.
  - destruct (roleRef s), (peerConnectionRef s); exact H.
  - (* ChannelOpen *)
    destruct (dataChannelRef s); [|exact H].
    cbn [session_after]. unfold onopen.
    cbn [roleRef set_gamePhaseRef set_connected set_dataChannelRef].
    destruct (role_eqb (roleRef s) Host).
    + apply pong_startCountdown_timeouts. unfold send. repeat cases; exact H.
    + unfold send. repeat cases; exact H.
  - destruct (dataChannelRef s); exact H.
  - (* Message *)
    destruct (dataChannelRef s) as [[]|]; try exact H.
    destruct parsed as [message|e]; [|exact H].
    destruct (pong_onmessage_timeouts message s) as [-> ->]. exact H.
  - (* TimeoutFires *)
    destruct (timeouts s !! h) as [value|] eqn:E; [|exact H].
    cbn [session_after]. apply pong_tick_timeouts. cbn.
    apply (named_timeouts_cleared _ _ h H). apply (H h value E).
  - (* FrameFires *)
    destruct (bool_decide (h ∈ frames s)); [|exact H].
    destruct (pong_updateGame_timeouts r1 r2 (cancelAnimationFrame h s)) as [-> ->].
    exact H.
  - (* KeyDown *)
    cbn [session_after]. unfold handleKeyDown, endSession, resetState, stopGameLoop.
    repeat cases; exact H.
  - exact H.
  - exact H.
  - exact H.
  - cbn [session_after]. unfold endSession, resetState, stopGameLoop.
    repeat cases; exact H.
Qed.

Lemma pong_run_timeouts (evs : list Event) (s : Session) :
  (forall h w, timeouts s !! h = Some w -> countdownTimerRef s = Some h) ->
  forall h w, timeouts (run evs s) !! h = Some w -> countdownTimerRef (run evs s) = Some h.
Proof.
  revert s. induction evs as [|ev evs IH]; intros s H; [exact H|].
  cbn [run]. apply IH. unfold step.
  destruct (pong_effects_timeouts s (session_after (dispatch ev s))) as [-> ->].
  apply pong_dispatch_timeouts, H.
Qed.

End PongTimeouts.

(** ** The claims of the specification *)

(** C4. For every sequence of inbound state-snapshot messages, the guest's
    World State after processing the sequence is exactly the payload of the
    last snapshot received: each snapshot replaces the store as a whole,
    nothing is merged.  This holds in both games and for any payloads. *)
Theorem last_snapshot_wins
  (payloads : list JS.JSValue) (last : JS.JSValue) (s : MultiSnake.Session)
  (payloads' : list JS.JSValue) (last' : JS.JSValue) (p : Pong.Session) :
  MultiSnake.roleRef s = MultiSnake.Guest ->
  Pong.roleRef p = Pong.Guest ->
  MultiSnake.gameStateRef
    (MultiSnake.receive_all (map MultiSnake.msg_gameState (payloads ++ [last])) s) = last
  /\ Pong.gameStateRef
       (Pong.receive_all (map Pong.msg_gameState (payloads' ++ [last'])) p) = last'.
Proof.
  intros Hs Hp. split.
  - apply snake_last_snapshot, Hs.
  - apply pong_last_snapshot, Hp.
Qed.

(** The scenario of the specification: a snapshot with scores 2 and 1, then
    one with scores 3 and 1. *)
Lemma last_snapshot_wins_witness :
  MultiSnake.gameStateRef
    (MultiSnake.receive_all
       (map MultiSnake.msg_gameState
          ([MultiSnake.snapshot_with_scores 2 1] ++ [MultiSnake.snapshot_with_scores 3 1]))
       MultiSnake.guest_example)
  = MultiSnake.snapshot_with_scores 3 1
  /\ Pong.gameStateRef
       (Pong.receive_all
          (map Pong.msg_gameState
             ([Pong.snapshot_with_scores 2 1] ++ [Pong.snapshot_with_scores 3 1]))
          Pong.guest_example)
     = Pong.snapshot_with_scores 3 1.
Proof.
  apply (last_snapshot_wins
           [MultiSnake.snapshot_with_scores 2 1] (MultiSnake.snapshot_with_scores 3 1)
           MultiSnake.guest_example
           [Pong.snapshot_with_scores 2 1] (Pong.snapshot_with_scores 3 1)
           Pong.guest_example); reflexivity.
Defined.

(** In that scenario the scores the guest shows are 3 and 1. *)
Example scores_after_two_snapshots :
  MultiSnake.scores
    (MultiSnake.receive_all
       (map MultiSnake.msg_gameState
          [MultiSnake.snapshot_with_scores 2 1; MultiSnake.snapshot_with_scores 3 1])
       MultiSnake.guest_example)
  = (JS.num 3, JS.num 1)
  /\ Pong.scoresRef
       (Pong.receive_all
          (map Pong.msg_gameState
             [Pong.snapshot_with_scores 2 1; Pong.snapshot_with_scores 3 1])
          Pong.guest_example)
     = (JS.num 3, JS.num 1).
Proof. split; vm_compute; reflexivity. Qed.

(** C8, as the code has it.  Dropped, with the session what it was and
    nothing thrown: a message whose [type] the receiver has no branch for
    (the chase game has branches for gameState, input and phase, the paddle
    game for these and hostFace, guestFace and settings); a gameState
    message at a receiver that is not the guest, an input message at one
    that is not the host; in the chase game an input message whose
    direction is missing or falsy, in the paddle game one whose direction is
    neither up nor down; a phase message whose phase is neither countdown
    nor playing; a settings message whose ballSpeed is not a number.  Not
    dropped: a message that does not parse makes [JSON.parse] throw out of
    the handler, and one that parses to [null] makes the read of its type
    throw, both with the session what it was; a gameState message makes
    the guest replace World State by its state, whatever that is, and when
    the state is missing or null a TypeError follows; a hostFace or
    guestFace message stores its data as the face image, also when the
    data is missing. *)
Theorem unknown_or_unparsable_message
  (message type : JS.JSValue) (Str : Type) (JSON_parse : Str -> JS.Result JS.JSValue)
  (data : Str) (e : JS.JSError) (s : MultiSnake.Session) (p : Pong.Session) :
  JS.get_prop message "type" = JS.Ret type ->
  JSON_parse data = JS.Throw e ->
  ((forall known, In known ["gameState"; "input"; "phase"]%string ->
                  JS.is_str type known = false) ->
   MultiSnake.onmessage_parsed message s = MultiSnake.Done s)
  /\ ((forall known,
          In known ["gameState"; "input"; "phase"; "hostFace"; "guestFace";
                    "settings"]%string ->
          JS.is_str type known = false) ->
      Pong.onmessage_parsed message p = Pong.Done p)
  /\ (type = JS.VStr "gameState" ->
      (MultiSnake.roleRef s <> MultiSnake.Guest ->
       MultiSnake.onmessage_parsed message s = MultiSnake.Done s)
      /\ (Pong.roleRef p <> Pong.Guest ->
          Pong.onmessage_parsed message p = Pong.Done p))
  /\ (type = JS.VStr "input" ->
      (MultiSnake.roleRef s <> MultiSnake.Host ->
       MultiSnake.onmessage_parsed message s = MultiSnake.Done s)
      /\ (Pong.roleRef p <> Pong.Host ->
          Pong.onmessage_parsed message p = Pong.Done p)
      /\ (JS.truthy (MultiSnake.field message "direction") = false ->
          MultiSnake.onmessage_parsed message s = MultiSnake.Done s)
      /\ (JS.is_str (Pong.field message "direction") "up" = false ->
          JS.is_str (Pong.field message "direction") "down" = false ->
          (exists pstate, Pong.of_js (Pong.gameStateRef p) = Some pstate) ->
          Pong.onmessage_parsed message p = Pong.Done p))
  /\ (type = JS.VStr "phase" ->
      (JS.is_str (MultiSnake.field message "phase") "countdown" = false ->
       JS.is_str (MultiSnake.field message "phase") "playing" = false ->
       MultiSnake.onmessage_parsed message s = MultiSnake.Done s)
      /\ (JS.is_str (Pong.field message "phase") "countdown" = false ->
          JS.is_str (Pong.field message "phase") "playing" = false ->
          Pong.onmessage_parsed message p = Pong.Done p))
  /\ (type = JS.VStr "settings" ->
      JS.is_number (Pong.field message "ballSpeed") = false ->
      Pong.onmessage_parsed message p = Pong.Done p)
  /\ MultiSnake.onmessage JSON_parse data s = MultiSnake.Threw e s
  /\ Pong.onmessage JSON_parse data p = Pong.Threw e p
  /\ MultiSnake.onmessage_parsed JS.VNull s = MultiSnake.Threw JS.TypeError s
  /\ Pong.onmessage_parsed JS.VNull p = Pong.Threw JS.TypeError p
  /\ (type = JS.VStr "gameState" ->
      (MultiSnake.roleRef s = MultiSnake.Guest ->
       MultiSnake.nullish (MultiSnake.field message "state") = true ->
       MultiSnake.onmessage_parsed message s
       = MultiSnake.Threw JS.TypeError
           (MultiSnake.set_gameStateRef (MultiSnake.field message "state") s))
      /\ (Pong.roleRef p = Pong.Guest ->
          Pong.nullish (Pong.field message "state") = true ->
          Pong.onmessage_parsed message p
          = Pong.Threw JS.TypeError
              (Pong.set_gameStateRef (Pong.field message "state") p)))
  /\ (type = JS.VStr "gameState" ->
      (MultiSnake.roleRef s = MultiSnake.Guest ->
       MultiSnake.gameStateRef
         (MultiSnake.session_after_handler (MultiSnake.onmessage_parsed message s) s)
       = MultiSnake.field message "state")
      /\ (Pong.roleRef p = Pong.Guest ->
          Pong.gameStateRef (Pong.session_after (Pong.onmessage_parsed message p))
          = Pong.field message "state"))
  /\ (type = JS.VStr "hostFace" ->
      Pong.onmessage_parsed message p
      = Pong.Done (Pong.set_hostFaceImageRef (Pong.field message "data") p))
  /\ (type = JS.VStr "guestFace" ->
      Pong.onmessage_parsed message p
      = Pong.Done (Pong.set_guestFaceImageRef (Pong.field message "data") p)).
Proof.
  intros Htype Hparse.
  split.
  { intros H. apply (snake_unknown_dropped message type); auto; apply H; cbn; auto. }
  split.
  { intros H. apply (pong_unknown_dropped message type); auto; apply H; cbn; auto 10. }
  split.
  { intros ->. split; intros Hr.
    - unfold MultiSnake.onmessage_parsed. rewrite Htype.
      destruct (MultiSnake.roleRef s); [reflexivity|reflexivity|contradiction].
    - unfold Pong.onmessage_parsed. rewrite Htype.
      destruct (Pong.roleRef p); [reflexivity|reflexivity|contradiction]. }
  split.
  { intros ->. split; [|split; [|split]].
    - intros Hr. unfold MultiSnake.onmessage_parsed. rewrite Htype.
      destruct (MultiSnake.roleRef s); [reflexivity|contradiction|reflexivity].
    - intros Hr. unfold Pong.onmessage_parsed. rewrite Htype.
      destruct (Pong.roleRef p); [reflexivity|contradiction|reflexivity].
    - intros Hf. unfold MultiSnake.onmessage_parsed, MultiSnake.may_turn.
      rewrite Htype, Hf.
      destruct (MultiSnake.roleRef s); reflexivity.
    - intros Hu Hd [pstate Hst]. unfold Pong.onmessage_parsed.
      rewrite Htype, Hst, Hu, Hd.
      destruct (Pong.roleRef p); reflexivity. }
  split.
  { intros ->. split; intros Hc Hp.
    - unfold MultiSnake.onmessage_parsed. rewrite Htype, Hc, Hp. reflexivity.
    - unfold Pong.onmessage_parsed. rewrite Htype, Hc, Hp. reflexivity. }
  split.
  { intros -> Hn. unfold Pong.onmessage_parsed. rewrite Htype, Hn. reflexivity. }
  split; [unfold MultiSnake.onmessage; rewrite Hparse; reflexivity|].
  split; [unfold Pong.onmessage; rewrite Hparse; reflexivity|].
  split; [reflexivity|]. split; [reflexivity|].
  split.
  { intros ->. split; intros Hr Hn.
    - unfold MultiSnake.onmessage_parsed. rewrite Htype, Hr.
      cbn [JS.is_str JS.strict_eq String.eqb Ascii.eqb Bool.eqb MultiSnake.role_eqb andb].
      unfold MultiSnake.applyStateFromHost, MultiSnake.updateScores.
      destruct (MultiSnake.field message "state"); try discriminate; reflexivity.
    - unfold Pong.onmessage_parsed. rewrite Htype, Hr.
      cbn [JS.is_str JS.strict_eq String.eqb Ascii.eqb Bool.eqb Pong.role_eqb andb].
      destruct (Pong.field message "state"); try discriminate; reflexivity. }
  split.
  { intros ->. split; intros Hr.
    - unfold MultiSnake.onmessage_parsed. rewrite Htype, Hr.
      cbn [JS.is_str JS.strict_eq String.eqb Ascii.eqb Bool.eqb MultiSnake.role_eqb andb].
      apply applyStateFromHost_after.
    - unfold Pong.onmessage_parsed. rewrite Htype, Hr.
      cbn [JS.is_str JS.strict_eq String.eqb Ascii.eqb Bool.eqb Pong.role_eqb andb].
      destruct (JS.get_prop (Pong.field message "state") "score1"),
               (JS.get_prop (Pong.field message "state") "score2"); try reflexivity.
      destruct (_ || _); reflexivity. }
  split.
  { intros ->. unfold Pong.onmessage_parsed. rewrite Htype.
    destruct (Pong.roleRef p); reflexivity. }
  intros ->. unfold Pong.onmessage_parsed. rewrite Htype.
  destruct (Pong.roleRef p); reflexivity.
Qed.

(** A message of type "chat", a text that is not JSON, and a guest that
    gets an input message. *)
Lemma unknown_or_unparsable_message_witness :
  MultiSnake.onmessage_parsed
    (JS.VObj [("type"%string, JS.VStr "chat")]) MultiSnake.guest_example
  = MultiSnake.Done MultiSnake.guest_example
  /\ Pong.onmessage_parsed
       (JS.VObj [("type"%string, JS.VStr "chat")]) Pong.guest_example
     = Pong.Done Pong.guest_example
  /\ MultiSnake.onmessage (fun _ : string => JS.Throw JS.SyntaxError) "{"%string
       MultiSnake.guest_example
     = MultiSnake.Threw JS.SyntaxError MultiSnake.guest_example
  /\ Pong.onmessage (fun _ : string => JS.Throw JS.SyntaxError) "{"%string
       Pong.guest_example
     = Pong.Threw JS.SyntaxError Pong.guest_example.
Proof.
  destruct (unknown_or_unparsable_message
              (JS.VObj [("type"%string, JS.VStr "chat")]) (JS.VStr "chat")
              string (fun _ => JS.Throw JS.SyntaxError) "{"%string JS.SyntaxError
              MultiSnake.guest_example Pong.guest_example eq_refl eq_refl)
    as [H1 [H2 [_ [_ [_ [_ [H3 [H4 _]]]]]]]].
  split; [|split; [|split; assumption]].
  - apply H1. intros known Hin. cbn in Hin.
    repeat (destruct Hin as [<-|Hin]; [reflexivity|]). contradiction.
  - apply H2. intros known Hin. cbn in Hin.
    repeat (destruct Hin as [<-|Hin]; [reflexivity|]). contradiction.
Defined.

(** C8, as stated, fails: a [gameState] message without its [state] field
    overwrites the guest's World State with [undefined], and then a
    TypeError escapes the handler. *)
Lemma snapshot_without_state_faults :
  MultiSnake.onmessage_parsed
    (JS.VObj [("type"%string, JS.VStr "gameState")]) MultiSnake.guest_example
  = MultiSnake.Threw JS.TypeError
      (MultiSnake.set_gameStateRef JS.VUndefined MultiSnake.guest_example)
  /\ Pong.onmessage_parsed
       (JS.VObj [("type"%string, JS.VStr "gameState")]) Pong.guest_example
     = Pong.Threw JS.TypeError
         (Pong.set_gameStateRef JS.VUndefined Pong.guest_example)
  /\ MultiSnake.gameStateRef MultiSnake.guest_example <> JS.VUndefined
  /\ Pong.gameStateRef Pong.guest_example <> JS.VUndefined.
Proof.
  repeat split; try (vm_compute; reflexivity); vm_compute; discriminate.
Qed.




(** C3, as stated, fails in the paddle game.  The last firing of the
    countdown sets the phase to playing and starts no timer: no handle is
    handed out, no timeout is pending, and the frame loop is the one that
    was requested when the channel opened, while the countdown still showed
    3. *)
Lemma paddle_countdown_starts_no_timer :
  let s2 := Nat.iter 2 Pong.fire_countdown Pong.host_countdown_example in
  let s3 := Pong.fire_countdown s2 in
  Pong.roleRef s3 = Pong.Host
  /\ Pong.gamePhaseRef s2 = Pong.Countdown
  /\ Pong.gamePhaseRef s3 = Pong.Playing
  /\ Pong.nextHandle s3 = Pong.nextHandle s2
  /\ Pong.timeouts s3 = ∅
  /\ Pong.frames s3 = Pong.frames Pong.host_countdown_example
  /\ Pong.gameLoopRef s3 = Pong.gameLoopRef Pong.host_countdown_example
  /\ Pong.gameLoopRef Pong.host_countdown_example = Some 2%positive
  /\ Pong.countdown Pong.host_countdown_example = JS.num 3.
Proof. vm_compute. repeat (split; [reflexivity|]). reflexivity. Qed.

(** C3, as the code has it.  A countdown started from [n] shows [n - k]
    after [k] firings of its timer and stays in the countdown phase for
    every [k < n]; the [n]-th firing shows 0 and sets the phase to playing.
    At that firing the host of the chase game starts the step interval,
    which the countdown has not touched before; the paddle game starts no
    timer there, its frame loop being what it was before the countdown. *)
Theorem countdown_reaches_playing (n : nat) (s : MultiSnake.Session) (p : Pong.Session) :
  MultiSnake.roleRef s = MultiSnake.Host ->
  let s_after k :=
    Nat.iter k MultiSnake.fire_countdown (MultiSnake.startCountdown (Z.of_nat n) s) in
  let p_after k :=
    Nat.iter k Pong.fire_countdown (Pong.startCountdown (Z.of_nat n) p) in
  (forall k, (k < n)%nat ->
     MultiSnake.gamePhaseRef (s_after k) = MultiSnake.Countdown
     /\ MultiSnake.gamePhase (s_after k) = MultiSnake.Countdown
     /\ MultiSnake.countdown (s_after k) = JS.num (Z.of_nat (n - k))
     /\ MultiSnake.intervalRef (s_after k) = MultiSnake.intervalRef s
     /\ MultiSnake.intervals (s_after k) = MultiSnake.intervals s
     /\ Pong.gamePhaseRef (p_after k) = Pong.Countdown
     /\ Pong.countdown (p_after k) = JS.num (Z.of_nat (n - k)))
  /\ MultiSnake.gamePhaseRef (s_after n) = MultiSnake.Playing
  /\ MultiSnake.gamePhase (s_after n) = MultiSnake.Playing
  /\ MultiSnake.countdown (s_after n) = JS.num 0
  /\ (exists h, MultiSnake.intervalRef (s_after n) = Some h
                /\ h ∈ MultiSnake.intervals (s_after n))
  /\ Pong.gamePhaseRef (p_after n) = Pong.Playing
  /\ Pong.countdown (p_after n) = JS.num 0
  /\ Pong.gameLoopRef (p_after n) = Pong.gameLoopRef p
  /\ Pong.frames (p_after n) = Pong.frames p.
Proof.
  intros Hrole s_after p_after. split.
  - intros k Hk.
    destruct (snake_countdown_running n k s Hk) as [H1 [H2 [H3 [H4 H5]]]].
    destruct (pong_countdown_running n k p Hk) as [H6 [H7 _]].
    repeat split; assumption.
  - destruct (snake_countdown_done n s Hrole) as [H1 [H2 [H3 H4]]].
    destruct (pong_countdown_done n p) as [H5 [H6 [H7 H8]]].
    repeat split; assumption.
Qed.

(** The countdown from 3, started by each host in its lobby. *)
Lemma countdown_reaches_playing_witness :
  MultiSnake.gamePhaseRef
    (Nat.iter 3 MultiSnake.fire_countdown
       (MultiSnake.startCountdown 3
          (MultiSnake.set_phase MultiSnake.Lobby MultiSnake.host_countdown_example)))
  = MultiSnake.Playing
  /\ Pong.gamePhaseRef
       (Nat.iter 3 Pong.fire_countdown
          (Pong.startCountdown 3
             (Pong.set_gamePhaseRef Pong.Lobby Pong.host_countdown_example)))
     = Pong.Playing.
Proof.
  destruct (countdown_reaches_playing 3
              (MultiSnake.set_phase MultiSnake.Lobby MultiSnake.host_countdown_example)
              (Pong.set_gamePhaseRef Pong.Lobby Pong.host_countdown_example))
    as [_ [H1 [_ [_ [_ [H2 _]]]]]]; [reflexivity|].
  split; assumption.
Defined.




(** C6.  While the phase is playing a step never lowers a score.  When a
    step of the chase game raises one, the phase is still playing, the step
    timer is untouched and the new food is on no cell of the two bodies.
    When a frame of the paddle game raises one, only the ball is reset, to
    the centre and with the speed that is set; the guest's paddle is where
    it was, the host's where the keys put it, the phase is still playing
    and the next frame is requested. *)
Theorem scores_never_decrease
  (draws : list Q) (s s' : MultiSnake.Session) (state : MultiSnake.GameState)
  (r1 r2 : Q) (p : Pong.Session) (pstate : Pong.GameState) :
  MultiSnake.gamePhaseRef s = MultiSnake.Playing ->
  MultiSnake.of_js (MultiSnake.gameStateRef s) = Some state ->
  MultiSnake.stepGame draws s = MultiSnake.Done s' ->
  Pong.roleRef p = Pong.Host ->
  Pong.of_js (Pong.gameStateRef p) = Some pstate ->
  (exists state',
      MultiSnake.of_js (MultiSnake.gameStateRef s') = Some state'
      /\ (MultiSnake.score1 state <= MultiSnake.score1 state')%Z
      /\ (MultiSnake.score2 state <= MultiSnake.score2 state')%Z
      /\ ((MultiSnake.score1 state' <> MultiSnake.score1 state
           \/ MultiSnake.score2 state' <> MultiSnake.score2 state) ->
          MultiSnake.gamePhaseRef s' = MultiSnake.Playing
          /\ MultiSnake.intervalRef s' = MultiSnake.intervalRef s
          /\ MultiSnake.intervals s' = MultiSnake.intervals s
          /\ ~ In (MultiSnake.food state')
                  (MultiSnake.snake1 state' ++ MultiSnake.snake2 state')))
  /\ (exists p' pstate',
         Pong.updateGame r1 r2 p = Pong.Done p'
         /\ Pong.of_js (Pong.gameStateRef p') = Some pstate'
         /\ (Pong.score1 pstate <= Pong.score1 pstate')%Q
         /\ (Pong.score2 pstate <= Pong.score2 pstate')%Q
         /\ (~ (Pong.score1 pstate' == Pong.score1 pstate
                /\ Pong.score2 pstate' == Pong.score2 pstate)%Q ->
             Pong.x (Pong.ball pstate') = (Pong.CANVAS_WIDTH / 2)%Q
             /\ Pong.y (Pong.ball pstate') = (Pong.CANVAS_HEIGHT / 2)%Q
             /\ (Pong.vx (Pong.ball pstate') = (1 * Pong.ballSpeedRef p)%Q
                 \/ Pong.vx (Pong.ball pstate') = (-1 * Pong.ballSpeedRef p)%Q)
             /\ Pong.paddle2Y pstate' = Pong.paddle2Y pstate
             /\ Pong.paddle1Y pstate'
                = Pong.paddle1Y (Pong.move_paddle1 (Pong.keysRef p) pstate)
             /\ Pong.gamePhaseRef p' = Pong.Playing
             /\ exists h, Pong.gameLoopRef p' = Some h /\ h ∈ Pong.frames p')).
Proof.
  intros Hp Hs Hstep Hrole Hpstore. split.
  - destruct (snake_step_scores draws s s' state Hp Hs Hstep)
      as [state' [Hst [[H1 _] [[H2 _] Hup]]]].
    exists state'. split; [exact Hst|]. split; [exact H1|]. split; [exact H2|].
    intros Hch. destruct (Hup Hch) as [A [_ [B [C D]]]]. repeat split; assumption.
  - destruct (pong_updateGame_store r1 r2 p pstate Hrole Hpstore)
      as [p' [Hdone [Hst [Hph Hloop]]]].
    pose proof (pong_host_frame_spec r1 r2 pstate p) as Hspec. cbv zeta in Hspec.
    destruct Hspec as [Hp2 [Hp1 [_ [Hs1 [Hs2 [Hreset _]]]]]].
    exists p', (fst (Pong.host_frame r1 r2 pstate p)).
    split; [exact Hdone|]. split; [exact Hst|].
    split; [destruct Hs1 as [E|E]; rewrite E; lra|].
    split; [destruct Hs2 as [E|E]; rewrite E; lra|].
    intros Hch. destruct (Hreset Hch) as [Hplaying [Hx [Hy Hvx]]].
    split; [exact Hx|]. split; [exact Hy|]. split; [exact Hvx|].
    split; [exact Hp2|]. split; [exact Hp1|].
    split; [congruence|exact Hloop].
Qed.

(** The first body eats, and the ball leaves on the right: each host's
    first score goes from 0 to 1. *)
Lemma scores_never_decrease_witness :
  (exists state',
      MultiSnake.of_js
        (MultiSnake.gameStateRef
           (MultiSnake.session_after
              (MultiSnake.stepGame MultiSnake.example_draws MultiSnake.food_ahead_example)
              MultiSnake.food_ahead_example)) = Some state'
      /\ (0 <= MultiSnake.score1 state')%Z)
  /\ exists p', Pong.updateGame 0 0 Pong.ball_leaving_example = Pong.Done p'.
Proof.
  destruct (scores_never_decrease MultiSnake.example_draws MultiSnake.food_ahead_example
              (MultiSnake.session_after
                 (MultiSnake.stepGame MultiSnake.example_draws MultiSnake.food_ahead_example)
                 MultiSnake.food_ahead_example)
              MultiSnake.food_ahead_state 0 0 Pong.ball_leaving_example
              Pong.ball_leaving_state)
    as [[state' [H1 [H2 _]]] [p' [pstate' [H3 _]]]]; try (vm_compute; reflexivity).
  split.
  - exists state'. split; [exact H1|exact H2].
  - exists p'. exact H3.
Defined.

(** In that run both scores do go up, the food moves to a free cell and the
    ball is back at the centre. *)
Example scoring_examples :
  option_map (fun g => (MultiSnake.score1 g, MultiSnake.food g, length (MultiSnake.snake1 g)))
    (MultiSnake.of_js
       (MultiSnake.gameStateRef
          (MultiSnake.session_after
             (MultiSnake.stepGame MultiSnake.example_draws MultiSnake.food_ahead_example)
             MultiSnake.food_ahead_example)))
  = Some (1%Z, MultiSnake.mkCell 12 4, 4%nat)
  /\ option_map
       (fun g => (Qred (Pong.score1 g), Qred (Pong.x (Pong.ball g)),
                  Qred (Pong.y (Pong.ball g)), Qred (Pong.vx (Pong.ball g))))
       (Pong.of_js
          (Pong.gameStateRef
             (Pong.session_after (Pong.updateGame 0 0 Pong.ball_leaving_example))))
     = Some (1%Q, 400%Q, 280%Q, (-5)%Q).
Proof. split; vm_compute; reflexivity. Qed.




(** C9, as stated, fails in the chase game.  The host has eaten once; the
    session is ended.  Role and phase are cleared, and World State is not:
    the store still holds the body of four cells, the food and the score 1,
    with only its phase set to idle, and the score display still shows 1. *)
Lemma chase_end_session_keeps_world_state :
  let s := MultiSnake.session_after
             (MultiSnake.stepGame MultiSnake.example_draws MultiSnake.food_ahead_example)
             MultiSnake.food_ahead_example in
  let s' := MultiSnake.session_after (MultiSnake.dispatch MultiSnake.EndSession s) s in
  MultiSnake.roleRef s' = MultiSnake.NoRole
  /\ MultiSnake.gamePhaseRef s' = MultiSnake.Idle
  /\ option_map
       (fun g => (MultiSnake.snake1 g, MultiSnake.food g, MultiSnake.score1 g,
                  MultiSnake.phase g))
       (MultiSnake.of_js (MultiSnake.gameStateRef s'))
     = Some ([MultiSnake.mkCell 5 8; MultiSnake.mkCell 4 8; MultiSnake.mkCell 3 8;
              MultiSnake.mkCell 2 8],
             MultiSnake.mkCell 12 4, 1%Z, MultiSnake.Idle)
  /\ MultiSnake.gameStateRef s' <> MultiSnake.to_js MultiSnake.initial_state
  /\ MultiSnake.scores s' = (JS.num 1, JS.num 0).
Proof.
  vm_compute. repeat (split; [reflexivity|]). split; [discriminate|reflexivity].
Qed.

(** The countdown is not stopped by the end of a session, in either game:
    its pending timeout stays, and the ticks that follow count down to 0
    and set the phase to playing, with the role none and no step interval
    or frame pending. *)
Example countdown_outlives_session :
  let s := MultiSnake.run
             [MultiSnake.EndSession; MultiSnake.TimeoutFires 1; MultiSnake.TimeoutFires 2;
              MultiSnake.TimeoutFires 3]
             MultiSnake.host_countdown_example in
  let p := Pong.run
             [Pong.EndSession; Pong.TimeoutFires 1; Pong.TimeoutFires 3; Pong.TimeoutFires 4]
             Pong.host_countdown_example in
  MultiSnake.countdownTimerRef MultiSnake.host_countdown_example = Some 1%positive
  /\ MultiSnake.roleRef s = MultiSnake.NoRole
  /\ MultiSnake.gamePhaseRef s = MultiSnake.Playing
  /\ MultiSnake.countdown s = JS.num 0
  /\ MultiSnake.intervals s = ∅
  /\ Pong.countdownTimerRef Pong.host_countdown_example = Some 1%positive
  /\ Pong.roleRef p = Pong.NoRole
  /\ Pong.gamePhaseRef p = Pong.Playing
  /\ Pong.countdown p = JS.num 0
  /\ Pong.frames p = ∅.
Proof. vm_compute. repeat (split; [reflexivity|]). reflexivity. Qed.

(** C9, as the code has it.  Wherever a run of either game has got to,
    ending the session sets the role to none, the phase to idle and
    [connected] to false, drops the channel and the peer connection, and
    leaves no step interval and no frame pending, so a step or frame that
    fires afterwards runs nothing.  The paddle game resets World State, to
    the fresh state at the speed that is set, and the scores; the chase
    game keeps World State and writes only the phase idle into it. *)
Theorem end_session_tears_down (evs : list MultiSnake.Event) (pevs : list Pong.Event) :
  let s := MultiSnake.run evs MultiSnake.initial_session in
  let s' := MultiSnake.session_after (MultiSnake.dispatch MultiSnake.EndSession s) s in
  let p := Pong.run pevs Pong.initial_session in
  let p' := Pong.step Pong.EndSession p in
  (MultiSnake.roleRef s' = MultiSnake.NoRole
   /\ MultiSnake.gamePhase s' = MultiSnake.Idle
   /\ MultiSnake.gamePhaseRef s' = MultiSnake.Idle
   /\ MultiSnake.connected s' = false
   /\ MultiSnake.channelRef s' = None
   /\ MultiSnake.peerRef s' = None
   /\ MultiSnake.intervalRef s' = None
   /\ MultiSnake.intervals s' = ∅
   /\ (forall h draws,
         MultiSnake.dispatch (MultiSnake.IntervalFires h draws) s' = MultiSnake.Done s')
   /\ (forall state,
         MultiSnake.of_js (MultiSnake.gameStateRef s) = Some state ->
         MultiSnake.of_js (MultiSnake.gameStateRef s')
         = Some (MultiSnake.with_phase MultiSnake.Idle state)))
  /\ (Pong.roleRef p' = Pong.NoRole
      /\ Pong.gamePhaseRef p' = Pong.Idle
      /\ Pong.connected p' = false
      /\ Pong.dataChannelRef p' = None
      /\ Pong.peerConnectionRef p' = None
      /\ Pong.frames p' = ∅
      /\ (forall h r1 r2, Pong.step (Pong.FrameFires h r1 r2) p' = p')
      /\ Pong.gameStateRef p' = Pong.to_js (Pong.fresh_state (Pong.ballSpeedRef p))
      /\ Pong.scoresRef p' = (JS.num 0, JS.num 0)).
Proof.
  cbv zeta. split.
  - pose proof (run_tracked evs _ initial_tracked) as Ht.
    set (s := MultiSnake.run evs MultiSnake.initial_session) in *.
    pose proof (snake_endSession_spec s) as Hspec. cbv zeta in Hspec.
    change (MultiSnake.session_after (MultiSnake.dispatch MultiSnake.EndSession s) s)
      with (MultiSnake.session_after_handler (MultiSnake.endSession s) s).
    destruct Hspec as [H1 [H2 [H3 [H4 [H5 [H6 [H7 [H8 [_ [_ H11]]]]]]]]]].
    repeat (split; [assumption|]).
    split; [exact (H8 Ht)|].
    split; [intros h draws; apply snake_no_interval, H8, Ht|].
    intros state Hst. apply (H11 state Hst).
  - pose proof (pong_run_tracked pevs _ pong_initial_tracked) as Ht.
    set (p := Pong.run pevs Pong.initial_session) in *.
    destruct (pong_end_step p Ht) as [H1 [H2 [H3 [H4 [H5 [H6 [H7 [H8 _]]]]]]]].
    repeat (split; [assumption|]).
    split; [intros h r1 r2; apply pong_no_frame, H8|].
    split; assumption.
Qed.

(** C10.  The filter on a commanded direction compares the new direction
    with the commanded one, not with the one the last step applied.  So two
    keys of the host between two steps, a quarter turn and then the
    opposite of the direction that was commanded, are both accepted and
    leave the opposite direction commanded; the same holds for two inbound
    inputs of the guest.  Nothing else in the session changes. *)
Theorem two_turns_reverse_direction (s : MultiSnake.Session) (d : MultiSnake.Direction) :
  MultiSnake.roleRef s = MultiSnake.Host ->
  (MultiSnake.run
     [MultiSnake.KeyDown (MultiSnake.arrow (MultiSnake.quarter_turn (MultiSnake.dir1Ref s)));
      MultiSnake.KeyDown (MultiSnake.arrow (MultiSnake.opposite (MultiSnake.dir1Ref s)))] s
   = MultiSnake.set_dir1Ref (MultiSnake.opposite (MultiSnake.dir1Ref s)) s)
  /\ (MultiSnake.dir2Ref s = MultiSnake.dir_to_js d ->
      MultiSnake.receive_all
        [MultiSnake.msg_input (MultiSnake.dir_to_js (MultiSnake.quarter_turn d));
         MultiSnake.msg_input (MultiSnake.dir_to_js (MultiSnake.opposite d))] s
      = MultiSnake.set_dir2Ref (MultiSnake.dir_to_js (MultiSnake.opposite d)) s).
Proof.
  intros Hr. split.
  - cbn [MultiSnake.run MultiSnake.dispatch].
    rewrite (host_arrow_key _ s Hr).
    assert (H1 : MultiSnake.dir_eqb (MultiSnake.quarter_turn (MultiSnake.dir1Ref s))
                   (MultiSnake.opposite (MultiSnake.dir1Ref s)) = false)
      by (destruct (MultiSnake.dir1Ref s); reflexivity).
    rewrite H1. cbn [MultiSnake.session_after MultiSnake.session_after_handler].
    rewrite host_arrow_key by exact Hr.
    cbn [MultiSnake.dir1Ref MultiSnake.set_dir1Ref].
    assert (H2 : MultiSnake.dir_eqb (MultiSnake.opposite (MultiSnake.dir1Ref s))
                   (MultiSnake.opposite (MultiSnake.quarter_turn (MultiSnake.dir1Ref s)))
                 = false)
      by (destruct (MultiSnake.dir1Ref s); reflexivity).
    rewrite H2. reflexivity.
  - intros Hd. destruct s. cbn in Hr, Hd. subst.
    destruct d; reflexivity.
Qed.

(** The host is playing and its body lies on row 8, heading right.  Up and
    then Left are pressed before the next step: Left is commanded, and the
    step that follows runs the head into the body's second cell and ends
    the game. *)
Lemma two_turns_reverse_direction_witness :
  MultiSnake.dir1Ref
    (MultiSnake.run [MultiSnake.KeyDown "ArrowUp"; MultiSnake.KeyDown "ArrowLeft"]
       MultiSnake.host_playing_example) = MultiSnake.Left
  /\ option_map MultiSnake.dir1
       (MultiSnake.of_js (MultiSnake.gameStateRef MultiSnake.host_playing_example))
     = Some MultiSnake.Right
  /\ MultiSnake.gamePhaseRef
       (MultiSnake.run
          [MultiSnake.KeyDown "ArrowUp"; MultiSnake.KeyDown "ArrowLeft";
           MultiSnake.IntervalFires 4 MultiSnake.example_draws]
          MultiSnake.host_playing_example) = MultiSnake.Over.
Proof.
  split.
  - destruct (two_turns_reverse_direction MultiSnake.host_playing_example MultiSnake.Right
                eq_refl) as [H _].
    change (MultiSnake.run [MultiSnake.KeyDown "ArrowUp"; MultiSnake.KeyDown "ArrowLeft"]
              MultiSnake.host_playing_example)
      with (MultiSnake.run
              [MultiSnake.KeyDown
                 (MultiSnake.arrow
                    (MultiSnake.quarter_turn
                       (MultiSnake.dir1Ref MultiSnake.host_playing_example)));
               MultiSnake.KeyDown
                 (MultiSnake.arrow
                    (MultiSnake.opposite
                       (MultiSnake.dir1Ref MultiSnake.host_playing_example)))]
              MultiSnake.host_playing_example).
    rewrite H. reflexivity.
  - split; vm_compute; reflexivity.
Defined.

(** ** Further properties of the code *)

(** X1.  The single-player snake: wherever a run has got to, the body and
    the food are on the board, no cell is twice in the body, the food is on
    no cell of the body, and the ref that [step] reads the food from holds
    the food that is shown.  The draws are results of [Math.random()]. *)
Theorem single_snake_stays_well_formed (evs : list SnakeGame.Event) :
  SnakeGame.unit_events evs ->
  SnakeGame.well_formed (SnakeGame.run evs SnakeGame.initial_state).
Proof. intros Hd. apply run_well_formed; [exact Hd|apply initial_well_formed]. Qed.

(** The example run: the food at (10, 8) is eaten at the sixth step and the
    new food is put on (9, 4). *)
Lemma single_snake_stays_well_formed_witness :
  SnakeGame.well_formed (SnakeGame.run SnakeGame.example_events SnakeGame.initial_state)
  /\ SnakeGame.snake (SnakeGame.run SnakeGame.example_events SnakeGame.initial_state)
     = [MultiSnake.mkCell 10 7; MultiSnake.mkCell 10 8; MultiSnake.mkCell 9 8;
        MultiSnake.mkCell 8 8]
  /\ SnakeGame.food (SnakeGame.run SnakeGame.example_events SnakeGame.initial_state)
     = MultiSnake.mkCell 9 4.
Proof.
  split; [|split; vm_compute; reflexivity].
  apply (single_snake_stays_well_formed SnakeGame.example_events).
  unfold SnakeGame.unit_events, SnakeGame.example_events, MultiSnake.unit_draws.
  repeat first [exact I | constructor | (unfold Qle; cbn; lia) | (unfold Qlt; cbn; lia)].
Defined.

(** X2.  The single-player snake: in every run the score is ten times the
    number of cells the body has grown by, and the period of the step timer
    is 160 ms less 6 ms for each of them, but not below 80 ms. *)
Theorem single_snake_score_and_period (evs : list SnakeGame.Event) :
  let s := SnakeGame.run evs SnakeGame.initial_state in
  (3 <= length (SnakeGame.snake s))%nat
  /\ SnakeGame.score s = (10 * SnakeGame.eaten s)%Z
  /\ SnakeGame.speed s = Z.max 80 (SnakeGame.INITIAL_SPEED - 6 * SnakeGame.eaten s)
  /\ (80 <= SnakeGame.speed s <= SnakeGame.INITIAL_SPEED)%Z.
Proof.
  cbv zeta.
  assert (H0 : SnakeGame.tally SnakeGame.initial_state)
    by exact (reset_tally SnakeGame.initial_state false).
  pose proof (run_tally evs _ H0) as [H1 [H2 H3]].
  unfold SnakeGame.eaten, SnakeGame.INITIAL_SPEED in *.
  split; [lia|]. split; [exact H2|]. split; [exact H3|]. lia.
Qed.

(** X3.  The single-player snake never turns back on itself: in every run
    the head is one cell from the second cell in the direction that was
    applied last, the pending direction is not the opposite of it, and the
    cell the next step would move to is not the second cell of the body. *)
Theorem single_snake_never_reverses (evs : list SnakeGame.Event) :
  SnakeGame.heading (SnakeGame.run evs SnakeGame.initial_state).
Proof.
  apply run_heading. exact (reset_heading SnakeGame.initial_state false).
Qed.

(** X4.  One step of the single-player snake that returns does one of
    three things.  It ends the game, when the next cell is off the board or
    on the body, and changes nothing but the two flags.  Or it moves: the
    head is the next cell, the length is what it was, score, period and food
    stay.  Or it eats, when the next cell is the food: the body grows by the
    next cell, the score by 10, the period goes down by 6 but not below 80,
    and the new food is on the board and on no cell of the new body. *)
Theorem single_snake_step
  (draws : list Q) (s s' : SnakeGame.State)
  (head : MultiSnake.Cell) (rest : list MultiSnake.Cell) :
  MultiSnake.unit_draws draws ->
  SnakeGame.snake s = head :: rest ->
  SnakeGame.step draws s = SnakeGame.Done s' ->
  let next := SnakeGame.next_head head (SnakeGame.pendingDirection s) in
  ((SnakeGame.off_board next = true \/ In next (SnakeGame.snake s))
   /\ s' = SnakeGame.set_running false (SnakeGame.set_gameOver true s))
  \/ (SnakeGame.on_board next /\ ~ In next (SnakeGame.snake s)
      /\ next <> SnakeGame.foodRef s
      /\ hd_error (SnakeGame.snake s') = Some next
      /\ length (SnakeGame.snake s') = length (SnakeGame.snake s)
      /\ SnakeGame.direction s' = SnakeGame.pendingDirection s
      /\ SnakeGame.score s' = SnakeGame.score s
      /\ SnakeGame.speed s' = SnakeGame.speed s
      /\ SnakeGame.food s' = SnakeGame.food s
      /\ SnakeGame.running s' = SnakeGame.running s
      /\ SnakeGame.gameOver s' = SnakeGame.gameOver s)
  \/ (SnakeGame.on_board next /\ ~ In next (SnakeGame.snake s)
      /\ next = SnakeGame.foodRef s
      /\ SnakeGame.snake s' = next :: SnakeGame.snake s
      /\ SnakeGame.direction s' = SnakeGame.pendingDirection s
      /\ SnakeGame.score s' = (SnakeGame.score s + 10)%Z
      /\ SnakeGame.speed s' = Z.max 80 (SnakeGame.speed s - 6)
      /\ SnakeGame.on_board (SnakeGame.food s')
      /\ ~ In (SnakeGame.food s') (SnakeGame.snake s')
      /\ SnakeGame.foodRef s' = SnakeGame.food s'
      /\ SnakeGame.running s' = SnakeGame.running s
      /\ SnakeGame.gameOver s' = SnakeGame.gameOver s).
Proof.
  intros Hd Hs Hstep. cbv zeta.
  destruct (step_outcomes draws s s' head rest Hs Hstep)
    as [[Hc ->]|[[Hoff [Hocc [Hate ->]]]|[Hoff [Hocc [Hate [f [Hc ->]]]]]]].
  - left. split; [|reflexivity].
    destruct Hc as [Hc|Hc]; [left; exact Hc|right; apply occupies_In; exact Hc].
  - right. left. apply off_board_false in Hoff. apply occupies_false in Hocc.
    split; [exact Hoff|]. split; [exact Hocc|].
    split.
    { intros Heq. rewrite <- Heq, cell_eqb_refl in Hate. discriminate. }
    cbn [SnakeGame.snakeEffect SnakeGame.set_snake SnakeGame.set_direction
           SnakeGame.snake SnakeGame.direction SnakeGame.score SnakeGame.speed
           SnakeGame.food SnakeGame.running SnakeGame.gameOver].
    rewrite removelast_cons_length. rewrite Hs.
    change (removelast
              (SnakeGame.next_head head (SnakeGame.pendingDirection s) :: head :: rest))
      with (SnakeGame.next_head head (SnakeGame.pendingDirection s)
              :: removelast (head :: rest)).
    repeat (split; [reflexivity|]). reflexivity.
  - right. right. apply off_board_false in Hoff. apply occupies_false in Hocc.
    destruct (candidate_spec draws _ f Hd Hc) as [Hfree Hfb].
    split; [exact Hoff|]. split; [exact Hocc|]. split; [exact Hate|].
    cbn [SnakeGame.snakeEffect SnakeGame.set_snake SnakeGame.set_direction
           SnakeGame.set_speed SnakeGame.set_food SnakeGame.set_foodRef
           SnakeGame.set_score
           SnakeGame.snake SnakeGame.direction SnakeGame.score SnakeGame.speed
           SnakeGame.food SnakeGame.foodRef SnakeGame.running SnakeGame.gameOver].
    repeat (split; [first [reflexivity | assumption]|]). reflexivity.
Qed.

(** The sixth step of the example run eats: the score goes from 0 to 10
    and the period from 160 to 154. *)
Lemma single_snake_step_witness :
  let s := SnakeGame.run (firstn 6 SnakeGame.example_events) SnakeGame.initial_state in
  SnakeGame.score s = 0%Z
  /\ exists s',
      SnakeGame.step [1 # 2; 1 # 4] s = SnakeGame.Done s'
      /\ SnakeGame.score s' = 10%Z /\ SnakeGame.speed s' = 154%Z.
Proof.
  cbv zeta. split; [vm_compute; reflexivity|].
  eexists. split; [vm_compute; reflexivity|].
  destruct (single_snake_step [1 # 2; 1 # 4]
              (SnakeGame.run (firstn 6 SnakeGame.example_events) SnakeGame.initial_state)
              (SnakeGame.state_after
                 (SnakeGame.step [1 # 2; 1 # 4]
                    (SnakeGame.run (firstn 6 SnakeGame.example_events)
                       SnakeGame.initial_state))
                 SnakeGame.initial_state)
              (MultiSnake.mkCell 9 8)
              [MultiSnake.mkCell 8 8; MultiSnake.mkCell 7 8])
    as [[_ H]|[[_ [_ [H _]]]|H]].
  - unfold MultiSnake.unit_draws.
    repeat first [constructor | (unfold Qle; cbn; lia) | (unfold Qlt; cbn; lia)].
  - vm_compute. reflexivity.
  - vm_compute. reflexivity.
  - exfalso. vm_compute in H. discriminate.
  - exfalso. apply H. vm_compute. reflexivity.
  - destruct H as [_ [_ [_ [_ [_ [H1 [H2 _]]]]]]].
    split; [exact H1|exact H2].
Defined.

(** X5.  The board of the single-player snake is drawn square by square:
    the index of a square gives a cell of the board, and the cell gives the
    index back, so every cell is drawn once. *)
Theorem board_index_round_trip (index : Z) :
  (0 <= index < SnakeGame.BOARD_SIZE * SnakeGame.BOARD_SIZE)%Z ->
  SnakeGame.on_board (SnakeGame.cell_of_index index)
  /\ (MultiSnake.y (SnakeGame.cell_of_index index) * SnakeGame.BOARD_SIZE
      + MultiSnake.x (SnakeGame.cell_of_index index))%Z = index.
Proof.
  unfold SnakeGame.on_board, SnakeGame.cell_of_index, SnakeGame.BOARD_SIZE.
  cbn [MultiSnake.x MultiSnake.y]. intros H.
  pose proof (Z.mod_pos_bound index 18 ltac:(lia)) as Hm.
  pose proof (Z.div_mod index 18 ltac:(lia)) as Hd.
  assert (0 <= index / 18 < 18)%Z.
  { split; [apply Z.div_pos; lia|apply Z.div_lt_upper_bound; lia]. }
  repeat split; lia.
Qed.

Lemma board_index_round_trip_witness :
  SnakeGame.cell_of_index 154 = MultiSnake.mkCell 10 8
  /\ SnakeGame.on_board (SnakeGame.cell_of_index 154).
Proof.
  split; [reflexivity|].
  apply (board_index_round_trip 154). unfold SnakeGame.BOARD_SIZE. lia.
Defined.

(** X6.  The token that [encodeForURL] gives is made of letters, digits,
    [-] and [_] only, whatever the description and whatever [JSON.stringify]
    and [pako.gzip] give for it: it can stand in a query string as it is. *)
Theorem encoded_token_url_safe
  (Json Str : Type) (JSON_stringify : Json -> Str) (gzip : Str -> list byte) (d : Json) :
  forallb Codec.is_url_char (Codec.encodeForURL JSON_stringify gzip d) = true.
Proof.
  rewrite encodeForURL_unfold, token_is_body.
  apply forallb_forall. intros c Hc.
  apply in_map_iff in Hc. destruct Hc as [c0 [<- Hc0]].
  apply to_url_is_url_char.
  pose proof (b64_body_chars (Codec.fromCharCode (gzip (JSON_stringify d)))) as H.
  rewrite List.Forall_forall in H. apply H, Hc0.
Qed.

(** X7.  The token has four characters for every three compressed bytes,
    rounded up, and no padding: its length is (4 n + 2) / 3 for n bytes. *)
Theorem encoded_token_length
  (Json Str : Type) (JSON_stringify : Json -> Str) (gzip : Str -> list byte) (d : Json) :
  length (Codec.encodeForURL JSON_stringify gzip d)
  = ((4 * length (gzip (JSON_stringify d)) + 2) / 3)%nat.
Proof.
  rewrite encodeForURL_unfold, token_is_body.
  rewrite length_map, b64_body_len. unfold Codec.fromCharCode.
  rewrite length_map. reflexivity.
Qed.

(** X8.  A token with a character that is neither white space, nor [=],
    nor a digit of base64 in either alphabet is refused: [atob] throws
    InvalidCharacterError out of [decodeFromURL], and neither [pako.ungzip]
    nor [JSON.parse] is called. *)
Theorem decode_rejects_foreign_character
  (Json Str : Type) (JSON_parse : Str -> JS.Result Json)
  (ungzip : list byte -> JS.Result Str) (encoded : Codec.Text) (c : ascii) :
  In c encoded ->
  Codec.foreign c = true ->
  Codec.decodeFromURL JSON_parse ungzip encoded = JS.Throw JS.InvalidCharacterError.
Proof.
  intros Hin Hf. destruct (foreign_from_url c Hf) as [Hc [Hw [He Hi]]].
  unfold Codec.decodeFromURL. rewrite decoder_replaces.
  rewrite (atob_foreign _ c); [reflexivity| |exact Hw|exact He|exact Hi].
  apply pad_loop_keeps. rewrite <- Hc. apply in_map. exact Hin.
Qed.

(** A link that was cut after its question mark. *)
Lemma decode_rejects_foreign_character_witness :
  Codec.decodeFromURL Codec.read_description Codec.store_ungzip
    (list_ascii_of_string "H4sI?d=AAA")
  = JS.Throw JS.InvalidCharacterError.
Proof.
  apply (decode_rejects_foreign_character _ _ _ _ _ "?"%char).
  - cbn. auto 10.
  - vm_compute. reflexivity.
Defined.

(** X9.  The chase game's [placeFood]: with draws that are results of
    [Math.random()], the cell it returns is on the playfield and on no cell
    of either body. *)
Theorem food_lands_on_free_cell
  (draws : list Q) (snake1 snake2 : list MultiSnake.Cell) (food : MultiSnake.Cell) :
  MultiSnake.unit_draws draws ->
  MultiSnake.placeFood draws snake1 snake2 = Some food ->
  ~ In food (snake1 ++ snake2) /\ MultiSnake.in_bounds food.
Proof. apply placeFood_spec. Qed.

Lemma food_lands_on_free_cell_witness :
  ~ In (MultiSnake.mkCell 12 4) (MultiSnake.initial_snake1 ++ MultiSnake.initial_snake2)
  /\ MultiSnake.in_bounds (MultiSnake.mkCell 12 4).
Proof.
  apply (food_lands_on_free_cell MultiSnake.example_draws).
  - unfold MultiSnake.unit_draws, MultiSnake.example_draws.
    repeat first [constructor | (unfold Qle; cbn; lia) | (unfold Qlt; cbn; lia)].
  - vm_compute. reflexivity.
Defined.

(** X10.  The loop of [placeFood] ends at the first pair of draws that
    gives a free cell: whatever pairs come before it, a cell is returned. *)
Theorem food_loop_ends
  (pre : list Q) (rx ry : Q) (post : list Q) (snake1 snake2 : list MultiSnake.Cell) :
  Nat.Even (length pre) ->
  MultiSnake.occupies (snake1 ++ snake2)
    (MultiSnake.mkCell (MultiSnake.random_below rx MultiSnake.COLS)
                       (MultiSnake.random_below ry MultiSnake.ROWS)) = false ->
  exists food, MultiSnake.placeFood (pre ++ rx :: ry :: post) snake1 snake2 = Some food.
Proof. apply placeFood_returns. Qed.

(** The first pair of draws gives (4, 8), the head of the first body; the
    second pair gives (12, 4). *)
Lemma food_loop_ends_witness :
  exists food,
    MultiSnake.placeFood [1 # 6; 1 # 2; 1 # 2; 1 # 4]
      MultiSnake.initial_snake1 MultiSnake.initial_snake2 = Some food.
Proof.
  apply (food_loop_ends [1 # 6; 1 # 2] (1 # 2) (1 # 4) []).
  - exists 1%nat. reflexivity.
  - vm_compute. reflexivity.
Defined.

(** X11.  The chase game never has two step timers: in every run at most
    one interval is pending, and it is the one [intervalRef] names. *)
Theorem one_step_interval (evs : list MultiSnake.Event) :
  let s := MultiSnake.run evs MultiSnake.initial_session in
  (size (MultiSnake.intervals s) <= 1)%nat
  /\ (MultiSnake.intervals s = ∅
      \/ exists h, MultiSnake.intervalRef s = Some h /\ MultiSnake.intervals s = {[h]}).
Proof.
  cbv zeta. apply named_handles.
  exact (run_tracked evs _ initial_tracked).
Qed.

(** X12.  The paddle game never has two frame loops: in every run at most
    one animation frame is pending, and it is the one [gameLoopRef]
    names. *)
Theorem one_frame_pending (evs : list Pong.Event) :
  let s := Pong.run evs Pong.initial_session in
  (size (Pong.frames s) <= 1)%nat
  /\ (Pong.frames s = ∅
      \/ exists h, Pong.gameLoopRef s = Some h /\ Pong.frames s = {[h]}).
Proof.
  cbv zeta. apply named_handles.
  exact (pong_run_tracked evs _ pong_initial_tracked).
Qed.

(** X13.  In the chase game a player who has never created a game cannot
    steer right.  The guest's filter compares the key with the direction the
    guest holds for the second snake, no handler of a guest writes that
    direction, and it starts as "left": so in every such run it is "left",
    and the keys d and D send nothing. *)
Theorem guest_cannot_steer_right (evs : list MultiSnake.Event) :
  MultiSnake.joins_only evs ->
  let s := MultiSnake.run evs MultiSnake.initial_session in
  MultiSnake.dir2Ref s = MultiSnake.dir_to_js MultiSnake.Left
  /\ MultiSnake.dispatch (MultiSnake.KeyDown "d") s = MultiSnake.Done s
  /\ MultiSnake.dispatch (MultiSnake.KeyDown "D") s = MultiSnake.Done s.
Proof.
  intros Hj. cbv zeta.
  destruct (joiner_run evs MultiSnake.initial_session Hj) as [Hr Hd];
    [discriminate|reflexivity|].
  split; [exact Hd|].
  split; cbn [MultiSnake.dispatch]; apply right_key_filtered; auto.
Qed.

(** A guest whose second snake the host has turned up: the key w sends
    "up", the key d sends nothing. *)
Lemma guest_cannot_steer_right_witness :
  let evs := [MultiSnake.IncomingOffer; MultiSnake.DataChannel MultiSnake.Connecting;
              MultiSnake.ChannelOpen [];
              MultiSnake.Message
                (JS.Ret (MultiSnake.msg_gameState
                           (MultiSnake.to_js
                              (MultiSnake.with_dirs MultiSnake.Right
                                 (MultiSnake.dir_to_js MultiSnake.Up)
                                 MultiSnake.initial_state))));
              MultiSnake.KeyDown "w"] in
  MultiSnake.roleRef (MultiSnake.run evs MultiSnake.initial_session) = MultiSnake.Guest
  /\ MultiSnake.outbox (MultiSnake.run evs MultiSnake.initial_session)
     = [MultiSnake.msg_input (JS.VStr "up")]
  /\ MultiSnake.dispatch (MultiSnake.KeyDown "d")
       (MultiSnake.run evs MultiSnake.initial_session)
     = MultiSnake.Done (MultiSnake.run evs MultiSnake.initial_session).
Proof.
  cbv zeta. split; [vm_compute; reflexivity|]. split; [vm_compute; reflexivity|].
  refine (proj1 (proj2 (guest_cannot_steer_right _ _))).
  unfold MultiSnake.joins_only. repeat constructor.
Defined.

(** X14.  The paddle game's effect on the ball speed, at the host: the
    speed ref takes the new speed, the ball stays where it is and goes on in
    the direction it had, at the new speed sideways and half of it up or
    down (a ball that stood still goes right and down), paddles and scores
    stay, and the new speed is sent when the channel is open. *)
Theorem speed_change_keeps_direction (s : Pong.Session) (state : Pong.GameState) :
  Pong.roleRef s = Pong.Host ->
  Pong.of_js (Pong.gameStateRef s) = Some state ->
  let s' := Pong.ballSpeedEffect s in
  let speed := Pong.ballSpeed s in
  Pong.ballSpeedRef s' = speed
  /\ Pong.outbox s'
     = Pong.outbox s
       ++ match Pong.dataChannelRef s with
          | Some Pong.Open => [Pong.msg_settings speed]
          | _ => []
          end
  /\ exists state',
      Pong.of_js (Pong.gameStateRef s') = Some state'
      /\ Pong.paddle1Y state' = Pong.paddle1Y state
      /\ Pong.paddle2Y state' = Pong.paddle2Y state
      /\ Pong.score1 state' = Pong.score1 state
      /\ Pong.score2 state' = Pong.score2 state
      /\ Pong.x (Pong.ball state') = Pong.x (Pong.ball state)
      /\ Pong.y (Pong.ball state') = Pong.y (Pong.ball state)
      /\ ((0 <= Pong.vx (Pong.ball state))%Q -> (Pong.vx (Pong.ball state') == speed)%Q)
      /\ ((Pong.vx (Pong.ball state) < 0)%Q -> (Pong.vx (Pong.ball state') == - speed)%Q)
      /\ ((0 <= Pong.vy (Pong.ball state))%Q ->
          (Pong.vy (Pong.ball state') == speed / 2)%Q)
      /\ ((Pong.vy (Pong.ball state) < 0)%Q ->
          (Pong.vy (Pong.ball state') == - (speed / 2))%Q).
Proof.
  intros Hr Hs. cbv zeta.
  destruct (ballSpeedEffect_host s state Hr Hs) as [b' [-> [Hx [Hy [H1 [H2 [H3 H4]]]]]]].
  split.
  { unfold Pong.send_if_open. cbn [Pong.dataChannelRef Pong.set_gameStateRef
                                     Pong.set_ballSpeedRef].
    destruct (Pong.dataChannelRef s) as [[]|]; reflexivity. }
  split.
  { unfold Pong.send_if_open. cbn [Pong.dataChannelRef Pong.set_gameStateRef
                                     Pong.set_ballSpeedRef].
    destruct (Pong.dataChannelRef s) as [[]|]; cbn; rewrite ?app_nil_r; reflexivity. }
  exists (Pong.with_ball b' state).
  rewrite pong_send_store. cbn [Pong.set_gameStateRef Pong.gameStateRef].
  rewrite pong_of_to_js.
  cbn [Pong.with_ball Pong.ball Pong.paddle1Y Pong.paddle2Y Pong.score1 Pong.score2].
  repeat (split; [first [reflexivity | assumption]|]). assumption.
Qed.

(** The playing host moves the slider from 5 to 11: the ball, at the
    centre and going right and down, goes on right and down at 11 and
    11/2. *)
Lemma speed_change_keeps_direction_witness :
  let s := Pong.set_ballSpeed 11 Pong.host_playing_example in
  exists state',
    Pong.of_js (Pong.gameStateRef (Pong.ballSpeedEffect s)) = Some state'
    /\ (Pong.vx (Pong.ball state') == 11)%Q
    /\ (Pong.vy (Pong.ball state') == 11 / 2)%Q.
Proof.
  cbv zeta.
  destruct (speed_change_keeps_direction (Pong.set_ballSpeed 11 Pong.host_playing_example)
              (Pong.fresh_state Pong.DEFAULT_BALL_SPEED))
    as [_ [_ [state' [H0 [_ [_ [_ [_ [_ [_ [H1 [_ [H2 _]]]]]]]]]]]]].
  - vm_compute. reflexivity.
  - vm_compute. reflexivity.
  - exists state'. split; [exact H0|]. split.
    + apply H1. vm_compute. discriminate.
    + apply H2. vm_compute. discriminate.
Defined.

(** X15.  One frame of the playing host in the paddle game: walls and
    paddles turn the ball and never change how fast it goes, sideways or up
    and down; after a point the ball has the speed that is set sideways and
    half of it up or down. *)
Theorem frame_keeps_speed
  (r1 r2 : Q) (p : Pong.Session) (pstate : Pong.GameState) :
  Pong.roleRef p = Pong.Host ->
  Pong.gamePhaseRef p = Pong.Playing ->
  Pong.of_js (Pong.gameStateRef p) = Some pstate ->
  exists p' pstate',
    Pong.updateGame r1 r2 p = Pong.Done p'
    /\ Pong.of_js (Pong.gameStateRef p') = Some pstate'
    /\ ((Pong.score1 pstate' == Pong.score1 pstate
         /\ Pong.score2 pstate' == Pong.score2 pstate)%Q ->
        (Pong.Math_abs (Pong.vx (Pong.ball pstate'))
         == Pong.Math_abs (Pong.vx (Pong.ball pstate)))%Q
        /\ (Pong.Math_abs (Pong.vy (Pong.ball pstate'))
            == Pong.Math_abs (Pong.vy (Pong.ball pstate)))%Q)
    /\ (~ (Pong.score1 pstate' == Pong.score1 pstate
           /\ Pong.score2 pstate' == Pong.score2 pstate)%Q ->
        (Pong.Math_abs (Pong.vx (Pong.ball pstate'))
         == Pong.Math_abs (Pong.ballSpeedRef p))%Q
        /\ (Pong.Math_abs (Pong.vy (Pong.ball pstate'))
            == Pong.Math_abs (Pong.ballSpeedRef p) / 2)%Q).
Proof.
  intros Hr Hph Hs.
  destruct (pong_updateGame_store r1 r2 p pstate Hr Hs) as [p' [Hdone [Hst _]]].
  exists p', (fst (Pong.host_frame r1 r2 pstate p)).
  split; [exact Hdone|]. split; [exact Hst|].
  unfold Pong.host_frame. rewrite Hph. cbn [Pong.phase_eqb fst].
  pose proof (move_paddle1_spec (Pong.keysRef p) pstate) as [Hb [_ [H1 [H2 _]]]].
  cbv zeta in Hb, H1, H2.
  pose proof (physics_speed (Pong.ballSpeedRef p) r1 r2
                (Pong.move_paddle1 (Pong.keysRef p) pstate)) as Hphys.
  cbv zeta in Hphys. rewrite Hb, H1, H2 in Hphys. exact Hphys.
Qed.

(** The first frame of the playing host: the ball leaves the centre as
    fast as it was. *)
Lemma frame_keeps_speed_witness :
  exists p' pstate',
    Pong.updateGame 0 0 Pong.host_playing_example = Pong.Done p'
    /\ Pong.of_js (Pong.gameStateRef p') = Some pstate'
    /\ (Pong.Math_abs (Pong.vx (Pong.ball pstate')) == 5)%Q.
Proof.
  destruct (frame_keeps_speed 0 0 Pong.host_playing_example
              (Pong.fresh_state Pong.DEFAULT_BALL_SPEED))
    as [p' [pstate' [H1 [H2 [H3 _]]]]]; try (vm_compute; reflexivity).
  exists p', pstate'. split; [exact H1|]. split; [exact H2|].
  assert (Hp : p' = Pong.session_after (Pong.updateGame 0 0 Pong.host_playing_example))
    by (rewrite H1; reflexivity).
  rewrite Hp in H2. vm_compute in H2. injection H2 as <-.
  vm_compute. reflexivity.
Defined.

(** X16.  The guest's frame in the paddle game.  It never writes World
    State or the scores; while the channel is open it sends "up" when an up
    key is down and "down" when a down key is down, once per frame.  Then it
    requests the next frame; but with a store that is null or undefined, or
    has no ball, it throws TypeError after sending, once the sprites exist,
    and requests no frame, which ends the loop. *)
Theorem guest_frame_sends_inputs (r1 r2 : Q) (s : Pong.Session) :
  Pong.roleRef s = Pong.Guest ->
  let sent :=
    match Pong.dataChannelRef s with
    | Some Pong.Open =>
        (if Pong.up_pressed (Pong.keysRef s) then [Pong.msg_input "up"] else [])
        ++ (if Pong.down_pressed (Pong.keysRef s) then [Pong.msg_input "down"] else [])
    | _ => []
    end in
  exists s',
    Pong.gameStateRef s' = Pong.gameStateRef s
    /\ Pong.scoresRef s' = Pong.scoresRef s
    /\ Pong.outbox s' = Pong.outbox s ++ sent
    /\ if Pong.spritesRef s
          && (Pong.nullish (Pong.gameStateRef s)
              || Pong.nullish (Pong.field (Pong.gameStateRef s) "ball"))
       then Pong.updateGame r1 r2 s = Pong.Threw JS.TypeError s'
            /\ Pong.frames s' = Pong.frames s
       else Pong.updateGame r1 r2 s = Pong.Done s'
            /\ exists h, Pong.gameLoopRef s' = Some h /\ h ∈ Pong.frames s'.
Proof.
  intros Hr. cbv zeta.
  destruct (guest_frame_spec s) as [H1 [H2 [H3 [H4 H5]]]].
  unfold Pong.updateGame, Pong.simulate. rewrite Hr. cbn [Pong.and_then].
  unfold Pong.render_and_request. rewrite H1, H3.
  destruct (Pong.spritesRef s
            && (Pong.nullish (Pong.gameStateRef s)
                || Pong.nullish (Pong.field (Pong.gameStateRef s) "ball"))).
  - exists (Pong.guest_frame s).
    split; [exact H1|]. split; [exact H2|]. split; [exact H5|].
    split; [reflexivity|exact H4].
  - exists (Pong.requestAnimationFrame_updateGame (Pong.guest_frame s)).
    cbn [Pong.requestAnimationFrame_updateGame Pong.gameStateRef Pong.scoresRef
           Pong.outbox Pong.gameLoopRef Pong.frames].
    split; [exact H1|]. split; [exact H2|]. split; [exact H5|].
    split; [reflexivity|].
    eexists. split; [reflexivity|].
    apply elem_of_union. left. apply elem_of_singleton. reflexivity.
Qed.

(** A guest that holds the key w sends "up" with its frame. *)
Lemma guest_frame_sends_inputs_witness :
  let s := Pong.run [Pong.KeyDown "w"] Pong.guest_example in
  exists s',
    Pong.updateGame 0 0 s = Pong.Done s'
    /\ Pong.outbox s' = Pong.outbox s ++ [Pong.msg_input "up"].
Proof.
  cbv zeta.
  destruct (guest_frame_sends_inputs 0 0 (Pong.run [Pong.KeyDown "w"] Pong.guest_example))
    as [s' [_ [_ [H1 H2]]]]; [vm_compute; reflexivity|].
  exists s'. split.
  - assert (Hc : Pong.spritesRef (Pong.run [Pong.KeyDown "w"] Pong.guest_example)
                 && (Pong.nullish
                       (Pong.gameStateRef (Pong.run [Pong.KeyDown "w"] Pong.guest_example))
                     || Pong.nullish
                          (Pong.field
                             (Pong.gameStateRef
                                (Pong.run [Pong.KeyDown "w"] Pong.guest_example)) "ball"))
                 = false) by (vm_compute; reflexivity).
    rewrite Hc in H2. exact (proj1 H2).
  - rewrite H1. f_equal.
Defined.

(** X17.  Chase game: the phase that is shown is never "over".  The
    crash branch of the step writes "over" to the store and to
    [gamePhaseRef] and does not call [setGamePhase]; no other handler
    shows "over" either.  So in every run the overlay with "Game Over" is
    not rendered and its restart button does nothing. *)
Theorem game_over_never_shown (evs : list MultiSnake.Event) (draws : list Q) :
  MultiSnake.gamePhase (MultiSnake.run evs MultiSnake.initial_session) <> MultiSnake.Over
  /\ MultiSnake.dispatch (MultiSnake.Restart draws)
       (MultiSnake.run evs MultiSnake.initial_session)
     = MultiSnake.Done (MultiSnake.run evs MultiSnake.initial_session).
Proof.
  assert (H : MultiSnake.gamePhase (MultiSnake.run evs MultiSnake.initial_session)
              <> MultiSnake.Over)
    by (apply run_shown; discriminate).
  split; [exact H|].
  cbn [MultiSnake.dispatch].
  destruct (MultiSnake.gamePhase (MultiSnake.run evs MultiSnake.initial_session));
    try reflexivity.
  contradiction.
Qed.

(** X18.  Chase game: in every run at most one timeout of the countdown
    is pending, and a pending one is the one [countdownTimerRef] names:
    [startCountdown] clears the named timeout before it starts the chain,
    and each link of the chain is armed by the one before it as that one
    fires. *)
Theorem one_countdown_timeout (evs : list MultiSnake.Event) :
  (size (MultiSnake.timeouts (MultiSnake.run evs MultiSnake.initial_session)) <= 1)%nat
  /\ forall h v,
      MultiSnake.timeouts (MultiSnake.run evs MultiSnake.initial_session) !! h = Some v ->
      MultiSnake.countdownTimerRef (MultiSnake.run evs MultiSnake.initial_session)
      = Some h.
Proof.
  assert (H : forall h v,
             MultiSnake.timeouts (MultiSnake.run evs MultiSnake.initial_session) !! h
             = Some v ->
             MultiSnake.countdownTimerRef (MultiSnake.run evs MultiSnake.initial_session)
             = Some h).
  { apply run_timeouts. intros h v Hv. cbn in Hv. rewrite lookup_empty in Hv.
    discriminate. }
  split; [apply (named_timeouts _ _ H)|exact H].
Qed.

(** X19.  Paddle game: the same for its countdown. *)
Theorem paddle_one_countdown_timeout (evs : list Pong.Event) :
  (size (Pong.timeouts (Pong.run evs Pong.initial_session)) <= 1)%nat
  /\ forall h v,
      Pong.timeouts (Pong.run evs Pong.initial_session) !! h = Some v ->
      Pong.countdownTimerRef (Pong.run evs Pong.initial_session) = Some h.
Proof.
  assert (H : forall h v,
             Pong.timeouts (Pong.run evs Pong.initial_session) !! h = Some v ->
             Pong.countdownTimerRef (Pong.run evs Pong.initial_session) = Some h).
  { apply pong_run_timeouts. intros h v Hv. cbn in Hv. rewrite lookup_empty in Hv.
    discriminate. }
  split; [apply (named_timeouts _ _ H)|exact H].
Qed.
